(** * Buoy pipeline: ingestion, snapshot export and 24-hour timeseries export

    A shallow embedding of three scripts of the repository,

      - [buoy_to_influx_sqlite.py]   (module [Ingest]),
      - [sqlite_to_json.py]          (module [Snapshot]),
      - [export_24hr_timeseries.py]  (module [Timeseries]),

    over a common model of the [buoy_observation] table (module [Store]) and
    of the few Python primitives the scripts lean on (module [Py]).

    Conventions.
      - SQLite REAL values and Python floats are modelled by the rationals
        they denote ([Q]), so only finite values are covered, and
        arithmetic on them is exact: where the code adds, divides or
        takes remainders of doubles, statements about the result are made
        for values on which these operations do not round (see
        [Snapshot.degrees_to_cardinal]).  Rounding done by [round] and the
        two library parsers [float] and [datetime.fromisoformat] are
        parameters of the sections that need them.
      - Epoch seconds are [Z]; a timestamp rendered with [isoformat()] is
        kept symbolic as [JIso epoch].
      - A Python [dict] is a [gmap], a [set] a [gset].
      - A call that may raise returns a [Py.outcome]. *)

From Stdlib Require Import Ascii QArith Qround Lqa.
From stdpp Require Import gmap strings list sorting.

Local Open Scope Z_scope.

(* ================================================================== *)
(** * Part I: definitions                                               *)
(* ================================================================== *)

(** ** Python primitives *)

Module Py.

(** A call either raises an exception or returns a value. *)
Inductive outcome (A : Type) : Type :=
| Raises
| Returns (a : A).
Global Arguments Raises {A}.
Global Arguments Returns {A} a.

(** Truthiness of an optional string: [None] and [""] are falsy. *)
Definition truthy (v : option string) : bool :=
  match v with
  | Some s => negb (String.eqb s "")
  | None => false
  end.

(** [sep.join(l)]. *)
Fixpoint join (sep : string) (l : list string) : string :=
  match l with
  | [] => ""
  | x :: rest =>
      match rest with
      | [] => x
      | _ :: _ => x +:+ sep +:+ join sep rest
      end
  end.

(** Line boundaries recognised by [str.splitlines] among the code points
    below 256: LF, CR, VT, FF, FS, GS, RS and NEL. *)
Definition LINE_BREAKS : list ascii :=
  ["010"; "013"; "011"; "012"; "028"; "029"; "030"; "133"]%char.

Definition is_linebreak (c : ascii) : bool :=
  bool_decide (c ∈ LINE_BREAKS).

(** [s.splitlines()], with the line under construction in [cur].  A CR
    directly followed by LF is one boundary; a final boundary opens no
    empty last line. *)
Fixpoint splitlines_from (cur s : string) : list string :=
  match s with
  | EmptyString => if String.eqb cur "" then [] else [cur]
  | String c rest =>
      if is_linebreak c then
        cur :: match rest with
               | String c' rest' =>
                   if Ascii.eqb c "013" && Ascii.eqb c' "010"
                   then splitlines_from "" rest'
                   else splitlines_from "" rest
               | EmptyString => []
               end
      else splitlines_from (cur +:+ String c "") rest
  end.

Definition splitlines (s : string) : list string := splitlines_from "" s.

(** [sorted(set_of_strings)]: ascending code-point order. *)
Definition sorted (s : gset string) : list string :=
  merge_sort (λ a b : string, Is_true (String.leb a b)) (elements s).

(** A string with no line boundary in it. *)
Fixpoint break_free (s : string) : bool :=
  match s with
  | EmptyString => true
  | String c rest => negb (is_linebreak c) && break_free rest
  end.

(** [l.count(x)]: how often [x] occurs in a list. *)
Definition occurrences {A : Type} `{EqDecision A} (x : A) (l : list A) : nat :=
  length (filter (λ y, y = x) l).

(** How [pathlib.Path.write_text] touches a file: [open(..., "w")]
    truncates it, then the data is written front to back.  The list gives
    every content the file can be left with when the process dies between
    the [open] and the end of the write: each proper prefix of [data],
    starting with the empty file. *)
Definition write_text_crash_states (data : string) : list string :=
  (λ n, String.substring 0 n data) <$> seq 0 (String.length data).

End Py.

(** ** The observation table *)

Module Store.

(** One row of [buoy_observation]: the two NOT NULL key columns, the
    nullable metric columns (absent from [cols] = NULL) and the source
    file name. The autoincrement [id] and [recorded_at] play no role. *)
Record row : Type := {
  buoy_id : string;
  observation_time : Z;
  cols : gmap string Q;
  source_file : string;
}.

(** The table: its physical column names and its rows in rowid order. *)
Record table : Type := {
  columns : gset string;
  rows : list row;
}.

Definition key (r : row) : string * Z := (buoy_id r, observation_time r).

(** [ORDER BY observation_time DESC LIMIT 1]. *)
Fixpoint order_desc_limit1 (rs : list row) : option row :=
  match rs with
  | [] => None
  | r :: rest =>
      match order_desc_limit1 rest with
      | None => Some r
      | Some r' =>
          if decide (observation_time r' ≤ observation_time r)
          then Some r else Some r'
      end
  end.

(** [ORDER BY observation_time ASC]. *)
Definition time_le (a b : row) : Prop :=
  observation_time a ≤ observation_time b.

#[global] Instance time_le_dec : RelDecision time_le.
Proof. intros a b. unfold time_le. apply _. Defined.

Definition order_asc (rs : list row) : list row := merge_sort time_le rs.

(** The epoch seconds [datetime.fromtimestamp(t, tz=timezone.utc)]
    accepts: those of the years 1 to 9999, from 0001-01-01T00:00:00Z to
    9999-12-31T23:59:59Z.  On any other time the call raises
    ([ValueError: year 10000 is out of range], or [OSError] when [gmtime]
    itself overflows). *)
Definition representable_time (t : Z) : Prop :=
  -62135596800 ≤ t ≤ 253402300799.

#[global] Instance representable_time_dec t : Decision (representable_time t).
Proof. unfold representable_time. apply _. Defined.

(** Every stored observation time can be rendered as a [datetime]. *)
Definition times_representable (t : table) : Prop :=
  Forall (λ r, representable_time (observation_time r)) (rows t).

End Store.

(** ** Ingestion: [buoy_to_influx_sqlite.py] *)

Module Ingest.
Import Py Store.

(** Fields we may insert (order is stable for INSERT). *)
Definition EXPECTED_FIELDS : list string :=
  [ "wave_height_sig"; "wave_height_peak"; "wave_period_sig";
    "wave_period_avg"; "wave_period_peak"; "wave_direction_avg";
    "wave_direction_peak"; "wind_speed"; "wind_gust"; "wind_direction";
    "air_temp"; "sea_temp"; "pressure" ].

(** The columns [CREATE_TABLE_SQL] declares. *)
Definition TABLE_COLUMNS : gset string :=
  list_to_set
    (["id"; "buoy_id"; "observation_time"] ++ EXPECTED_FIELDS
       ++ ["source_file"; "recorded_at"]).

(** The entries of the [FIELD_MAP] dict display, in source order. *)
Definition FIELD_MAP : list (string * string) :=
  [ ("sig_wave_hgt_pst20mts", "wave_height_sig");
    ("avg_sig_wave_hgt_pst20mts", "wave_height_sig");
    ("sig_wave_hgt_pst35mts_10mts_ago", "wave_height_sig");
    ("pk_wave_hgt_pst20mts", "wave_height_peak");
    ("pk_wave_hgt_pst35mts_10mts_ago", "wave_height_peak");
    ("avg_wave_pd_pst20mts", "wave_period_avg");
    ("pk_wave_pd_pst20mts", "wave_period_peak");
    ("pk_wave_pd_pst35mts_10mts_ago", "wave_period_peak");
    ("avg_wave_dir_pst20mts", "wave_direction_avg");
    ("avg_pk_wave_dir_pst20mts", "wave_direction_peak");
    ("avg_wnd_spd_pst10mts", "wind_speed");
    ("avg_wnd_spd_pst10mts_1", "wind_speed");
    ("max_avg_wnd_spd_pst10mts", "wind_gust");
    ("max_avg_wnd_spd_pst10mts_1", "wind_gust");
    ("max_wnd_spd_pst10mts", "wind_gust");
    ("avg_wnd_dir_pst10mts", "wind_direction");
    ("avg_air_temp_pst10mts", "air_temp");
    ("avg_sea_sfc_temp_pst10mts", "sea_temp");
    ("avg_stn_pres_pst10mts", "pressure") ].

(** The dict a dict display evaluates to: entries are inserted left to
    right, a later entry for a key replacing an earlier one. *)
Definition dict_of (entries : list (string * string)) : gmap string string :=
  foldl (λ d kv, <[kv.1 := kv.2]> d) ∅ entries.

(** One [<element name=... value=.../>]: the results of [e.get("name")]
    and [e.get("value")], [None] for a missing attribute. *)
Record element : Type := {
  e_name : option string;
  e_value : option string;
}.

(** What the extractor reads of a parsed document: the first
    [timePosition] element if any, with its [.text] ([None] when the
    element is empty), and all [element]s in document order (the order of
    [root.findall]). *)
Record document : Type := {
  timePosition : option (option string);
  elements : list element;
}.

(** A file of the input directory; [content = None] stands for a file on
    which [ET.parse] raises. *)
Record xml_file : Type := {
  file_name : string;
  content : option document;
}.

(** [ensure_schema] on the database file ([None]: no table yet).  The
    table is created if missing; [CREATE UNIQUE INDEX IF NOT EXISTS
    uniq_buoy_ts] raises on a table that already holds two rows with one
    [(buoy_id, observation_time)]; then the missing columns are added. *)
Definition ensure_schema (db : option table) : outcome table :=
  let t := default {| columns := TABLE_COLUMNS; rows := [] |} db in
  if decide (NoDup (key <$> rows t))
  then Returns {| columns := columns t ∪ list_to_set EXPECTED_FIELDS;
                  rows := rows t |}
  else Raises.

(** The row [insert_sqlite] submits: the two key columns, the fields we
    actually have, in the stable order of [EXPECTED_FIELDS], and the
    source file name. *)
Definition new_row (buoy_id : string) (ts_epoch : Z)
    (field_vals : gmap string Q) (source_file : string) : row :=
  let field_cols := filter (λ c, is_Some (field_vals !! c)) EXPECTED_FIELDS in
  {| Store.buoy_id := buoy_id;
     observation_time := ts_epoch;
     cols := list_to_map (omap (λ c, (c,.) <$> field_vals !! c) field_cols);
     Store.source_file := source_file |}.

(** [insert_sqlite]: [INSERT OR IGNORE].  With the unique index on
    [(buoy_id, observation_time)] a conflicting row is dropped and nothing
    is raised.  Failures of the database itself (a locked or unwritable
    file) are outside the model. *)
Definition insert_sqlite (rs : list row) (buoy_id : string) (ts_epoch : Z)
    (field_vals : gmap string Q) (source_file : string) : list row :=
  let new := new_row buoy_id ts_epoch field_vals source_file in
  if decide (key new ∈ key <$> rs) then rs else rs ++ [new].

(** [xml_dir] and [str(xml_path)]. *)
Definition XML_DIR : string := "~/envcan_wave/data/buoy".
Definition path_str (name : string) : string := XML_DIR +:+ "/" +:+ name.

Definition NEWLINE : string := String "010" "".

(** The [processed] set a run starts from:
    [set(processed_file.read_text().splitlines())], or the empty set when
    the ledger file ([None]) does not exist. *)
Definition read_ledger (ledger : option string) : gset string :=
  match ledger with
  | Some text => list_to_set (splitlines text)
  | None => ∅
  end.

(** The state the main loop threads: the table rows, the in-memory
    [processed] set, the two counters, and (for stating properties) the
    paths handed to the extractor so far. *)
Record run_state : Type := {
  db_rows : list row;
  processed : gset string;
  new_count : nat;
  skipped_count : nat;
  extracted : list string;
}.

(** The state before the first file: the rows of the opened table and
    the set read from the ledger file. *)
Definition initial_state (t : table) (ledger : option string) : run_state :=
  {| db_rows := rows t;
     processed := read_ledger ledger;
     new_count := 0; skipped_count := 0; extracted := [] |}.

(** What a completed run leaves behind. *)
Record run_result : Type := {
  final_table : table;
  ledger_text : string;
  final_state : run_state;
}.

Section extraction.
(** [float(v)]: [None] when it raises [ValueError]. *)
Variable py_float : string → option Q.
(** [int(datetime.fromisoformat(text.replace("Z", "+00:00")).timestamp())]:
    [None] when [fromisoformat] raises [ValueError]. *)
Variable epoch_of_isoformat : string → option Z.
(** The mapping table consulted by the extractor. *)
Variable field_map : gmap string string.

(** The station-identifier loop: returns [(buoy_id, synop_id)] as they
    stand when the loop ends; [wmo_id_extnd] with a non-empty value
    breaks out. *)
Fixpoint find_buoy_id (es : list element) (synop_id : option string)
    : option string * option string :=
  match es with
  | [] => (None, synop_id)
  | e :: rest =>
      if bool_decide (e_name e = Some "wmo_id_extnd") && truthy (e_value e)
      then (e_value e, synop_id)
      else if bool_decide (e_name e = Some "wmo_synop_id") && truthy (e_value e)
      then find_buoy_id rest (e_value e)
      else find_buoy_id rest synop_id
  end.

(** One iteration of the "mapped numeric fields" loop. *)
Definition collect_step (fields : gmap string Q) (e : element)
    : gmap string Q :=
  match e_name e, e_value e with
  | Some n, Some v =>
      match field_map !! n with
      | Some k =>
          match py_float v with
          | Some x => <[k := x]> fields
          | None => fields
          end
      | None => fields
      end
  | _, _ => fields
  end.

Definition collect_fields (es : list element) : gmap string Q :=
  foldl collect_step ∅ es.

(** [buoy_id = buoy_id or synop_id] after the loop. *)
Definition resolve_buoy_id (es : list element) : option string :=
  let '(buoy_id, synop_id) := find_buoy_id es None in
  if truthy buoy_id then buoy_id else synop_id.

(** [parse_and_collect_fields]: raises, returns [None], or returns the
    station id, the observation time (epoch seconds) and the fields. *)
Definition parse_and_collect_fields (root : document)
    : outcome (option (string * Z * gmap string Q)) :=
  match timePosition root with
  | None | Some None => Returns None
  | Some (Some text) =>
      if String.eqb text "" then Returns None
      else
        match epoch_of_isoformat text with
        | None => Raises
        | Some ts =>
            match resolve_buoy_id (elements root) with
            | None => Returns None
            | Some id =>
                let fields := collect_fields (elements root) in
                if decide (fields = ∅) then Returns None
                else Returns (Some (id, ts, fields))
            end
        end
  end.

(** The body of the main loop for one file.  A file already in
    [processed] is skipped.  Otherwise the file is parsed and handed to the
    extractor inside [try]: an exception ([ET.parse] on malformed XML, or
    the extractor raising) is caught by [except Exception], which prints
    and changes nothing; a [None] result marks the file and counts it as
    skipped; an observation is inserted, committed, and the file marked.
    The optional Influx sink catches its own failures and touches neither
    the table nor the set, so it is left out. *)
Definition process_file (st : run_state) (f : xml_file) : run_state :=
  let fp := path_str (file_name f) in
  if decide (fp ∈ processed st) then st
  else
    let seen := extracted st ++ [fp] in
    match content f with
    | None =>
        {| db_rows := db_rows st; processed := processed st;
           new_count := new_count st; skipped_count := skipped_count st;
           extracted := seen |}
    | Some root =>
        match parse_and_collect_fields root with
        | Raises =>
            {| db_rows := db_rows st; processed := processed st;
               new_count := new_count st;
               skipped_count := skipped_count st;
               extracted := seen |}
        | Returns None =>
            {| db_rows := db_rows st;
               processed := processed st ∪ {[fp]};
               new_count := new_count st;
               skipped_count := S (skipped_count st);
               extracted := seen |}
        | Returns (Some (buoy_id, ts, fields)) =>
            {| db_rows :=
                 insert_sqlite (db_rows st) buoy_id ts fields (file_name f);
               processed := processed st ∪ {[fp]};
               new_count := S (new_count st);
               skipped_count := skipped_count st;
               extracted := seen |}
        end
    end.

(** [main] on the sorted directory listing [files], the database file
    and the ledger file ([None]: the file does not exist).  [ledger_text]
    is the text handed to [processed_file.write_text] at the end. *)
Definition main (files : list xml_file) (db : option table)
    (ledger : option string) : outcome run_result :=
  match ensure_schema db with
  | Raises => Raises
  | Returns t =>
      let st := foldl process_file (initial_state t ledger) files in
      Returns {| final_table := {| columns := columns t; rows := db_rows st |};
                 ledger_text := join NEWLINE (sorted (processed st));
                 final_state := st |}
  end.

(** Successive runs, each starting from the table and the ledger file
    the previous one left; the results of the runs that completed. *)
Fixpoint later_runs (listings : list (list xml_file)) (db : option table)
    (ledger : option string) : list run_result :=
  match listings with
  | [] => []
  | files :: rest =>
      match main files db ledger with
      | Raises => []
      | Returns res =>
          res :: later_runs rest (Some (final_table res))
                   (Some (ledger_text res))
      end
  end.

(** *** Vocabulary for stating the extraction properties *)

(** No timestamp: no [timePosition] element, or one without text. *)
Definition no_timestamp (root : document) : Prop :=
  match timePosition root with
  | None => True
  | Some text => truthy text = false
  end.

(** The timestamp text is there and [fromisoformat] accepts it. *)
Definition timestamp_parses (root : document) : Prop :=
  ∃ s, timePosition root = Some (Some s) ∧ s ≠ ""
       ∧ is_Some (epoch_of_isoformat s).

(** The timestamp text is there and [fromisoformat] rejects it. *)
Definition timestamp_unparsable (root : document) : Prop :=
  ∃ s, timePosition root = Some (Some s) ∧ s ≠ ""
       ∧ epoch_of_isoformat s = None.

Definition no_station_id (root : document) : Prop :=
  resolve_buoy_id (elements root) = None.

Definition no_metrics (root : document) : Prop :=
  collect_fields (elements root) = ∅.

(** The elements whose raw name maps to the canonical key [k]. *)
Definition maps_to (k : string) (e : element) : Prop :=
  (e_name e ≫= λ n, field_map !! n) = Some k.

#[global] Instance maps_to_dec k e : Decision (maps_to k e).
Proof. unfold maps_to. apply _. Defined.

(** What an element contributes under [k]: its parsed value when its
    name maps to [k] and its value attribute is a number. *)
Definition contribution (k : string) (e : element) : option Q :=
  if decide (maps_to k e) then e_value e ≫= py_float else None.

End extraction.

(** The ledger file while [processed_file.write_text(data)] runs: the
    contents a crash can leave behind, then the completed file. *)
Definition flush_states (processed : gset string) : list string :=
  write_text_crash_states (join NEWLINE (sorted processed))
    ++ [join NEWLINE (sorted processed)].

(** A finite table standing for a library parser in closed examples:
    the listed inputs parse to the listed values, every other input is
    rejected. *)
Definition parser_of_table {A : Type} (tbl : list (string * A)) (s : string)
    : option A :=
  (list_to_map tbl : gmap string A) !! s.

End Ingest.

(** ** Snapshot export: [sqlite_to_json.py] *)

Module Snapshot.
Import Py Store.

(** A value of the exported JSON object: a string, a number, or the
    ISO-8601 rendering of an epoch time. *)
Inductive jval : Type :=
| JStr (s : string)
| JNum (q : Q)
| JIso (epoch : Z).

(** [BUOYS]: station id, display name and location, in source order. *)
Definition BUOYS : list (string * (string * string)) :=
  [ ("4600146", ("Halibut Bank", "Off Vancouver"));
    ("4600303", ("Southern Georgia Strait", "Southern Strait"));
    ("4600304", ("English Bay", "Vancouver Harbor"));
    ("4600131", ("Sentry Shoal", "Northern Strait of Georgia")) ].

Definition REALTIME_FIELDS : list string :=
  ["wind_speed"; "wind_gust"; "wind_direction"; "air_temp"; "sea_temp";
   "pressure"].

Definition WAVE_FIELDS : list string :=
  ["wave_height_sig"; "wave_height_peak"; "wave_period_sig";
   "wave_period_avg"; "wave_period_peak"; "wave_direction_avg";
   "wave_direction_peak"].

Definition DIRS_16 : list string :=
  ["N"; "NNE"; "NE"; "ENE"; "E"; "ESE"; "SE"; "SSE";
   "S"; "SSW"; "SW"; "WSW"; "W"; "WNW"; "NW"; "NNW"].

(** [d % 360.0] on a finite value, in exact arithmetic: the result has
    the sign of the divisor.  The code computes it in doubles: [fmod],
    which is exact, and for a negative remainder the sum with 360.0,
    which can round (for -11.250000000000002 it rounds to 348.75).  On a
    double that is a multiple of 0.25 nothing rounds and the two
    agree. *)
Definition mod360 (d : Q) : Q :=
  (d - 360 * inject_Z (Qfloor (d / 360)))%Q.

(** [degrees_to_cardinal] on a column value: [None] is SQL NULL, the
    rational a finite float; [float(deg)] and the NaN test then do
    nothing.  The arithmetic is exact, where the code works in doubles:
    the sum [d + 11.25] can round onto a sector edge that the exact sum
    stays below (11.249999999999998 is labelled NNE by the code, N
    here).  For a double that is a multiple of 0.25 (whole and quarter
    degrees, which include every sector edge 11.25 + 22.5 k) all three
    steps are exact: the remainder is a multiple of 0.25 below 360, the
    sum a multiple of 0.25 below 371.25, and the floor division is that
    of two multiples of 0.25.  Statements about the label as a function
    of the bearing are made for such bearings.  An infinite value, on
    which the code raises, is outside the model. *)
Definition degrees_to_cardinal (deg : option Q) : option string :=
  match deg with
  | None => None
  | Some d =>
      let d := mod360 d in
      let idx := Qfloor ((d + 11.25) / 22.5)%Q in
      DIRS_16 !! Z.to_nat (idx mod 16)
  end.

(** The rows the wave query selects from, before ordering:
    [buoy_id = ? AND observation_time >= ? AND observation_time <= ?
     AND wave_height_sig IS NOT NULL]. *)
Definition wave_candidate (buoy : string) (lo hi : Z) (r : row) : Prop :=
  buoy_id r = buoy ∧ lo ≤ observation_time r ∧ observation_time r ≤ hi
  ∧ is_Some (cols r !! "wave_height_sig").

#[global] Instance wave_candidate_dec buoy lo hi r :
  Decision (wave_candidate buoy lo hi r).
Proof. unfold wave_candidate. apply _. Defined.

(** *** Vocabulary for stating the freshness properties *)

(** Every key of the station object that stems from the wave row. *)
Definition WAVE_OUTPUT_KEYS : list string :=
  WAVE_FIELDS ++ ["wave_observation_time"; "wave_direction_peak_cardinal"].

(** The station's most recent observation time. *)
Definition latest_time (t : table) (buoy : string) : option Z :=
  observation_time
    <$> order_desc_limit1 (filter (λ r, buoy_id r = buoy) (rows t)).

(** A wave-bearing observation of the station: a row with a significant
    wave height. *)
Definition wave_bearing (buoy : string) (r : row) : Prop :=
  buoy_id r = buoy ∧ is_Some (cols r !! "wave_height_sig").

#[global] Instance wave_bearing_dec buoy r : Decision (wave_bearing buoy r).
Proof. unfold wave_bearing. apply _. Defined.

(** The time of the station's most recent wave-bearing observation. *)
Definition newest_wave_time (t : table) (buoy : string) : option Z :=
  observation_time
    <$> order_desc_limit1 (filter (wave_bearing buoy) (rows t)).

(** The loops copying the non-null columns of a fetched row into the
    station object; [conv] is the per-field conversion. *)
Definition add_fields (conv : string → Q → Q) (r : row)
    (fields : list string) (j : gmap string jval) : gmap string jval :=
  foldl (λ j field,
           match cols r !! field with
           | Some value => <[field := JNum (conv field value)]> j
           | None => j
           end) j fields.

(** The two "add cardinal directions" blocks. *)
Definition add_cardinal (src dst : string) (j : gmap string jval)
    : gmap string jval :=
  match j !! src with
  | Some (JNum d) =>
      match degrees_to_cardinal (Some d) with
      | Some cardinal =>
          if String.eqb cardinal "" then j else <[dst := JStr cardinal]> j
      | None => j
      end
  | _ => j
  end.

Section export.
(** [round(x, ndigits)] on floats. *)
Variable py_round : Q → Z → Q.

Definition kmh_to_knots (kmh : Q) : Q :=
  py_round (kmh * 0.539957)%Q 1.

Definition realtime_conv (field : string) (value : Q) : Q :=
  if bool_decide (field ∈ ["wind_speed"; "wind_gust"])
  then kmh_to_knots value else value.

(** The station object as it stands before the wave block. *)
Definition realtime_json (t : table) (name : string) (rr : row)
    : gmap string jval :=
  add_fields realtime_conv rr
    (filter (λ f, f ∈ columns t) REALTIME_FIELDS)
    (<["observation_time" := JIso (observation_time rr)]>
       {[ "name" := JStr name ]}).

(** The body of the loop over [BUOYS] for one station.  [Raises]:
    [datetime.fromtimestamp] rejects the observation time or the time of
    the wave row, or the wave query names [wave_height_sig], which the
    table does not have; [Returns None]: the station has no row
    ([continue]); [Returns (Some j)]: [latest_json[buoy_id] = j]. *)
Definition export_buoy (t : table) (buoy : string) (name : string)
    : outcome (option (gmap string jval)) :=
  let available_realtime :=
    filter (λ f, f ∈ columns t) REALTIME_FIELDS in
  let available_wave := filter (λ f, f ∈ columns t) WAVE_FIELDS in
  let buoy_json : gmap string jval := {[ "name" := JStr name ]} in
  match order_desc_limit1 (filter (λ r, buoy_id r = buoy) (rows t)) with
  | None => Returns None
  | Some realtime_row =>
      let obs_time := observation_time realtime_row in
      if decide (representable_time obs_time) then
        let buoy_json := <["observation_time" := JIso obs_time]> buoy_json in
        let buoy_json :=
          add_fields realtime_conv realtime_row available_realtime
            buoy_json in
        let one_hour_ago := obs_time - 3600 in
        if decide ("wave_height_sig" ∈ columns t) then
          let wave_row :=
            order_desc_limit1
              (filter (wave_candidate buoy one_hour_ago obs_time) (rows t)) in
          let with_wave : outcome (gmap string jval) :=
            match wave_row with
            | Some wr =>
                let wave_time := observation_time wr in
                if decide (wave_time ≠ obs_time) then
                  if decide (representable_time wave_time) then
                    Returns
                      (add_fields (λ _ v, v) wr available_wave
                         (<["wave_observation_time" := JIso wave_time]>
                            buoy_json))
                  else Raises
                else Returns (add_fields (λ _ v, v) wr available_wave buoy_json)
            | None => Returns buoy_json
            end in
          match with_wave with
          | Raises => Raises
          | Returns buoy_json =>
              let buoy_json :=
                add_cardinal "wind_direction" "wind_direction_cardinal"
                  buoy_json in
              let buoy_json :=
                add_cardinal "wave_direction_peak"
                  "wave_direction_peak_cardinal" buoy_json in
              Returns (Some buoy_json)
          end
        else Raises
      else Raises
  end.

(** The loop over [BUOYS], building [latest_json]. *)
Fixpoint export_buoys (t : table) (bs : list (string * (string * string)))
    (latest_json : gmap string (gmap string jval))
    : outcome (gmap string (gmap string jval)) :=
  match bs with
  | [] => Returns latest_json
  | (buoy, (name, _)) :: rest =>
      match export_buoy t buoy name with
      | Raises => Raises
      | Returns None => export_buoys t rest latest_json
      | Returns (Some j) => export_buoys t rest (<[buoy := j]> latest_json)
      end
  end.

(** [query_and_export]: [Returns None] is the early [return] on a table
    without the two key columns (nothing is written);
    [Returns (Some j)] writes [j] to [OUT_PATH]. *)
Definition query_and_export (t : table)
    : outcome (option (gmap string (gmap string jval))) :=
  if decide ({["buoy_id"; "observation_time"]} ⊆ columns t) then
    match export_buoys t BUOYS ∅ with
    | Raises => Raises
    | Returns j => Returns (Some j)
    end
  else Returns None.

End export.

End Snapshot.

(** ** Timeseries export: [export_24hr_timeseries.py] *)

Module Timeseries.
Import Py Store.

Definition BUOYS : list (string * (string * string)) :=
  [ ("4600146", ("Halibut Bank", "Off Vancouver"));
    ("4600303", ("Southern Georgia Strait", "Southern Strait"));
    ("4600304", ("English Bay", "Vancouver Harbor"));
    ("4600131", ("Sentry Shoal", "Northern Strait of Georgia")) ].

(** [ALL_METRICS]: metric key, display name and unit, in source order. *)
Definition ALL_METRICS : list (string * (string * string)) :=
  [ ("wave_height_sig", ("Significant Wave Height", "m"));
    ("wave_height_peak", ("Peak Wave Height", "m"));
    ("wave_period_avg", ("Average Wave Period", "s"));
    ("wave_period_peak", ("Peak Wave Period", "s"));
    ("wave_direction_peak", ("Peak Wave Direction", "°"));
    ("wind_speed", ("Wind Speed", "kt"));
    ("wind_gust", ("Wind Gust", "kt"));
    ("wind_direction", ("Wind Direction", "°"));
    ("air_temp", ("Air Temperature", "°C"));
    ("sea_temp", ("Sea Temperature", "°C"));
    ("pressure", ("Pressure", "hPa")) ].

(** The stations that report every 10 minutes and are exported hourly. *)
Definition HOURLY_BUOYS : list string := ["4600304"; "4600303"].

(** One emitted sample: the row's epoch time (written with
    [isoformat()]) and the converted value. *)
Record point : Type := {
  time : Z;
  value : Q;
}.

Record metric_data : Type := {
  m_name : string;
  m_unit : string;
  data : list point;
}.

Record buoy_data : Type := {
  b_name : string;
  b_location : string;
  timeseries : gmap string metric_data;
}.

(** The [_meta] entry; times of the data range are epochs of the
    ISO strings the script compares. *)
Record meta : Type := {
  generated_utc : Q;
  query_start : Q;
  query_end : Q;
  data_start : option Z;
  data_end : option Z;
  hours_covered : Z;
  available_metrics : list string;
  buoy_count : nat;
}.

Record timeseries_json : Type := {
  stations : gmap string buoy_data;
  _meta : meta;
}.

(** [int(x)] on a float: truncation toward zero. *)
Definition py_int (x : Q) : Z := Z.quot (Qnum x) (Zpos (Qden x)).

(** The WHERE clause of the hourly statement:
    [buoy_id = ? AND observation_time >= ? AND metric IS NOT NULL
     AND observation_time % 3600 = 0]
    (SQLite's [%] truncates like [Z.rem]). *)
Definition hourly_where (buoy metric : string) (cutoff : Z) (r : row) : Prop :=
  buoy_id r = buoy ∧ cutoff ≤ observation_time r
  ∧ is_Some (cols r !! metric) ∧ Z.rem (observation_time r) 3600 = 0.

(** The WHERE clause of the keep-all statement. *)
Definition all_where (buoy metric : string) (cutoff : Z) (r : row) : Prop :=
  buoy_id r = buoy ∧ cutoff ≤ observation_time r
  ∧ is_Some (cols r !! metric).

#[global] Instance hourly_where_dec buoy metric cutoff r :
  Decision (hourly_where buoy metric cutoff r).
Proof. unfold hourly_where. apply _. Defined.

#[global] Instance all_where_dec buoy metric cutoff r :
  Decision (all_where buoy metric cutoff r).
Proof. unfold all_where. apply _. Defined.

(** [cur.execute(sql, (buoy_id, cutoff_timestamp)); cur.fetchall()]. *)
Definition fetch_rows (t : table) (buoy metric : string) (cutoff : Z)
    : list row :=
  if bool_decide (buoy ∈ HOURLY_BUOYS)
  then order_asc (filter (hourly_where buoy metric cutoff) (rows t))
  else order_asc (filter (all_where buoy metric cutoff) (rows t)).

(** *** Vocabulary for stating the downsampling policy *)

(** The time condition of both statements, [observation_time >= ?]: not
    before the cutoff.  There is no condition from above. *)
Definition since_cutoff (cutoff : Z) (r : row) : Prop :=
  cutoff ≤ observation_time r.

(** The epoch-second timestamp is evenly divisible by 3600. *)
Definition on_hour_boundary (r : row) : Prop :=
  (3600 | observation_time r).

#[global] Instance on_hour_boundary_dec r : Decision (on_hour_boundary r).
Proof.
  unfold on_hour_boundary.
  destruct (decide (observation_time r mod 3600 = 0)) as [H|H].
  - left. by apply Z.mod_divide.
  - right. intros Hd. by apply H, Z.mod_divide.
Defined.

(** The stored samples a series is to consist of: the station's non-null
    samples of the metric not before the cutoff, and for a high-frequency
    station only those on an hour boundary. *)
Definition qualifies (buoy metric : string) (cutoff : Z) (r : row) : Prop :=
  buoy_id r = buoy ∧ is_Some (cols r !! metric) ∧ since_cutoff cutoff r
  ∧ (buoy ∈ HOURLY_BUOYS → on_hour_boundary r).

#[global] Instance qualifies_dec buoy metric cutoff r :
  Decision (qualifies buoy metric cutoff r).
Proof. unfold qualifies, since_cutoff. apply _. Defined.

(** The series an exported document holds for a station and a metric
    (empty when the station or the metric is not in it). *)
Definition emitted (stations : gmap string buoy_data) (buoy metric : string)
    : list point :=
  match stations !! buoy with
  | Some b =>
      match timeseries b !! metric with
      | Some m => data m
      | None => []
      end
  | None => []
  end.

(** The exporter's view of the file system: the lock file with its
    modification time, the published artifact, and the database. *)
Record files : Type := {
  lockfile : option Q;
  out_path : option timeseries_json;
  database : option table;
}.

(** File-system mutations, in the order they are issued. *)
Inductive fs_event : Type :=
| UnlinkLock
| TouchLock
| WriteTmp (j : timeseries_json)
| ReplaceOut.

Inductive exit_status : Type :=
| Exit1
| Completed.

(** [acquire_lock] at clock reading [clock]. *)
Definition acquire_lock (clock : Q) (fs : files)
    : bool * files * list fs_event :=
  match lockfile fs with
  | Some mtime =>
      if Qlt_le_dec 300 (clock - mtime) then
        (true,
         {| lockfile := Some clock; out_path := out_path fs;
            database := database fs |},
         [UnlinkLock; TouchLock])
      else (false, fs, [])
  | None =>
      (true,
       {| lockfile := Some clock; out_path := out_path fs;
          database := database fs |},
       [TouchLock])
  end.

(** [release_lock]. *)
Definition release_lock (fs : files) : files * list fs_event :=
  match lockfile fs with
  | Some _ =>
      ({| lockfile := None; out_path := out_path fs;
          database := database fs |}, [UnlinkLock])
  | None => (fs, [])
  end.

(** [safe_json_write(OUT_PATH, data)]: temp file, then rename. *)
Definition safe_json_write (j : timeseries_json) (fs : files)
    : files * list fs_event :=
  ({| lockfile := lockfile fs; out_path := Some j; database := database fs |},
   [WriteTmp j; ReplaceOut]).

Section export.
(** [round(x, ndigits)] on floats. *)
Variable py_round : Q → Z → Q.

Definition kmh_to_knots (kmh : Q) : Q :=
  py_round (kmh * 0.539957)%Q 1.

(** The loop turning fetched rows into [{"time", "value"}] objects; a
    fetched row has the metric non-null. *)
Definition to_point (metric : string) (r : row) : point :=
  let v := default 0%Q (cols r !! metric) in
  {| time := observation_time r;
     value :=
       if bool_decide (metric ∈ ["wind_speed"; "wind_gust"])
       then kmh_to_knots v else py_round v 2 |}.

(** The body of the loop over the available metrics: a metric with
    fetched rows gets a series, one without is skipped. *)
Definition export_metric_step (t : table) (buoy : string) (cutoff : Z)
    (ts : gmap string metric_data) (m : string * (string * string))
    : gmap string metric_data :=
  let rows := fetch_rows t buoy m.1 cutoff in
  match rows with
  | [] => ts
  | _ :: _ =>
      <[m.1 := {| m_name := m.2.1; m_unit := m.2.2;
                  data := to_point m.1 <$> rows |}]> ts
  end.

(** The loop over the available metrics for one station. *)
Definition export_metrics (t : table) (buoy : string) (cutoff : Z)
    (metrics : list (string * (string * string)))
    : gmap string metric_data :=
  foldl (export_metric_step t buoy cutoff) ∅ metrics.

(** The body of the loop over [BUOYS]: a station without any series is
    skipped. *)
Definition export_buoy_step (t : table) (cutoff : Z)
    (metrics : list (string * (string * string)))
    (out : gmap string buoy_data) (b : string * (string * string))
    : gmap string buoy_data :=
  let ts := export_metrics t b.1 cutoff metrics in
  if decide (ts = ∅) then out
  else <[b.1 := {| b_name := b.2.1; b_location := b.2.2;
                   timeseries := ts |}]> out.

Definition export_buoys (t : table) (cutoff : Z)
    (metrics : list (string * (string * string)))
    : gmap string buoy_data :=
  foldl (export_buoy_step t cutoff metrics) ∅ BUOYS.

(** Smallest first time and largest last time over all series. *)
Definition data_range (out : gmap string buoy_data)
    : option Z * option Z :=
  let series :=
    (map_to_list out ≫= λ b, (λ m, data m.2) <$> map_to_list (timeseries b.2)) in
  foldl (λ acc d,
           match head d, last d with
           | Some p, Some q =>
               (Some (match acc.1 with
                      | Some s => Z.min s (time p) | None => time p end),
                Some (match acc.2 with
                      | Some e => Z.max e (time q) | None => time q end))
           | _, _ => acc
           end) (None, None) series.

(** [query_and_export_timeseries] at time [now]: [None] is a return
    without any write (no database, no metric column, or an
    [sqlite3.OperationalError], raised when a key column is missing);
    [Some j] is the document handed to [safe_json_write].  The cutoff is
    [int((now - 24 h).timestamp())].
    The model covers the exports in which [datetime.fromtimestamp]
    accepts every fetched time ([Store.times_representable]): on a row
    beyond the year 9999 the call raises [ValueError], which the
    [except sqlite3.OperationalError] does not catch, and that escape has
    no outcome here.  Statements about when the export writes or
    completes carry the condition. *)
Definition build_timeseries (now : Q) (db : option table)
    : option timeseries_json :=
  match db with
  | None => None
  | Some t =>
      let twenty_four_hours_ago := (now - 86400)%Q in
      let cutoff_timestamp := py_int twenty_four_hours_ago in
      let available := filter (λ m, m.1 ∈ columns t) ALL_METRICS in
      match available with
      | [] => None
      | _ :: _ =>
          if decide ({["buoy_id"; "observation_time"]} ⊆ columns t) then
            let out := export_buoys t cutoff_timestamp available in
            let range := data_range out in
            Some {| stations := out;
                    _meta := {| generated_utc := now;
                                query_start := twenty_four_hours_ago;
                                query_end := now;
                                data_start := range.1;
                                data_end := range.2;
                                hours_covered := 24;
                                available_metrics := available.*1;
                                buoy_count := size out |} |}
          else None
      end
  end.

Definition query_and_export_timeseries (now : Q) (fs : files)
    : files * list fs_event :=
  match build_timeseries now (database fs) with
  | Some j => safe_json_write j fs
  | None => (fs, [])
  end.

(** The [__main__] block: [clock] is the reading of [time.time()] in
    [acquire_lock], [now] the later [datetime.now].  As for
    [build_timeseries], a run in which the export raises (the [finally]
    releases the lock and the process ends with status 1) is outside the
    model. *)
Definition main (clock now : Q) (fs : files)
    : files * list fs_event * exit_status :=
  let '(ok, fs1, ev1) := acquire_lock clock fs in
  if ok then
    let '(fs2, ev2) := query_and_export_timeseries now fs1 in
    let '(fs3, ev3) := release_lock fs2 in
    (fs3, ev1 ++ ev2 ++ ev3, Completed)
  else (fs1, ev1, Exit1).

End export.

End Timeseries.

(** ** Further vocabulary for the ingestion run *)

Module IngestMore.
Import Py Store Ingest.

(** An element that gives the extended, respectively the synoptic,
    station identifier: the name is the one looked for and the value is
    non-empty. *)
Definition usable_extnd (e : element) : bool :=
  bool_decide (e_name e = Some "wmo_id_extnd") && truthy (e_value e).

Definition usable_synop (e : element) : bool :=
  bool_decide (e_name e = Some "wmo_synop_id") && truthy (e_value e).

(** An element the extractor can make use of: its raw name is in the
    mapping table or is one of the two identifier names. *)
Definition recognised (field_map : gmap string string) (e : element) : Prop :=
  match e_name e with
  | Some n => is_Some (field_map !! n) ∨ n = "wmo_id_extnd"
              ∨ n = "wmo_synop_id"
  | None => False
  end.

#[global] Instance recognised_dec field_map e : Decision (recognised field_map e).
Proof. unfold recognised. destruct (e_name e); apply _. Defined.

(** Two loop states that agree on everything the run leaves behind: the
    rows, the processed set and the two counters. *)
Definition same_outcome (st st' : run_state) : Prop :=
  db_rows st = db_rows st' ∧ processed st = processed st'
  ∧ new_count st = new_count st' ∧ skipped_count st = skipped_count st'.

Section failing.
Variable py_float : string → option Q.
Variable epoch_of_isoformat : string → option Z.
Variable field_map : gmap string string.

(** A file the per-document handler gives up on: [ET.parse] raises, or
    the extractor does. *)
Definition failing (f : xml_file) : Prop :=
  match content f with
  | None => True
  | Some root =>
      parse_and_collect_fields py_float epoch_of_isoformat field_map root
      = Raises
  end.

End failing.

End IngestMore.

(** ** The Influx-only ingestion: [buoy_to_influx.py] *)

Module InfluxOnly.
Import Py Store Ingest.

(** The entries of the [field_map] dict display of
    [parse_and_write_xml], in source order; [max_avg_wnd_spd_pst10mts]
    is written twice. *)
Definition field_map : list (string * string) :=
  [ ("sig_wave_hgt_pst20mts", "wave_height_sig");
    ("avg_sig_wave_hgt_pst20mts", "wave_height_sig");
    ("sig_wave_hgt_pst35mts_10mts_ago", "wave_height_sig");
    ("pk_wave_hgt_pst20mts", "wave_height_peak");
    ("pk_wave_hgt_pst35mts_10mts_ago", "wave_height_peak");
    ("avg_wave_pd_pst20mts", "wave_period_avg");
    ("pk_wave_pd_pst20mts", "wave_period_peak");
    ("pk_wave_pd_pst35mts_10mts_ago", "wave_period_peak");
    ("avg_wave_dir_pst20mts", "wave_direction_avg");
    ("avg_pk_wave_dir_pst20mts", "wave_direction_peak");
    ("avg_wnd_spd_pst10mts", "wind_speed");
    ("avg_wnd_spd_pst10mts_1", "wind_speed");
    ("max_avg_wnd_spd_pst10mts", "wind_gust");
    ("max_avg_wnd_spd_pst10mts_1", "wind_gust");
    ("max_wnd_spd_pst10mts", "wind_gust");
    ("max_avg_wnd_spd_pst10mts", "wind_gust");
    ("avg_wnd_dir_pst10mts", "wind_direction");
    ("avg_air_temp_pst10mts", "air_temp");
    ("avg_sea_sfc_temp_pst10mts", "sea_temp");
    ("avg_stn_pres_pst10mts", "pressure") ].

(** Every element that names a station identifier has a non-empty
    value. *)
Definition ids_well_formed (es : list element) : Prop :=
  Forall (λ e, e_name e = Some "wmo_id_extnd" ∨ e_name e = Some "wmo_synop_id"
               → truthy (e_value e) = true) es.

Section extraction.
(** [float(v)]: [None] when it raises [ValueError]. *)
Variable py_float : string → option Q.
(** [int(datetime.fromisoformat(text.replace('Z', '+00:00')).timestamp())]:
    [None] when [fromisoformat] raises [ValueError]. *)
Variable epoch_of_isoformat : string → option Z.

(** The identifier loop: the first [wmo_id_extnd] element ends it,
    whatever its value; a [wmo_synop_id] element sets [synop_id] to its
    value, whatever it is. *)
Fixpoint find_buoy_id (es : list element) (synop_id : option string)
    : option string * option string :=
  match es with
  | [] => (None, synop_id)
  | e :: rest =>
      if bool_decide (e_name e = Some "wmo_id_extnd")
      then (e_value e, synop_id)
      else if bool_decide (e_name e = Some "wmo_synop_id")
      then find_buoy_id rest (e_value e)
      else find_buoy_id rest synop_id
  end.

(** [if not buoy_id: buoy_id = synop_id]. *)
Definition resolve_buoy_id (es : list element) : option string :=
  let '(buoy_id, synop_id) := find_buoy_id es None in
  if truthy buoy_id then buoy_id else synop_id.

(** One iteration of the "parse fields" loop:
    [if n in field_map and v:] then [float(v)] under [try]. *)
Definition collect_step (fields : gmap string Q) (e : element)
    : gmap string Q :=
  match e_name e, e_value e with
  | Some n, Some v =>
      match dict_of field_map !! n with
      | Some k =>
          if truthy (Some v) then
            match py_float v with
            | Some x => <[k := x]> fields
            | None => fields
            end
          else fields
      | None => fields
      end
  | _, _ => fields
  end.

Definition collect_fields (es : list element) : gmap string Q :=
  foldl collect_step ∅ es.

(** [parse_and_write_xml] up to the write: raises, returns without a
    point ([None]), or builds the point's station id, epoch time and
    fields.  A [timePosition] element without text makes
    [time_elem.text.replace] raise. *)
Definition parse_and_write_xml (root : document)
    : outcome (option (string * Z * gmap string Q)) :=
  match timePosition root with
  | None => Returns None
  | Some None => Raises
  | Some (Some text) =>
      match epoch_of_isoformat text with
      | None => Raises
      | Some ts =>
          let buoy_id := resolve_buoy_id (elements root) in
          if truthy buoy_id then
            let fields := collect_fields (elements root) in
            if decide (fields = ∅) then Returns None
            else Returns ((λ id, (id, ts, fields)) <$> buoy_id)
          else Returns None
      end
  end.

End extraction.

End InfluxOnly.

(** ** The storm-surge fetcher: [fetch_storm_surge.py] *)

Module StormSurge.

(** The loop [while time_list[-1] < end_time: time_list.append(...)] of
    [main], started with [last] as the last element: the elements it
    appends.  Times are seconds; [fuel] bounds the number of iterations,
    [None] meaning the loop is still running when the fuel is spent. *)
Fixpoint grow_time_list (fuel : nat) (last end_time step : Z)
    : option (list Z) :=
  match fuel with
  | O => if decide (last < end_time) then None else Some []
  | S n =>
      if decide (last < end_time)
      then ((last + step) ::.) <$> grow_time_list n (last + step) end_time step
      else Some []
  end.

(** [time_list] for the forecast period [start_time .. end_time] and the
    interval in hours. *)
Definition build_time_list (fuel : nat) (start_time end_time interval : Z)
    : option (list Z) :=
  (start_time ::.) <$> grow_time_list fuel start_time end_time (3600 * interval).

(** What [fetch_station_forecast] accumulates. *)
Record fetch_state : Type := {
  forecast_data : gmap Z Q;
  successful : nat;
  failed : nat;
}.

Section fetch.
(** [round(x, ndigits)] on floats. *)
Variable py_round : Q → Z → Q.

(** One iteration for a timestamp and what [fetch_pixel_value] gave for
    it ([None]: no value in the response, or any exception, which
    [fetch_pixel_value] catches).  The key [strftime] renders is kept as
    the time itself. *)
Definition fetch_step (st : fetch_state) (tv : Z * option Q) : fetch_state :=
  match tv.2 with
  | Some value =>
      {| forecast_data := <[tv.1 := py_round value 3]> (forecast_data st);
         successful := S (successful st); failed := failed st |}
  | None =>
      {| forecast_data := forecast_data st;
         successful := successful st; failed := S (failed st) |}
  end.

(** [fetch_station_forecast] on the time list paired with the fetched
    values. *)
Definition fetch_station_forecast (responses : list (Z * option Q))
    : fetch_state :=
  foldl fetch_step
    {| forecast_data := ∅; successful := 0; failed := 0 |} responses.

(** [if forecast_data: save_forecast(...)] in [main]. *)
Definition station_saved (responses : list (Z * option Q)) : bool :=
  bool_decide (forecast_data (fetch_station_forecast responses) ≠ ∅).

End fetch.

End StormSurge.

(** ** Sample inputs for closed examples *)

Module Sample.
Import Py Store Ingest.

(** [float] and [fromisoformat] on the handful of texts the examples use;
    every other text is rejected, as are "n/a" and "yesterday" by the
    library functions. *)
Definition sample_float : string → option Q :=
  parser_of_table [("1.5", 1.5%Q); ("2.5", 2.5%Q); ("12", 12%Q)].

Definition sample_epoch : string → option Z :=
  parser_of_table
    [("2024-01-01T00:00:00Z", 1704067200);
     ("2024-01-01T01:00:00Z", 1704070800)].

Definition elem (n v : string) : element :=
  {| e_name := Some n; e_value := Some v |}.

(** Two reports of station 4600146 for the same instant with different
    wave heights, and a third one an hour later. *)
Definition doc_a : document :=
  {| timePosition := Some (Some "2024-01-01T00:00:00Z");
     elements := [elem "wmo_id_extnd" "4600146";
                  elem "sig_wave_hgt_pst20mts" "1.5"] |}.

Definition doc_b : document :=
  {| timePosition := Some (Some "2024-01-01T00:00:00Z");
     elements := [elem "wmo_id_extnd" "4600146";
                  elem "sig_wave_hgt_pst20mts" "2.5";
                  elem "avg_wnd_spd_pst10mts" "12"] |}.

Definition doc_c : document :=
  {| timePosition := Some (Some "2024-01-01T01:00:00Z");
     elements := [elem "wmo_synop_id" "46146";
                  elem "avg_wnd_spd_pst10mts" "12"] |}.

(** A report without any recognised metric, and one whose timestamp text
    is not an ISO-8601 time. *)
Definition doc_no_metrics : document :=
  {| timePosition := Some (Some "2024-01-01T00:00:00Z");
     elements := [elem "wmo_id_extnd" "4600146";
                  elem "data_avail" "100"] |}.

Definition doc_bad_time : document :=
  {| timePosition := Some (Some "yesterday");
     elements := [elem "wmo_id_extnd" "4600146";
                  elem "sig_wave_hgt_pst20mts" "1.5"] |}.

(** A report with two raw names for the significant wave height, the
    later one without a usable value. *)
Definition doc_two_names : document :=
  {| timePosition := Some (Some "2024-01-01T00:00:00Z");
     elements := [elem "wmo_id_extnd" "4600146";
                  elem "sig_wave_hgt_pst20mts" "1.5";
                  elem "avg_sig_wave_hgt_pst20mts" "n/a"] |}.

(** The same with a usable value in both. *)
Definition doc_two_values : document :=
  {| timePosition := Some (Some "2024-01-01T00:00:00Z");
     elements := [elem "wmo_id_extnd" "4600146";
                  elem "sig_wave_hgt_pst20mts" "1.5";
                  elem "avg_sig_wave_hgt_pst20mts" "2.5"] |}.

Definition file (name : string) (d : document) : xml_file :=
  {| file_name := name; content := Some d |}.

Definition empty_state : run_state :=
  {| db_rows := []; processed := ∅; new_count := 0; skipped_count := 0;
     extracted := [] |}.

(** [round(x, ndigits)] in exact arithmetic, ties to even. *)
Definition round_half_even (x : Q) (ndigits : Z) : Q :=
  let scale := inject_Z (10 ^ ndigits) in
  let y := (x * scale)%Q in
  let fl := Qfloor y in
  let n :=
    match (y - inject_Z fl ?= 1 # 2)%Q with
    | Lt => fl
    | Gt => fl + 1
    | Eq => if Z.even fl then fl else fl + 1
    end in
  Qred (inject_Z n / scale).

Definition mk_row (buoy : string) (time : Z) (cs : gmap string Q)
    (src : string) : row :=
  {| buoy_id := buoy; observation_time := time; cols := cs;
     source_file := src |}.

(** Halibut Bank with a wave sample at 1704067200 and a wind sample 59
    minutes, respectively 61 minutes, later. *)
Definition table_59 : table :=
  {| columns := TABLE_COLUMNS;
     rows := [mk_row "4600146" 1704067200
                {[ "wave_height_sig" := 1.5%Q; "wave_period_peak" := 8%Q ]}
                "w.xml";
              mk_row "4600146" (1704067200 + 3540)
                {[ "wind_speed" := 12%Q; "wind_direction" := 100%Q ]}
                "x.xml"] |}.

Definition table_61 : table :=
  {| columns := TABLE_COLUMNS;
     rows := [mk_row "4600146" 1704067200
                {[ "wave_height_sig" := 1.5%Q; "wave_period_peak" := 8%Q ]}
                "w.xml";
              mk_row "4600146" (1704067200 + 3660)
                {[ "wind_speed" := 12%Q; "wind_direction" := 100%Q ]}
                "x.xml"] |}.

(** A wave row ten minutes old that has a peak period but no significant
    wave height. *)
Definition table_null_sig : table :=
  {| columns := TABLE_COLUMNS;
     rows := [mk_row "4600146" 1704067200
                {[ "wave_period_peak" := 8%Q ]} "w.xml";
              mk_row "4600146" (1704067200 + 600)
                {[ "wind_speed" := 12%Q ]} "x.xml"] |}.

(** Wind samples at 00:00, 00:10 and 01:00 for English Bay (exported
    hourly) and for Halibut Bank (exported in full). *)
Definition table_minutes : table :=
  {| columns := TABLE_COLUMNS;
     rows := [mk_row "4600304" 1704067200 {[ "wind_speed" := 10%Q ]} "a.xml";
              mk_row "4600304" 1704067800 {[ "wind_speed" := 12%Q ]} "b.xml";
              mk_row "4600304" 1704070800 {[ "wind_speed" := 14%Q ]} "c.xml";
              mk_row "4600146" 1704067200 {[ "wind_speed" := 10%Q ]} "d.xml";
              mk_row "4600146" 1704067800 {[ "wind_speed" := 12%Q ]} "e.xml";
              mk_row "4600146" 1704070800 {[ "wind_speed" := 14%Q ]} "f.xml"]
  |}.

(** The exporter's files with a lock taken at [mtime]. *)
Definition locked_at (mtime : Q) : Timeseries.files :=
  {| Timeseries.lockfile := Some mtime;
     Timeseries.out_path := None;
     Timeseries.database := Some table_minutes |}.

Definition sample_parse :=
  parse_and_collect_fields sample_float sample_epoch (dict_of FIELD_MAP).
Definition sample_step :=
  process_file sample_float sample_epoch (dict_of FIELD_MAP).
Definition sample_main :=
  main sample_float sample_epoch (dict_of FIELD_MAP).

End Sample.

(* ================================================================== *)
(** * Part II: properties                                               *)
(* ================================================================== *)

(** Closed decidable facts (membership in a literal list, distinctness of
    literal names) are settled by evaluation. *)
Ltac by_compute := apply (bool_decide_unpack _); by vm_compute.

(** That a closed run returns is settled by evaluating a test on its
    result, so that the result itself stays abstract. *)
Ltac compute_true := vm_compute; reflexivity.
(** ** Strings, lines and the ledger file format *)

Section line_facts.
Import Py.

Lemma append_cons (x : ascii) (a b : string) :
  String x a +:+ b = String x (a +:+ b).
Proof. reflexivity. Qed.

Lemma append_assoc (a b c : string) : (a +:+ b) +:+ c = a +:+ (b +:+ c).
Proof. induction a as [|x a IH]; [done|]. by rewrite !append_cons, IH. Qed.

Lemma append_nil_r (a : string) : a +:+ "" = a.
Proof. induction a as [|x a IH]; [done|]. by rewrite append_cons, IH. Qed.

Lemma break_free_append (a b : string) :
  break_free (a +:+ b) = break_free a && break_free b.
Proof.
  induction a as [|x a IH]; [done|].
  rewrite append_cons. cbn [break_free]. rewrite IH. by rewrite andb_assoc.
Qed.

(** A text without line boundary is one line, or none when empty. *)
Lemma splitlines_from_break_free (s cur : string) :
  break_free s = true →
  splitlines_from cur s
  = if String.eqb (cur +:+ s) "" then [] else [cur +:+ s].
Proof.
  revert cur. induction s as [|c s IH]; intros cur Hs.
  - cbn [splitlines_from]. by rewrite append_nil_r.
  - cbn [splitlines_from break_free] in *.
    apply andb_true_iff in Hs as [Hc Hs]. apply negb_true_iff in Hc.
    rewrite Hc, (IH _ Hs), append_assoc. done.
Qed.

(** A first line ended by LF is split off as it stands. *)
Lemma splitlines_from_line (s cur t : string) :
  break_free s = true →
  splitlines_from cur (s +:+ String "010" t) = (cur +:+ s) :: splitlines t.
Proof.
  revert cur. induction s as [|c s IH]; intros cur Hs.
  - rewrite append_nil_r. unfold splitlines. by destruct t.
  - rewrite append_cons. cbn [splitlines_from break_free] in *.
    apply andb_true_iff in Hs as [Hc Hs]. apply negb_true_iff in Hc.
    rewrite Hc, (IH _ Hs), append_assoc. done.
Qed.

(** Every line [splitlines] yields is free of line boundaries. *)
Lemma splitlines_from_all_break_free (s cur : string) :
  break_free cur = true →
  Forall (λ l, break_free l = true) (splitlines_from cur s).
Proof.
  remember (String.length s) as n eqn:Hn.
  assert (Hle : (String.length s ≤ n)%nat) by lia. clear Hn.
  revert s cur Hle. induction n as [|n IH]; intros s cur Hle Hcur.
  - destruct s; [|simpl in Hle; lia]. simpl.
    destruct (String.eqb cur ""); by repeat constructor.
  - destruct s as [|c s]; cbn [splitlines_from].
    { destruct (String.eqb cur ""); by repeat constructor. }
    simpl in Hle.
    destruct (is_linebreak c) eqn:Hc.
    + constructor; [done|].
      destruct s as [|c' s']; [constructor|]. simpl in Hle.
      destruct (Ascii.eqb c "013" && Ascii.eqb c' "010");
        apply IH; simpl; done || lia.
    + apply IH; [lia|]. rewrite break_free_append, Hcur. simpl. by rewrite Hc.
Qed.

Lemma occurrences_cons {A : Type} `{EqDecision A} (x y : A) (l : list A) :
  occurrences x (y :: l)
  = ((if decide (y = x) then 1 else 0) + occurrences x l)%nat.
Proof. unfold occurrences. rewrite filter_cons. by destruct (decide (y = x)). Qed.

Lemma occurrences_pos {A : Type} `{EqDecision A} (x : A) (l : list A) :
  (0 < occurrences x l)%nat ↔ x ∈ l.
Proof.
  induction l as [|y l IH]; [split; [cbn; lia | by intros ?%elem_of_nil]|].
  rewrite occurrences_cons, elem_of_cons.
  destruct (decide (y = x)) as [->|Hne]; [split; [by left | lia]|].
  rewrite Nat.add_0_l, IH. split; [by right | by intros [?|?]].
Qed.

Lemma occurrences_NoDup {A : Type} `{EqDecision A} (x : A) (l : list A) :
  NoDup l → x ∈ l → occurrences x l = 1%nat.
Proof.
  induction 1 as [|y l Hy Hl IH]; [by intros ?%elem_of_nil|].
  rewrite occurrences_cons, elem_of_cons.
  destruct (decide (y = x)) as [->|Hne].
  - intros _. destruct (occurrences x l) eqn:Ho; [done|].
    exfalso. apply Hy, occurrences_pos. lia.
  - intros [?|Hin]; [congruence|]. by rewrite IH.
Qed.

Lemma occurrences_Permutation {A : Type} `{EqDecision A} (x : A)
    (l l' : list A) :
  l ≡ₚ l' → occurrences x l = occurrences x l'.
Proof. intros Hp. unfold occurrences. by rewrite Hp. Qed.

Lemma join_cons_cons (sep y z : string) (l : list string) :
  join sep (y :: z :: l) = y +:+ sep +:+ join sep (z :: l).
Proof. reflexivity. Qed.

(** Reading back what [NEWLINE.join] wrote: every non-empty line is found
    as often as it was written, provided no line holds a boundary. *)
Lemma splitlines_join_occurrences (x : string) (l : list string) :
  Forall (λ y, break_free y = true) l → x ≠ "" →
  occurrences x (splitlines (join Ingest.NEWLINE l)) = occurrences x l.
Proof.
  intros Hl Hx. induction Hl as [|y l Hy Hl IH]; [done|].
  destruct l as [|z l].
  - cbn [join]. unfold splitlines.
    rewrite (splitlines_from_break_free _ _ Hy).
    change ("" +:+ y) with y.
    destruct (String.eqb_spec y "") as [->|Hne]; [|done].
    rewrite occurrences_cons. by destruct (decide ("" = x)) as [<-|?].
  - rewrite join_cons_cons. unfold splitlines at 1.
    change (Ingest.NEWLINE +:+ join Ingest.NEWLINE (z :: l))
      with (String "010" (join Ingest.NEWLINE (z :: l))).
    rewrite (splitlines_from_line _ _ _ Hy). change ("" +:+ y) with y.
    by rewrite (occurrences_cons x y), IH, (occurrences_cons x y (z :: l)).
Qed.

Lemma sorted_Permutation (s : gset string) : sorted s ≡ₚ elements s.
Proof. apply merge_sort_Permutation. Qed.

(** The ledger file written from a set holds each of its non-empty
    members on exactly one line, and nothing else that is non-empty. *)
Lemma ledger_text_occurrences (s : gset string) (x : string) :
  (∀ y, y ∈ s → break_free y = true) → x ≠ "" →
  occurrences x (splitlines (join Ingest.NEWLINE (sorted s)))
  = if decide (x ∈ s) then 1%nat else 0%nat.
Proof.
  intros Hs Hx. rewrite splitlines_join_occurrences; [|..|done].
  - rewrite (occurrences_Permutation _ _ _ (sorted_Permutation s)).
    destruct (decide (x ∈ s)) as [Hin|Hnin].
    + apply occurrences_NoDup; [apply NoDup_elements|].
      by apply elem_of_elements.
    + destruct (occurrences x (elements s)) eqn:Ho; [done|].
      exfalso. apply Hnin, elem_of_elements, occurrences_pos. lia.
  - apply Forall_forall. intros y Hy. apply Hs.
    rewrite sorted_Permutation in Hy. by apply elem_of_elements.
Qed.

(** Flush then read: membership of non-empty references survives. *)
Lemma read_ledger_flush (s : gset string) (x : string) :
  (∀ y, y ∈ s → break_free y = true) → x ≠ "" →
  x ∈ Ingest.read_ledger (Some (join Ingest.NEWLINE (sorted s))) ↔ x ∈ s.
Proof.
  intros Hs Hx. unfold Ingest.read_ledger.
  rewrite elem_of_list_to_set, <- occurrences_pos.
  rewrite (ledger_text_occurrences _ _ Hs Hx).
  destruct (decide (x ∈ s)); [split; [done | lia] | split; [lia | done]].
Qed.

Lemma read_ledger_break_free (ledger : option string) (y : string) :
  y ∈ Ingest.read_ledger ledger → break_free y = true.
Proof.
  destruct ledger as [text|]; cbn [Ingest.read_ledger]; [|set_solver].
  rewrite elem_of_list_to_set. intros Hy.
  pose proof (splitlines_from_all_break_free text "" eq_refl) as Hall.
  rewrite Forall_forall in Hall. by apply Hall.
Qed.

Lemma path_str_break_free (name : string) :
  break_free name = true → break_free (Ingest.path_str name) = true.
Proof.
  intros Hn. unfold Ingest.path_str. rewrite !break_free_append, Hn.
  by vm_compute.
Qed.

Lemma path_str_nonempty (name : string) : Ingest.path_str name ≠ "".
Proof. unfold Ingest.path_str, Ingest.XML_DIR. by rewrite append_cons. Qed.

End line_facts.

(** ** Ingestion *)

Section ingest_facts.
Import Py Store Ingest.

Variable py_float : string → option Q.
Variable epoch_of_isoformat : string → option Z.
Variable field_map : gmap string string.

#[local] Abbreviation parse :=
  (parse_and_collect_fields py_float epoch_of_isoformat field_map).
#[local] Abbreviation step :=
  (process_file py_float epoch_of_isoformat field_map).
#[local] Abbreviation run := (main py_float epoch_of_isoformat field_map).

(** *** The table under [INSERT OR IGNORE] *)

Lemma key_new_row id ts fv src : key (new_row id ts fv src) = (id, ts).
Proof. reflexivity. Qed.

Lemma insert_sqlite_conflict rs id ts fv src :
  (id, ts) ∈ key <$> rs → insert_sqlite rs id ts fv src = rs.
Proof.
  intros Hin. unfold insert_sqlite. rewrite key_new_row.
  by rewrite decide_True.
Qed.

Lemma insert_sqlite_fresh rs id ts fv src :
  (id, ts) ∉ key <$> rs →
  insert_sqlite rs id ts fv src = rs ++ [new_row id ts fv src].
Proof.
  intros Hin. unfold insert_sqlite. rewrite key_new_row.
  by rewrite decide_False.
Qed.

Lemma insert_sqlite_prefix rs id ts fv src :
  rs `prefix_of` insert_sqlite rs id ts fv src.
Proof.
  unfold insert_sqlite. case_decide; [done|]. by apply prefix_app_r.
Qed.

Lemma insert_sqlite_key rs id ts fv src :
  (id, ts) ∈ key <$> insert_sqlite rs id ts fv src.
Proof.
  destruct (decide ((id, ts) ∈ key <$> rs)) as [Hin|Hnin].
  - by rewrite insert_sqlite_conflict.
  - rewrite insert_sqlite_fresh by done. rewrite fmap_app. set_solver.
Qed.

Lemma insert_sqlite_NoDup rs id ts fv src :
  NoDup (key <$> rs) → NoDup (key <$> insert_sqlite rs id ts fv src).
Proof.
  intros Hnd. destruct (decide ((id, ts) ∈ key <$> rs)) as [Hin|Hnin].
  - by rewrite insert_sqlite_conflict.
  - rewrite insert_sqlite_fresh by done. rewrite fmap_app.
    apply NoDup_app. split; [done|]. split; [|apply NoDup_singleton].
    intros k Hk. cbn. rewrite list_elem_of_singleton. by intros ->.
Qed.

(** Under unique keys a key names its row. *)
Lemma unique_key_row (rs : list row) (r r' : row) :
  NoDup (key <$> rs) → r ∈ rs → r' ∈ rs → key r = key r' → r = r'.
Proof.
  induction rs as [|x rs IH]; [by intros _ ?%elem_of_nil|].
  rewrite fmap_cons, NoDup_cons. intros [Hx Hnd].
  rewrite !elem_of_cons. intros [->|Hr] [->|Hr'] Hk; [done|..].
  - exfalso. apply Hx. rewrite Hk. by apply list_elem_of_fmap_2.
  - exfalso. apply Hx. rewrite <- Hk. by apply list_elem_of_fmap_2.
  - by apply IH.
Qed.

(** *** One iteration of the main loop *)

Lemma step_skip st f :
  path_str (file_name f) ∈ processed st → step st f = st.
Proof. intros Hin. unfold process_file. by rewrite decide_True. Qed.

Lemma step_rows_prefix st f : db_rows st `prefix_of` db_rows (step st f).
Proof.
  unfold process_file. case_decide; [done|].
  destruct (content f) as [root|]; [|done].
  destruct (parse root) as [|[[[id ts] fv]|]]; cbn; [done| |done].
  apply insert_sqlite_prefix.
Qed.

Lemma step_NoDup st f :
  NoDup (key <$> db_rows st) → NoDup (key <$> db_rows (step st f)).
Proof.
  intros Hnd. unfold process_file. case_decide; [done|].
  destruct (content f) as [root|]; [|done].
  destruct (parse root) as [|[[[id ts] fv]|]]; cbn; [done| |done].
  by apply insert_sqlite_NoDup.
Qed.

Lemma step_processed_mono st f : processed st ⊆ processed (step st f).
Proof.
  unfold process_file. case_decide; [done|].
  destruct (content f) as [root|]; [|done].
  destruct (parse root) as [|[[[id ts] fv]|]]; cbn; set_solver.
Qed.

(** A reference enters the set only for the file at hand. *)
Lemma step_processed_inv st f p :
  p ∈ processed (step st f) → p ∈ processed st ∨ p = path_str (file_name f).
Proof.
  unfold process_file. case_decide; [by left|].
  destruct (content f) as [root|]; [|by left].
  destruct (parse root) as [|[[[id ts] fv]|]]; cbn; set_solver.
Qed.

(** A path is handed to the extractor only if it is not in the set. *)
Lemma step_extracted st f p :
  p ∈ extracted (step st f) → p ∈ extracted st ∨ p ∉ processed st.
Proof.
  unfold process_file. case_decide as Hin; [by left|].
  assert (Hgoal : p ∈ extracted st ++ [path_str (file_name f)] →
                  p ∈ extracted st ∨ p ∉ processed st).
  { rewrite elem_of_app, list_elem_of_singleton.
    intros [?| ->]; [by left | by right]. }
  destruct (content f) as [root|]; [|done].
  by destruct (parse root) as [|[[[id ts] fv]|]].
Qed.

(** A document that yields an observation is stored (or ignored as a
    duplicate) and marked. *)
Lemma step_parsed st f root id ts fv :
  content f = Some root → parse root = Returns (Some (id, ts, fv)) →
  path_str (file_name f) ∉ processed st →
  db_rows (step st f) = insert_sqlite (db_rows st) id ts fv (file_name f)
  ∧ processed (step st f) = processed st ∪ {[path_str (file_name f)]}.
Proof.
  intros Hc Hp Hnin. unfold process_file.
  rewrite decide_False by done. by rewrite Hc, Hp.
Qed.

(** A document for which the extractor returns [None] is marked and
    leaves the table alone. *)
Lemma step_rejected st f root :
  content f = Some root → parse root = Returns None →
  path_str (file_name f) ∉ processed st →
  db_rows (step st f) = db_rows st
  ∧ processed (step st f) = processed st ∪ {[path_str (file_name f)]}.
Proof.
  intros Hc Hp Hnin. unfold process_file.
  rewrite decide_False by done. by rewrite Hc, Hp.
Qed.

(** A document on which the extractor raises changes neither the table
    nor the set. *)
Lemma step_raised st f root :
  content f = Some root → parse root = Raises →
  db_rows (step st f) = db_rows st ∧ processed (step st f) = processed st.
Proof.
  intros Hc Hp. unfold process_file. case_decide; [done|].
  by rewrite Hc, Hp.
Qed.

(** *** The whole loop *)

Lemma loop_rows_prefix fs st :
  db_rows st `prefix_of` db_rows (foldl step st fs).
Proof.
  revert st. induction fs as [|f fs IH]; intros st; [done|]. cbn [foldl].
  etrans; [apply step_rows_prefix | apply IH].
Qed.

Lemma loop_NoDup fs st :
  NoDup (key <$> db_rows st) → NoDup (key <$> db_rows (foldl step st fs)).
Proof.
  revert st. induction fs as [|f fs IH]; intros st Hnd; [done|].
  cbn [foldl]. by apply IH, step_NoDup.
Qed.

Lemma loop_processed_mono fs st :
  processed st ⊆ processed (foldl step st fs).
Proof.
  revert st. induction fs as [|f fs IH]; intros st; [done|]. cbn [foldl].
  etrans; [apply step_processed_mono | apply IH].
Qed.

Lemma loop_processed_inv fs st p :
  p ∈ processed (foldl step st fs) →
  p ∈ processed st ∨ p ∈ (path_str ∘ file_name) <$> fs.
Proof.
  revert st. induction fs as [|f fs IH]; intros st; [by left|].
  cbn [foldl]. intros [Hp|Hp]%IH.
  - apply step_processed_inv in Hp as [?| ->]; [by left|right].
    rewrite fmap_cons. by left.
  - right. rewrite fmap_cons. by right.
Qed.

Lemma loop_extracted fs st p :
  p ∈ processed st → p ∈ extracted (foldl step st fs) → p ∈ extracted st.
Proof.
  revert st. induction fs as [|f fs IH]; intros st Hp; [done|].
  cbn [foldl]. intros Hex.
  apply IH in Hex; [|by apply step_processed_mono].
  by apply step_extracted in Hex as [?|?].
Qed.

Lemma loop_key_stays fs st k :
  k ∈ key <$> db_rows st → k ∈ key <$> db_rows (foldl step st fs).
Proof.
  intros Hk. destruct (loop_rows_prefix fs st) as [more ->].
  rewrite fmap_app. apply elem_of_app. by left.
Qed.

Lemma loop_break_free fs st :
  (∀ y, y ∈ processed st → break_free y = true) →
  Forall (λ f, break_free (file_name f) = true) fs →
  ∀ y, y ∈ processed (foldl step st fs) → break_free y = true.
Proof.
  intros Hst Hfs y [Hy|Hy]%loop_processed_inv; [by apply Hst|].
  apply list_elem_of_fmap in Hy as (f & -> & Hf).
  rewrite Forall_forall in Hfs. by apply path_str_break_free, Hfs.
Qed.


(** *** Uniqueness of [(buoy_id, observation_time)] *)

Lemma run_NoDup files db ledger res :
  run files db ledger = Returns res →
  NoDup (key <$> rows (final_table res)).
Proof.
  unfold main, ensure_schema. case_decide as Hnd; [|done].
  intros [= <-]. cbn. by apply loop_NoDup.
Qed.

(** C1: of two documents that resolve to one (station_id, observed_at),
    [f1] processed before [f2] (any files [mid] in between), only the
    first is stored.  In every loop state [st] with unique keys in which
    [f1] is still unprocessed: the insert for [f2] returns the table as it
    was, so processing [f2] leaves the rows unchanged, and it fails in no
    way ([f2] ends up marked processed); the keys stay unique and the key
    occurs exactly once; if no row had the key before [f1], the one row
    with that key is the row built from [f1].  And the table a completed
    run leaves always has unique keys. *)
Theorem ingest_first_of_conflicting_pair_wins
    (st : run_state) (f1 f2 : xml_file) (mid : list xml_file)
    (root1 root2 : document) (id : string) (ts : Z)
    (fv1 fv2 : gmap string Q) :
  NoDup (key <$> db_rows st) →
  path_str (file_name f1) ∉ processed st →
  content f1 = Some root1 → parse root1 = Returns (Some (id, ts, fv1)) →
  content f2 = Some root2 → parse root2 = Returns (Some (id, ts, fv2)) →
  let st2 := foldl step (step st f1) mid in
  let st3 := step st2 f2 in
  insert_sqlite (db_rows st2) id ts fv2 (file_name f2) = db_rows st2
  ∧ db_rows st3 = db_rows st2
  ∧ path_str (file_name f2) ∈ processed st3
  ∧ NoDup (key <$> db_rows st3)
  ∧ occurrences (id, ts) (key <$> db_rows st3) = 1%nat
  ∧ ((id, ts) ∉ key <$> db_rows st →
     ∀ r, r ∈ db_rows st3 → key r = (id, ts) →
          r = new_row id ts fv1 (file_name f1))
  ∧ (∀ files db ledger res,
       run files db ledger = Returns res →
       NoDup (key <$> rows (final_table res))).
Proof.
  intros Hnd Hnew Hc1 Hp1 Hc2 Hp2 st2 st3.
  destruct (step_parsed st f1 root1 id ts fv1 Hc1 Hp1 Hnew) as [Hrows1 _].
  assert (Hkey2 : (id, ts) ∈ key <$> db_rows st2).
  { apply loop_key_stays. rewrite Hrows1. apply insert_sqlite_key. }
  assert (Hsame : insert_sqlite (db_rows st2) id ts fv2 (file_name f2)
                  = db_rows st2) by by apply insert_sqlite_conflict.
  assert (Hrows3 : db_rows st3 = db_rows st2).
  { subst st3. destruct (decide (path_str (file_name f2) ∈ processed st2))
      as [Hin|Hnin]; [by rewrite step_skip|].
    destruct (step_parsed st2 f2 root2 id ts fv2 Hc2 Hp2 Hnin) as [-> _].
    exact Hsame. }
  assert (Hnd3 : NoDup (key <$> db_rows st3)).
  { by apply step_NoDup, loop_NoDup, step_NoDup. }
  split_and!; [exact Hsame | exact Hrows3 | | exact Hnd3 | | |].
  - subst st3. destruct (decide (path_str (file_name f2) ∈ processed st2))
      as [Hin|Hnin]; [by rewrite step_skip|].
    destruct (step_parsed st2 f2 root2 id ts fv2 Hc2 Hp2 Hnin) as [_ ->].
    apply elem_of_union. right. by apply elem_of_singleton.
  - apply occurrences_NoDup; [done|]. by rewrite Hrows3.
  - intros Hfresh r Hr Hk.
    apply (unique_key_row (db_rows st3)); [done..| |by rewrite Hk].
    rewrite Hrows3. unfold st2.
    destruct (loop_rows_prefix mid (step st f1)) as [more ->].
    rewrite Hrows1, insert_sqlite_fresh by done.
    rewrite !elem_of_app. left. right. by apply list_elem_of_singleton.
  - intros files db ledger res. apply run_NoDup.
Qed.

(** *** Runs as a whole *)

Lemma run_inv files db ledger res :
  run files db ledger = Returns res →
  ∃ t, ensure_schema db = Returns t
       ∧ NoDup (key <$> rows t)
       ∧ final_state res = foldl step (initial_state t ledger) files
       ∧ rows (final_table res) = db_rows (final_state res)
       ∧ ledger_text res
         = join NEWLINE (sorted (processed (final_state res))).
Proof.
  unfold main. destruct (ensure_schema db) as [|t] eqn:Hschema; [done|].
  intros [= <-]. exists t. split_and!; try done.
  revert Hschema. unfold ensure_schema. case_decide; [|done].
  by intros [= <-].
Qed.

(** A run on the table a previous run left always completes. *)
Lemma run_returns files t ledger :
  NoDup (key <$> rows t) →
  ∃ res, run files (Some t) ledger = Returns res
         ∧ final_state res
           = foldl step
               (initial_state
                  {| columns := columns t ∪ list_to_set EXPECTED_FIELDS;
                     rows := rows t |} ledger) files.
Proof.
  intros Hnd. unfold main, ensure_schema. cbn [default].
  rewrite decide_True by done. eexists. split; reflexivity.
Qed.

Lemma path_str_inj (a b : string) : path_str a = path_str b → a = b.
Proof.
  unfold path_str. intros H.
  by apply (String.app_inj "/"), (String.app_inj XML_DIR).
Qed.

(** What a run starts from and collects is free of line boundaries as
    soon as the file names are. *)
Lemma run_processed_break_free files t ledger :
  Forall (λ f, break_free (file_name f) = true) files →
  ∀ y, y ∈ processed (foldl step (initial_state t ledger) files) →
       break_free y = true.
Proof.
  intros Hfiles. apply loop_break_free; [|done].
  intros y Hy. by apply (read_ledger_break_free ledger).
Qed.

(** A file that yields an observation ends up marked, with its key in
    the table, once the loop has passed it. *)
Lemma loop_ingested files st f root id ts fv :
  content f = Some root → parse root = Returns (Some (id, ts, fv)) →
  (∀ g, g ∈ files → file_name g = file_name f → g = f) →
  (path_str (file_name f) ∈ processed st → (id, ts) ∈ key <$> db_rows st) →
  (path_str (file_name f) ∈ processed (foldl step st files) →
   (id, ts) ∈ key <$> db_rows (foldl step st files))
  ∧ (f ∈ files → path_str (file_name f) ∈ processed (foldl step st files)).
Proof.
  intros Hc Hp. revert st.
  induction files as [|g files IH]; intros st Hsame Hinv.
  { split; [done | by intros ?%elem_of_nil]. }
  cbn [foldl].
  assert (Hinv' : path_str (file_name f) ∈ processed (step st g) →
                  (id, ts) ∈ key <$> db_rows (step st g)).
  { intros Hin. destruct (decide (path_str (file_name f) ∈ processed st))
      as [Hold|Hnew].
    - destruct (step_rows_prefix st g) as [more ->].
      rewrite fmap_app. apply elem_of_app. left. by apply Hinv.
    - apply step_processed_inv in Hin as [?|Heq]; [done|].
      apply path_str_inj in Heq.
      assert (g = f) as -> by (apply Hsame; [by left | done]).
      destruct (step_parsed st f root id ts fv Hc Hp Hnew) as [-> _].
      apply insert_sqlite_key. }
  destruct (IH (step st g)) as [IH1 IH2]; [|done|].
  { intros g' Hg'. apply Hsame. by right. }
  split; [done|].
  intros [->|Hin]%elem_of_cons; [|by apply IH2].
  apply loop_processed_mono.
  destruct (decide (path_str (file_name g) ∈ processed st)) as [Hold|Hnew].
  - by rewrite step_skip.
  - destruct (step_parsed st g root id ts fv Hc Hp Hnew) as [_ ->].
    apply elem_of_union. right. by apply elem_of_singleton.
Qed.

(** C2: ingesting the same source document twice yields one row and one
    ledger line.  Let a run over [files1] complete, with [f] a document of
    the listing that yields an observation and was not in the ledger
    before; [f] may be listed any number of times.  Then the table holds
    its key exactly once and the flushed ledger file holds its reference
    on exactly one line.  A second run over any listing [files2] (with
    [f] in it or not), started from that table and that ledger file,
    completes, does not hand [f] to the extractor again, and leaves the
    key once in the table and the reference on one line of the ledger.
    File names are assumed free of line boundaries, and a name denotes one
    file content within a listing. *)
Theorem ingest_twice_one_row_one_ledger_line
    (files1 files2 : list xml_file) (db : option table)
    (ledger : option string) (res1 : run_result) (f : xml_file)
    (root : document) (id : string) (ts : Z) (fv : gmap string Q) :
  run files1 db ledger = Returns res1 →
  f ∈ files1 →
  (∀ g, g ∈ files1 → file_name g = file_name f → g = f) →
  content f = Some root → parse root = Returns (Some (id, ts, fv)) →
  path_str (file_name f) ∉ read_ledger ledger →
  Forall (λ g, break_free (file_name g) = true) (files1 ++ files2) →
  occurrences (id, ts) (key <$> rows (final_table res1)) = 1%nat
  ∧ occurrences (path_str (file_name f)) (splitlines (ledger_text res1))
    = 1%nat
  ∧ ∃ res2,
      run files2 (Some (final_table res1)) (Some (ledger_text res1))
      = Returns res2
      ∧ (path_str (file_name f) ∉ extracted (final_state res2))
      ∧ occurrences (id, ts) (key <$> rows (final_table res2)) = 1%nat
      ∧ occurrences (path_str (file_name f)) (splitlines (ledger_text res2))
        = 1%nat.
Proof.
  intros Hrun Hf Hsame Hc Hp Hnew [Hbf1 Hbf2]%Forall_app.
  pose proof (run_NoDup _ _ _ _ Hrun) as Hnd1.
  destruct (run_inv _ _ _ _ Hrun) as (t & _ & _ & Hst1 & Hrows1 & Htext1).
  destruct (loop_ingested files1 (initial_state t ledger) f root id ts fv
              Hc Hp Hsame) as [Hkey1 Hmark1]; [done|].
  rewrite <- Hst1 in Hkey1, Hmark1.
  specialize (Hmark1 Hf). specialize (Hkey1 Hmark1).
  assert (Hbfp1 : ∀ y, y ∈ processed (final_state res1) → break_free y = true).
  { rewrite Hst1. by apply run_processed_break_free. }
  assert (Hline1 : occurrences (path_str (file_name f))
                     (splitlines (ledger_text res1)) = 1%nat).
  { rewrite Htext1, ledger_text_occurrences;
      [by rewrite decide_True | done | apply path_str_nonempty]. }
  split; [apply occurrences_NoDup; [done | by rewrite Hrows1]|].
  split; [done|].
  destruct (run_returns files2 (final_table res1) (Some (ledger_text res1)) Hnd1)
    as (res2 & Hrun2 & Hst2).
  exists res2. split; [done|].
  pose proof (run_NoDup _ _ _ _ Hrun2) as Hnd2.
  destruct (run_inv _ _ _ _ Hrun2) as (t2 & _ & _ & _ & Hrows2 & Htext2).
  assert (Hstart : path_str (file_name f)
                   ∈ read_ledger (Some (ledger_text res1))).
  { rewrite Htext1. apply read_ledger_flush;
      [done | apply path_str_nonempty | done]. }
  split_and!.
  - rewrite Hst2. intros Hex.
    by apply loop_extracted, elem_of_nil in Hex.
  - apply occurrences_NoDup; [done|]. rewrite Hrows2, Hst2.
    apply loop_key_stays. cbn. by rewrite <- Hrows1 in Hkey1.
  - rewrite Htext2, ledger_text_occurrences.
    + rewrite decide_True; [done|]. rewrite Hst2.
      by apply loop_processed_mono.
    + rewrite Hst2. by apply run_processed_break_free.
    + apply path_str_nonempty.
Qed.

(** *** Rejected documents and the ledger *)

(** When the extractor returns [None], and when it raises. *)
Lemma parse_returns_None_iff root :
  parse root = Returns None
  ↔ no_timestamp root
    ∨ (timestamp_parses epoch_of_isoformat root
       ∧ (no_station_id root ∨ no_metrics py_float field_map root)).
Proof.
  unfold parse_and_collect_fields, no_timestamp, timestamp_parses,
    no_station_id, no_metrics.
  destruct (timePosition root) as [[s|]|]; cbn [truthy].
  - destruct (String.eqb_spec s "") as [->|Hs]; cbn [negb].
    { split; [by left | done]. }
    destruct (epoch_of_isoformat s) as [ts|] eqn:Hts.
    + destruct (resolve_buoy_id (elements root)) as [id|].
      * case_decide as Hf.
        -- split; [intros _; right|done].
           split; [by exists s | by right].
        -- split; [done|]. intros [[=]|[_ [[=]|?]]]. done.
      * split; [intros _; right|done]. split; [by exists s | by left].
    + split; [done|]. intros [[=]|[(s' & [= <-] & _ & [x Hx]) _]]. congruence.
  - split; [by left | done].
  - split; [by left | done].
Qed.

Lemma parse_raises_iff root :
  parse root = Raises ↔ timestamp_unparsable epoch_of_isoformat root.
Proof.
  unfold parse_and_collect_fields, timestamp_unparsable.
  destruct (timePosition root) as [[s|]|].
  - destruct (String.eqb_spec s "") as [->|Hs].
    { split; [done|]. by intros (s' & [= <-] & ? & _). }
    destruct (epoch_of_isoformat s) as [ts|] eqn:Hts.
    + split; [|intros (s' & [= <-] & _ & ?); congruence].
      destruct (resolve_buoy_id (elements root)); [|done]. by case_decide.
    + split; [intros _; by exists s | done].
  - split; [done | by intros (s' & [=] & _)].
  - split; [done | by intros (s' & [=] & _)].
Qed.

Lemma loop_rejected_marked files st f root :
  f ∈ files → content f = Some root → parse root = Returns None →
  path_str (file_name f) ∈ processed (foldl step st files).
Proof.
  intros Hf Hc Hp. revert st.
  induction files as [|g files IH]; intros st; [by apply elem_of_nil in Hf|].
  cbn [foldl]. apply elem_of_cons in Hf as [<-|Hf]; [|by apply IH].
  apply loop_processed_mono.
  destruct (decide (path_str (file_name f) ∈ processed st)) as [Hold|Hnew].
  - by rewrite step_skip.
  - destruct (step_rejected st f root Hc Hp Hnew) as [_ ->].
    apply elem_of_union. right. by apply elem_of_singleton.
Qed.

(** Once a reference is on the ledger file, every later run completes,
    skips it, and writes it back. *)
Lemma later_runs_skip listings t ledger p :
  NoDup (key <$> rows t) → p ≠ "" → p ∈ read_ledger (Some ledger) →
  Forall (Forall (λ f, break_free (file_name f) = true)) listings →
  length (later_runs py_float epoch_of_isoformat field_map listings
            (Some t) (Some ledger)) = length listings
  ∧ ∀ res, res ∈ later_runs py_float epoch_of_isoformat field_map listings
                   (Some t) (Some ledger) →
           (p ∉ extracted (final_state res))
           ∧ p ∈ read_ledger (Some (ledger_text res)).
Proof.
  intros Hnd Hp Hin Hbf. revert t ledger Hnd Hin.
  induction Hbf as [|files listings Hfiles _ IH]; intros t ledger Hnd Hin.
  { split; [done | by intros res ?%elem_of_nil]. }
  cbn [later_runs].
  destruct (run_returns files t (Some ledger) Hnd) as (res & Hrun & Hst).
  rewrite Hrun.
  pose proof (run_NoDup _ _ _ _ Hrun) as Hnd'.
  destruct (run_inv _ _ _ _ Hrun) as (_ & _ & _ & _ & _ & Htext).
  assert (Hback : p ∈ read_ledger (Some (ledger_text res))).
  { rewrite Htext. apply read_ledger_flush; [|done|].
    - rewrite Hst. by apply run_processed_break_free.
    - rewrite Hst. by apply loop_processed_mono. }
  destruct (IH (final_table res) (ledger_text res) Hnd' Hback) as [Hlen Hall].
  split; [cbn; by rewrite Hlen|].
  intros res' [->|Hres']%elem_of_cons; [|by apply Hall].
  split; [|done]. rewrite Hst. intros Hex.
  by apply loop_extracted, elem_of_nil in Hex.
Qed.

(** C6 (as amended): a document for which extraction returns no
    observation -- no timestamp element or no timestamp text, or, with a
    timestamp that parses, no resolvable station identifier or zero
    canonical metrics -- has its source reference on the ledger file the
    run writes; every later run (each started from what the previous one
    left) completes, never hands the document to the extractor again and
    keeps the reference on the ledger.  A document whose timestamp text
    does not parse makes the extractor raise instead, and processing it
    leaves the processed set as it was.  File names are assumed free of
    line boundaries. *)
Theorem rejected_document_is_marked_processed
    (files : list xml_file) (db : option table) (ledger : option string)
    (res : run_result) (f : xml_file) (root : document)
    (listings : list (list xml_file)) :
  run files db ledger = Returns res →
  f ∈ files → content f = Some root →
  no_timestamp root
  ∨ (timestamp_parses epoch_of_isoformat root
     ∧ (no_station_id root ∨ no_metrics py_float field_map root)) →
  Forall (λ g, break_free (file_name g) = true) files →
  Forall (Forall (λ g, break_free (file_name g) = true)) listings →
  let later :=
    later_runs py_float epoch_of_isoformat field_map listings
      (Some (final_table res)) (Some (ledger_text res)) in
  path_str (file_name f) ∈ read_ledger (Some (ledger_text res))
  ∧ length later = length listings
  ∧ (∀ res', res' ∈ later →
       (path_str (file_name f) ∉ extracted (final_state res'))
       ∧ path_str (file_name f) ∈ read_ledger (Some (ledger_text res')))
  ∧ (∀ st g root',
       content g = Some root' →
       timestamp_unparsable epoch_of_isoformat root' →
       parse root' = Raises ∧ processed (step st g) = processed st).
Proof.
  intros Hrun Hf Hc Hrej Hbf Hbfs later.
  apply parse_returns_None_iff in Hrej.
  pose proof (run_NoDup _ _ _ _ Hrun) as Hnd.
  destruct (run_inv _ _ _ _ Hrun) as (t & _ & _ & Hst & _ & Htext).
  assert (Hback : path_str (file_name f)
                  ∈ read_ledger (Some (ledger_text res))).
  { rewrite Htext. apply read_ledger_flush; [|apply path_str_nonempty|].
    - rewrite Hst. by apply run_processed_break_free.
    - rewrite Hst. by eapply loop_rejected_marked. }
  destruct (later_runs_skip listings (final_table res) (ledger_text res)
              (path_str (file_name f)) Hnd (path_str_nonempty _) Hback Hbfs)
    as [Hlen Hall].
  split_and!; [done..|].
  intros st g root' Hc' Hbad. apply parse_raises_iff in Hbad.
  split; [done|]. by destruct (step_raised st g root' Hc' Hbad).
Qed.

(** *** Several raw names for one canonical key *)

Lemma collect_step_lookup fields e k :
  collect_step py_float field_map fields e !! k
  = match contribution py_float field_map k e with
    | Some x => Some x
    | None => fields !! k
    end.
Proof.
  unfold contribution.
  destruct (decide (maps_to field_map k e)) as [Hm|Hm];
    unfold maps_to in Hm; unfold collect_step;
    destruct (e_name e) as [n|]; cbn in Hm; try done.
  - rewrite Hm. destruct (e_value e) as [v|]; cbn; [|done].
    destruct (py_float v); [by rewrite lookup_insert_eq | done].
  - destruct (e_value e) as [v|]; [|done].
    destruct (field_map !! n) as [k'|]; [|done].
    destruct (py_float v); [|done].
    rewrite lookup_insert_ne; [done | congruence].
Qed.

(** The loop keeps, under each key, the last contribution in document
    order, or what was there before if no element contributes. *)
Lemma collect_loop_lookup es fields k :
  foldl (collect_step py_float field_map) fields es !! k
  = match last (omap (contribution py_float field_map k) es) with
    | Some x => Some x
    | None => fields !! k
    end.
Proof.
  revert fields. induction es as [|e es IH]; intros fields; [reflexivity|].
  cbn [foldl]. rewrite IH, collect_step_lookup.
  change (omap ?f (e :: es)) with
    (match f e with Some x => x :: omap f es | None => omap f es end).
  destruct (contribution py_float field_map k e) as [x|]; [|done].
  rewrite last_cons. by destruct (last _).
Qed.

Lemma collect_fields_lookup es k :
  collect_fields py_float field_map es !! k
  = last (omap (contribution py_float field_map k) es).
Proof.
  unfold collect_fields. rewrite collect_loop_lookup, lookup_empty.
  by destruct (last _).
Qed.

(** *** Schema reconciliation *)

Lemma ensure_schema_rows (db : option table) (t : table) :
  ensure_schema db = Returns t →
  rows t = match db with Some t0 => rows t0 | None => [] end
  ∧ columns t
    = match db with Some t0 => columns t0 | None => TABLE_COLUMNS end
      ∪ list_to_set EXPECTED_FIELDS.
Proof.
  unfold ensure_schema. case_decide as Hnd; [|done]. intros Heq.
  assert (Ht : t = {| columns :=
                        columns (default {| columns := TABLE_COLUMNS;
                                            rows := [] |} db)
                        ∪ list_to_set EXPECTED_FIELDS;
                      rows := rows (default {| columns := TABLE_COLUMNS;
                                               rows := [] |} db) |})
    by congruence.
  clear Heq. subst t. by destruct db.
Qed.

(** X1: [ensure_schema] is additive and idempotent.  When it returns, the
    rows are those the database had (none for a new database), every
    expected metric column is there, no column the table had is lost (a
    new table has exactly the declared columns), and running it again on
    the result changes nothing. *)
Theorem ensure_schema_additive_idempotent (db : option table) (t : table) :
  ensure_schema db = Returns t →
  rows t = match db with Some t0 => rows t0 | None => [] end
  ∧ (∀ c, c ∈ EXPECTED_FIELDS → c ∈ columns t)
  ∧ (∀ t0, db = Some t0 → columns t0 ⊆ columns t)
  ∧ (db = None → columns t = TABLE_COLUMNS)
  ∧ ensure_schema (Some t) = Returns t.
Proof.
  clear py_float epoch_of_isoformat field_map. intros Hschema.
  destruct (ensure_schema_rows db t Hschema) as [Hrows Hcols].
  split_and!.
  - done.
  - intros c Hc. rewrite Hcols, elem_of_union, elem_of_list_to_set. by right.
  - intros t0 ->. rewrite Hcols. apply union_subseteq_l.
  - intros ->. rewrite Hcols.
    apply set_eq. intros c. rewrite elem_of_union.
    split; [|by left]. intros [?|Hc]; [done|].
    unfold TABLE_COLUMNS. rewrite elem_of_list_to_set.
    rewrite elem_of_list_to_set in Hc.
    rewrite !elem_of_app. right. by left.
  - assert (Hnd : NoDup (key <$> rows t)).
    { revert Hschema. unfold ensure_schema. case_decide as Hnd; [|done].
      intros _. rewrite Hrows. by destruct db. }
    change (ensure_schema (Some t))
      with (if decide (NoDup (key <$> rows t))
            then Returns {| columns := columns t ∪ list_to_set EXPECTED_FIELDS;
                            rows := rows t |}
            else Raises).
    rewrite decide_True by done.
    destruct t as [cs rs]. cbn [columns rows] in Hcols |- *. do 2 f_equal.
    rewrite Hcols. apply set_eq. intros c. rewrite !elem_of_union. tauto.
Qed.

(** *** Station identifier *)

Lemma find_buoy_id_fst es syn :
  (find_buoy_id es syn).1
  = head (filter IngestMore.usable_extnd es) ≫= e_value.
Proof.
  revert syn. induction es as [|e es IH]; intros syn; [done|].
  cbn [find_buoy_id]. rewrite filter_cons.
  destruct (decide (IngestMore.usable_extnd e)) as [He|He].
  - apply Is_true_true in He. unfold IngestMore.usable_extnd in He.
    by rewrite He.
  - apply Is_true_false in He. unfold IngestMore.usable_extnd in He.
    rewrite He. clear He.
    destruct (bool_decide (e_name e = Some "wmo_synop_id")
              && truthy (e_value e)); apply IH.
Qed.

Lemma find_buoy_id_snd es syn :
  head (filter IngestMore.usable_extnd es) = None →
  (find_buoy_id es syn).2
  = match last (filter IngestMore.usable_synop es) with
    | Some e => e_value e
    | None => syn
    end.
Proof.
  revert syn. induction es as [|e es IH]; intros syn; [done|].
  cbn [find_buoy_id]. rewrite !filter_cons.
  destruct (decide (IngestMore.usable_extnd e)) as [He|He]; [done|].
  apply Is_true_false in He. unfold IngestMore.usable_extnd in He.
  rewrite He. intros Hnone.
  destruct (decide (IngestMore.usable_synop e)) as [Hs|Hs].
  - apply Is_true_true in Hs. unfold IngestMore.usable_synop in Hs.
    rewrite Hs, (IH _ Hnone), last_cons. by destruct (last _).
  - apply Is_true_false in Hs. unfold IngestMore.usable_synop in Hs.
    rewrite Hs. by apply IH.
Qed.

(** X2: the station identifier is the value of the first element named
    [wmo_id_extnd] with a non-empty value, wherever it stands; only when
    there is none it is the value of the last element named
    [wmo_synop_id] with a non-empty value; and there is none when both
    are missing. *)
Theorem resolve_buoy_id_precedence (es : list element) :
  resolve_buoy_id es
  = match head (filter IngestMore.usable_extnd es) with
    | Some e => e_value e
    | None => last (filter IngestMore.usable_synop es) ≫= e_value
    end.
Proof.
  unfold resolve_buoy_id.
  pose proof (find_buoy_id_fst es None) as Hfst.
  pose proof (find_buoy_id_snd es None) as Hsnd.
  destruct (find_buoy_id es None) as [b s]. cbn [fst snd] in *.
  destruct (head (filter IngestMore.usable_extnd es)) as [e|] eqn:Hhead.
  - cbn in Hfst. subst b.
    apply head_Some_elem_of, list_elem_of_filter in Hhead as [He _].
    unfold IngestMore.usable_extnd in He.
    apply Is_true_true, andb_true_iff in He as [_ ->]. done.
  - cbn in Hfst. subst b. cbn [truthy]. rewrite Hsnd by done.
    by destruct (last _).
Qed.

(** *** Unrecognised elements *)

Lemma collect_step_unrecognised fields e :
  ¬ IngestMore.recognised field_map e →
  collect_step py_float field_map fields e = fields.
Proof.
  unfold IngestMore.recognised, collect_step. intros Hnot.
  destruct (e_name e) as [n|]; [|done].
  destruct (e_value e) as [v|]; [|done].
  destruct (field_map !! n) eqn:Hn; [|done].
  exfalso. apply Hnot. left. by eexists.
Qed.

Lemma collect_loop_filter es fields :
  foldl (collect_step py_float field_map) fields
    (filter (IngestMore.recognised field_map) es)
  = foldl (collect_step py_float field_map) fields es.
Proof.
  revert fields. induction es as [|e es IH]; intros fields; [done|].
  rewrite filter_cons. case_decide as Hrec; cbn [foldl]; [apply IH|].
  rewrite IH. by rewrite collect_step_unrecognised.
Qed.

Lemma find_buoy_id_filter es syn :
  find_buoy_id (filter (IngestMore.recognised field_map) es) syn
  = find_buoy_id es syn.
Proof.
  revert syn. induction es as [|e es IH]; intros syn; [done|].
  rewrite filter_cons. case_decide as Hrec; cbn [find_buoy_id].
  - by rewrite !IH.
  - rewrite IH. unfold IngestMore.recognised in Hrec.
    destruct (e_name e) as [n|] eqn:Hn.
    + rewrite !bool_decide_eq_false_2; [done|..];
        intros [= ->]; apply Hrec; auto.
    + by rewrite !bool_decide_eq_false_2.
Qed.

(** X3: elements whose raw name is neither in the mapping table nor one
    of the two identifier names do not influence extraction: two
    documents with the same timestamp whose recognised elements are the
    same, in the same order, give the same result. *)
Theorem unrecognised_elements_are_ignored
    (root : document) (es' : list element) :
  filter (IngestMore.recognised field_map) es'
  = filter (IngestMore.recognised field_map) (elements root) →
  parse {| timePosition := timePosition root; elements := es' |}
  = parse root.
Proof.
  intros Hsame. unfold parse_and_collect_fields. cbn [timePosition elements].
  assert (Hid : resolve_buoy_id es' = resolve_buoy_id (elements root)).
  { unfold resolve_buoy_id.
    by rewrite <- (find_buoy_id_filter es'), Hsame, find_buoy_id_filter. }
  assert (Hf : collect_fields py_float field_map es'
               = collect_fields py_float field_map (elements root)).
  { unfold collect_fields.
    by rewrite <- (collect_loop_filter es'), Hsame, collect_loop_filter. }
  by rewrite Hid, Hf.
Qed.

(** *** Files the handler gives up on *)

#[local] Abbreviation failing :=
  (IngestMore.failing py_float epoch_of_isoformat field_map).

Lemma step_failing st f :
  failing f → IngestMore.same_outcome (step st f) st.
Proof.
  unfold IngestMore.failing, IngestMore.same_outcome, process_file.
  intros Hf. case_decide; [done|].
  destruct (content f) as [root|]; [|done]. by rewrite Hf.
Qed.

Lemma step_same_outcome st st' f :
  IngestMore.same_outcome st st' →
  IngestMore.same_outcome (step st f) (step st' f).
Proof.
  unfold IngestMore.same_outcome, process_file.
  intros (Hr & Hp & Hn & Hs). rewrite Hp.
  case_decide; [done|].
  destruct (content f) as [root|]; [|done].
  destruct (parse root) as [|[[[id ts] fv]|]]; cbn;
    by rewrite ?Hr, ?Hp, ?Hn, ?Hs.
Qed.

Lemma loop_same_outcome fs st st' :
  IngestMore.same_outcome st st' →
  IngestMore.same_outcome (foldl step st fs) (foldl step st' fs).
Proof.
  revert st st'. induction fs as [|f fs IH]; intros st st' Hsame; [done|].
  cbn [foldl]. by apply IH, step_same_outcome.
Qed.

(** X5: one failing document does not disturb the others.  If [ET.parse]
    or the extractor raises on [f], a completed run over a listing with
    [f] in it leaves the same table, the same ledger text and the same
    counters as the run over the listing without [f]. *)
Theorem failing_file_changes_nothing
    (pre post : list xml_file) (f : xml_file) (db : option table)
    (ledger : option string) (res : run_result) :
  failing f →
  run (pre ++ f :: post) db ledger = Returns res →
  ∃ res',
    run (pre ++ post) db ledger = Returns res'
    ∧ final_table res' = final_table res
    ∧ ledger_text res' = ledger_text res
    ∧ new_count (final_state res') = new_count (final_state res)
    ∧ skipped_count (final_state res') = skipped_count (final_state res).
Proof.
  intros Hfail. unfold main.
  destruct (ensure_schema db) as [|t]; [done|]. intros [= <-].
  eexists. split; [reflexivity|]. cbn.
  assert (Hsame : IngestMore.same_outcome
                    (foldl step (initial_state t ledger) (pre ++ post))
                    (foldl step (initial_state t ledger) (pre ++ f :: post))).
  { rewrite !foldl_app. cbn [foldl]. apply loop_same_outcome.
    split_and!; symmetry; by apply step_failing. }
  destruct Hsame as (Hr & Hp & Hn & Hs). by rewrite Hr, Hp, Hn, Hs.
Qed.

(** *** The counters *)

Lemma step_counts st f :
  (size (processed (step st f)) + new_count st + skipped_count st
   = size (processed st) + new_count (step st f) + skipped_count (step st f))%nat
  ∧ (length (db_rows (step st f)) + new_count st
     ≤ length (db_rows st) + new_count (step st f))%nat.
Proof.
  unfold process_file. case_decide as Hin; [done|].
  assert (Hsize : size (processed st ∪ {[path_str (file_name f)]})
                  = S (size (processed st))).
  { rewrite size_union by (by apply disjoint_singleton_r).
    rewrite size_singleton. lia. }
  destruct (content f) as [root|]; [|done].
  destruct (parse root) as [|[[[id ts] fv]|]]; cbn; [done| |lia].
  split; [lia|]. unfold insert_sqlite. case_decide; [lia|].
  rewrite length_app. cbn. lia.
Qed.

Lemma loop_counts fs st :
  (size (processed (foldl step st fs)) + new_count st + skipped_count st
   = size (processed st) + new_count (foldl step st fs)
     + skipped_count (foldl step st fs))%nat
  ∧ (length (db_rows (foldl step st fs)) + new_count st
     ≤ length (db_rows st) + new_count (foldl step st fs))%nat.
Proof.
  revert st. induction fs as [|f fs IH]; intros st; [done|]. cbn [foldl].
  destruct (IH (step st f)) as [IH1 IH2], (step_counts st f) as [H1 H2]. lia.
Qed.

(** X6: the counters of a completed run account for the ledger and the
    table: the processed set has grown by exactly the number of files
    counted as new plus those counted as skipped ("Total tracked"), and
    the table has grown by at most the number counted as new. *)
Theorem run_counters_account_for_ledger
    (files : list xml_file) (db : option table) (ledger : option string)
    (res : run_result) :
  run files db ledger = Returns res →
  size (processed (final_state res))
  = (size (read_ledger ledger) + new_count (final_state res)
     + skipped_count (final_state res))%nat
  ∧ (length (rows (final_table res))
     ≤ length (match db with Some t0 => rows t0 | None => [] end)
       + new_count (final_state res))%nat.
Proof.
  intros Hrun.
  destruct (run_inv _ _ _ _ Hrun) as (t & Hschema & _ & Hst & Hrows & _).
  destruct (ensure_schema_rows db t Hschema) as [Ht _].
  destruct (loop_counts files (initial_state t ledger)) as [H1 H2].
  rewrite <- Hst in H1, H2. cbn in H1, H2. rewrite Hrows, <- Ht. lia.
Qed.

(** *** Rows are only appended *)

Lemma loop_rows_provenance fs st r :
  r ∈ db_rows (foldl step st fs) →
  r ∈ db_rows st ∨ source_file r ∈ file_name <$> fs.
Proof.
  revert st. induction fs as [|f fs IH]; intros st; [by left|].
  cbn [foldl]. intros [Hr|Hr]%IH; [|right; by apply list_elem_of_further].
  revert Hr. unfold process_file. case_decide; [by left|].
  destruct (content f) as [root|]; [|by left].
  destruct (parse root) as [|[[[id ts] fv]|]]; cbn; [by left| |by left].
  unfold insert_sqlite. case_decide; [by left|].
  intros [?| ->%list_elem_of_singleton]%elem_of_app; [by left|].
  right. apply list_elem_of_here.
Qed.

(** X9: a run never rewrites or deletes a stored observation.  The rows
    the database held before are the first rows of the table afterwards,
    unchanged and in the same order; every row after them carries the
    name of a file of the listing as its source and a key no earlier row
    has. *)
Theorem run_only_appends_rows
    (files : list xml_file) (t0 : table) (ledger : option string)
    (res : run_result) :
  run files (Some t0) ledger = Returns res →
  ∃ added,
    rows (final_table res) = rows t0 ++ added
    ∧ columns t0 ⊆ columns (final_table res)
    ∧ Forall (λ r, source_file r ∈ file_name <$> files
                   ∧ key r ∉ key <$> rows t0) added.
Proof.
  intros Hrun. pose proof (run_NoDup _ _ _ _ Hrun) as Hnd.
  destruct (run_inv _ _ _ _ Hrun) as (t & Hschema & _ & Hst & Hrows & _).
  destruct (ensure_schema_rows _ t Hschema) as [Ht Hcols].
  destruct (loop_rows_prefix files (initial_state t ledger)) as [added Hadd].
  rewrite <- Hst in Hadd. cbn in Hadd. rewrite Ht in Hadd.
  exists added. rewrite Hrows. split; [done|]. split.
  { unfold main in Hrun. rewrite Hschema in Hrun.
    injection Hrun as <-. cbn. rewrite Hcols. apply union_subseteq_l. }
  rewrite Hrows, Hadd, fmap_app in Hnd.
  apply NoDup_app in Hnd as (_ & Hdisj & _).
  apply Forall_forall. intros r Hr. split.
  - assert (Hin : r ∈ db_rows (final_state res))
      by (rewrite Hadd, elem_of_app; by right).
    rewrite Hst in Hin. apply loop_rows_provenance in Hin as [Hold|?]; [|done].
    exfalso. cbn in Hold. rewrite Ht in Hold.
    apply (Hdisj (key r)); by apply list_elem_of_fmap_2.
  - intros Hk. apply (Hdisj (key r)); [done|]. by apply list_elem_of_fmap_2.
Qed.

(** *** The ledger from run to run *)

(** X8: the ledger is append-only and free of duplicates.  After a
    completed run started from the ledger text [old_text], every
    non-empty line of [old_text] is on the new ledger, every non-empty
    line of the new ledger was on the old one or is the path of a file of
    the listing, and no non-empty line occurs twice (duplicate lines of
    the old file are merged).  File names are assumed free of line
    boundaries. *)
Theorem ledger_is_append_only
    (files : list xml_file) (db : option table) (old_text : string)
    (res : run_result) :
  run files db (Some old_text) = Returns res →
  Forall (λ g, break_free (file_name g) = true) files →
  (∀ x, x ≠ "" → x ∈ splitlines old_text →
        occurrences x (splitlines (ledger_text res)) = 1%nat)
  ∧ (∀ x, x ≠ "" → x ∈ splitlines (ledger_text res) →
          x ∈ splitlines old_text ∨ x ∈ (path_str ∘ file_name) <$> files)
  ∧ (∀ x, x ≠ "" →
          (occurrences x (splitlines (ledger_text res)) ≤ 1)%nat).
Proof.
  intros Hrun Hbf.
  destruct (run_inv _ _ _ _ Hrun) as (t & _ & _ & Hst & _ & Htext).
  assert (Hbfp : ∀ y, y ∈ processed (final_state res) → break_free y = true).
  { rewrite Hst. by apply run_processed_break_free. }
  rewrite Htext. split_and!.
  - intros x Hx Hold. rewrite ledger_text_occurrences by done.
    rewrite decide_True; [done|]. rewrite Hst.
    apply loop_processed_mono. cbn. by apply elem_of_list_to_set.
  - intros x Hx Hnew.
    assert (Hin : x ∈ processed (final_state res)).
    { apply (read_ledger_flush _ _ Hbfp Hx). cbn.
      by apply elem_of_list_to_set. }
    rewrite Hst in Hin. apply loop_processed_inv in Hin as [Hin|Hin];
      [left|by right].
    cbn in Hin. by apply elem_of_list_to_set in Hin.
  - intros x Hx. rewrite ledger_text_occurrences by done. case_decide; lia.
Qed.

Lemma same_outcome_trans st1 st2 st3 :
  IngestMore.same_outcome st1 st2 → IngestMore.same_outcome st2 st3 →
  IngestMore.same_outcome st1 st3.
Proof.
  intros (? & ? & ? & ?) (? & ? & ? & ?). split_and!; congruence.
Qed.

(** After the loop every file of the listing is marked, unless the
    handler gives up on it. *)
Lemma loop_marks_or_fails fs st f :
  f ∈ fs →
  path_str (file_name f) ∈ processed (foldl step st fs) ∨ failing f.
Proof.
  revert st. induction fs as [|g fs IH]; intros st; [by intros ?%elem_of_nil|].
  cbn [foldl]. intros [->|Hin]%elem_of_cons; [|by apply IH].
  unfold IngestMore.failing.
  destruct (decide (path_str (file_name g) ∈ processed st)) as [Hold|Hnew].
  { left. by apply loop_processed_mono, step_processed_mono. }
  destruct (content g) as [root|] eqn:Hc; [|by right].
  destruct (parse root) as [|[[[id ts] fv]|]] eqn:Hp; [by right|..]; left;
    apply loop_processed_mono.
  - destruct (step_parsed st g root id ts fv Hc Hp Hnew) as [_ ->].
    apply elem_of_union. right. by apply elem_of_singleton.
  - destruct (step_rejected st g root Hc Hp Hnew) as [_ ->].
    apply elem_of_union. right. by apply elem_of_singleton.
Qed.

(** A loop over files that are all marked or failing changes nothing. *)
Lemma loop_nothing_to_do fs st :
  (∀ f, f ∈ fs → path_str (file_name f) ∈ processed st ∨ failing f) →
  IngestMore.same_outcome (foldl step st fs) st.
Proof.
  revert st. induction fs as [|f fs IH]; intros st Hall; [done|].
  cbn [foldl].
  assert (Hstep : IngestMore.same_outcome (step st f) st).
  { destruct (Hall f) as [Hin|Hfail]; [by left| |by apply step_failing].
    by rewrite step_skip. }
  eapply same_outcome_trans; [|exact Hstep]. apply IH.
  intros g Hg. destruct Hstep as (_ & -> & _). apply Hall. by right.
Qed.

(** X7: running again over an unchanged directory is a no-op.  A second
    run over the same listing, started from the table and the ledger
    text the first run left, completes with both counters at zero, the
    same rows, and the same non-empty lines on the ledger.  File names
    are assumed free of line boundaries. *)
Theorem rerun_changes_nothing
    (files : list xml_file) (db : option table) (ledger : option string)
    (res1 : run_result) :
  run files db ledger = Returns res1 →
  Forall (λ g, break_free (file_name g) = true) files →
  ∃ res2,
    run files (Some (final_table res1)) (Some (ledger_text res1))
    = Returns res2
    ∧ rows (final_table res2) = rows (final_table res1)
    ∧ new_count (final_state res2) = 0%nat
    ∧ skipped_count (final_state res2) = 0%nat
    ∧ ∀ x, x ≠ "" →
           (x ∈ splitlines (ledger_text res2)
            ↔ x ∈ splitlines (ledger_text res1)).
Proof.
  intros Hrun Hbf.
  pose proof (run_NoDup _ _ _ _ Hrun) as Hnd1.
  destruct (run_inv _ _ _ _ Hrun) as (t & _ & _ & Hst1 & Hrows1 & Htext1).
  assert (Hbfp1 : ∀ y, y ∈ processed (final_state res1) → break_free y = true).
  { rewrite Hst1. by apply run_processed_break_free. }
  destruct (run_returns files (final_table res1) (Some (ledger_text res1)) Hnd1)
    as (res2 & Hrun2 & Hst2).
  destruct (run_inv _ _ _ _ Hrun2) as (t2 & _ & _ & _ & Hrows2 & Htext2).
  exists res2. split; [done|].
  set (st0 := initial_state _ (Some (ledger_text res1))) in Hst2.
  assert (Hsame : IngestMore.same_outcome (final_state res2) st0).
  { rewrite Hst2. apply loop_nothing_to_do. intros f Hf.
    destruct (loop_marks_or_fails files (initial_state t ledger) f Hf)
      as [Hin|?]; [left|by right].
    rewrite <- Hst1 in Hin. subst st0. cbn [processed initial_state].
    rewrite Htext1. by apply read_ledger_flush; [|apply path_str_nonempty|]. }
  destruct Hsame as (Hr & Hp & Hn & Hs).
  split_and!; [by rewrite Hrows2, Hr|done|done|].
  intros x Hx.
  assert (Hbfp2 : ∀ y, y ∈ processed (final_state res2) → break_free y = true).
  { rewrite Hp. subst st0. apply read_ledger_break_free. }
  pose proof (read_ledger_flush _ x Hbfp2 Hx) as Hflush.
  rewrite <- Htext2 in Hflush. cbn [read_ledger] in Hflush.
  rewrite elem_of_list_to_set in Hflush. rewrite Hflush, Hp.
  subst st0. cbn [processed initial_state read_ledger].
  by rewrite elem_of_list_to_set.
Qed.

End ingest_facts.

(** ** Snapshot export *)

Section snapshot_facts.
Import Py Store Snapshot.

Variable py_round : Q → Z → Q.

(** *** [ORDER BY observation_time DESC LIMIT 1] *)

Lemma order_desc_limit1_None (rs : list row) :
  order_desc_limit1 rs = None ↔ rs = [].
Proof.
  destruct rs as [|r rs]; [done|]. cbn.
  destruct (order_desc_limit1 rs); [by case_decide | done].
Qed.

Lemma order_desc_limit1_Some (rs : list row) (r : row) :
  order_desc_limit1 rs = Some r →
  r ∈ rs ∧ ∀ x, x ∈ rs → observation_time x ≤ observation_time r.
Proof.
  revert r. induction rs as [|y rs IH]; intros r; [done|]. cbn.
  destruct (order_desc_limit1 rs) as [r'|] eqn:Hrest.
  - destruct (IH r' eq_refl) as [Hin Hmax].
    case_decide as Hle; intros [= <-].
    + split; [by left|]. intros x [->|Hx]%elem_of_cons; [lia|].
      specialize (Hmax x Hx). lia.
    + split; [by right|]. intros x [->|Hx]%elem_of_cons; [lia|].
      by apply Hmax.
  - apply order_desc_limit1_None in Hrest as ->. intros [= <-].
    split; [by left|]. intros x [->|Hx]%elem_of_cons; [lia|].
    by apply elem_of_nil in Hx.
Qed.

(** *** The copying loops *)

Lemma add_fields_lookup conv r fields j f :
  add_fields conv r fields j !! f
  = match (if decide (f ∈ fields) then cols r !! f else None) with
    | Some v => Some (JNum (conv f v))
    | None => j !! f
    end.
Proof.
  unfold add_fields. revert j.
  induction fields as [|g fields IH]; intros j; [done|].
  cbn [foldl]. rewrite IH.
  assert (Hstep : cols r !! f = None ∨ f ≠ g →
            match cols r !! g with
            | Some value => <[g := JNum (conv g value)]> j
            | None => j
            end !! f = j !! f).
  { intros Hcase. destruct (cols r !! g) as [v|] eqn:Hg; [|done].
    rewrite lookup_insert_ne; [done|]. intros ->. destruct Hcase; congruence. }
  destruct (decide (f ∈ fields)) as [Hin|Hnin].
  - rewrite decide_True by by right.
    destruct (cols r !! f) eqn:Hf; [done|]. apply Hstep. by left.
  - destruct (decide (f = g)) as [->|Hne].
    + rewrite decide_True by by left.
      destruct (cols r !! g); [by rewrite lookup_insert_eq | done].
    + rewrite decide_False by (by intros [?|?]%elem_of_cons).
      apply Hstep. by right.
Qed.

Lemma add_cardinal_lookup_ne src dst j f :
  f ≠ dst → add_cardinal src dst j !! f = j !! f.
Proof.
  intros Hne. unfold add_cardinal.
  destruct (j !! src) as [[s|d|e]|]; try done.
  destruct (degrees_to_cardinal (Some d)) as [c|]; [|done].
  destruct (String.eqb c ""); [done|]. by rewrite lookup_insert_ne.
Qed.

Lemma add_cardinal_lookup_absent src dst j :
  j !! src = None → add_cardinal src dst j = j.
Proof. intros Hsrc. unfold add_cardinal. by rewrite Hsrc. Qed.

(** *** Static facts about the key names *)

Lemma wave_field_not_realtime f :
  f ∈ WAVE_FIELDS → f ∉ REALTIME_FIELDS.
Proof.
  revert f. apply Forall_forall. by_compute.
Qed.

Lemma wave_output_key_not_realtime f :
  f ∈ WAVE_OUTPUT_KEYS → f ∉ REALTIME_FIELDS.
Proof.
  revert f. apply Forall_forall. by_compute.
Qed.

Lemma wave_output_key_not_base f :
  f ∈ WAVE_OUTPUT_KEYS →
  f ∉ ["name"; "observation_time"; "wind_direction_cardinal"].
Proof.
  revert f. apply Forall_forall. by_compute.
Qed.

Lemma wave_field_not_reserved f :
  f ∈ WAVE_FIELDS →
  f ∉ ["name"; "observation_time"; "wave_observation_time";
       "wind_direction_cardinal"; "wave_direction_peak_cardinal"].
Proof.
  revert f. apply Forall_forall. by_compute.
Qed.

(** *** What [export_buoy] writes for the wave keys *)

Lemma realtime_json_wave_key t name rr f :
  f ∈ WAVE_OUTPUT_KEYS → realtime_json py_round t name rr !! f = None.
Proof.
  intros Hf. unfold realtime_json. rewrite add_fields_lookup.
  pose proof (wave_output_key_not_base f Hf) as Hbase.
  rewrite decide_False.
  - rewrite lookup_insert_ne, lookup_singleton_ne; [done|..];
      intros <-; apply Hbase; by_compute.
  - rewrite list_elem_of_filter. intros [_ Hrt].
    by apply (wave_output_key_not_realtime f).
Qed.

(** A station object that is returned: the newest row and its time, which
    [datetime.fromtimestamp] accepted, the realtime object, the wave
    block and the two labels. *)
Lemma export_buoy_returns t buoy name j :
  export_buoy py_round t buoy name = Returns (Some j) →
  ∃ rr,
    order_desc_limit1 (filter (λ r, buoy_id r = buoy) (rows t)) = Some rr
    ∧ representable_time (observation_time rr)
    ∧ "wave_height_sig" ∈ columns t
    ∧ j = add_cardinal "wave_direction_peak" "wave_direction_peak_cardinal"
            (add_cardinal "wind_direction" "wind_direction_cardinal"
               match order_desc_limit1
                       (filter (wave_candidate buoy
                                  (observation_time rr - 3600)
                                  (observation_time rr)) (rows t)) with
               | Some wr =>
                   add_fields (λ _ v, v) wr
                     (filter (λ f, f ∈ columns t) WAVE_FIELDS)
                     (if decide (observation_time wr ≠ observation_time rr)
                      then <["wave_observation_time" :=
                               JIso (observation_time wr)]>
                             (realtime_json py_round t name rr)
                      else realtime_json py_round t name rr)
               | None => realtime_json py_round t name rr
               end).
Proof.
  unfold export_buoy.
  destruct (order_desc_limit1 (filter _ (rows t))) as [rr|]; [|done].
  case_decide as Hrep; [|done]. case_decide as Hcol; [|done].
  fold (realtime_json py_round t name rr). intros Hj.
  exists rr. split; [done|]. split; [done|]. split; [done|].
  destruct (order_desc_limit1 (filter (wave_candidate _ _ _) _)) as [wr|].
  - destruct (decide (observation_time wr ≠ observation_time rr)).
    + case_decide; [|done]. by injection Hj as <-.
    + by injection Hj as <-.
  - by injection Hj as <-.
Qed.

(** The shape of a successful export of one station. *)
Lemma export_buoy_inv t buoy name j :
  export_buoy py_round t buoy name = Returns (Some j) →
  ∃ rr,
    order_desc_limit1 (filter (λ r, buoy_id r = buoy) (rows t)) = Some rr
    ∧ "wave_height_sig" ∈ columns t
    ∧ j !! "observation_time" = Some (JIso (observation_time rr))
    ∧ match order_desc_limit1
              (filter (wave_candidate buoy (observation_time rr - 3600)
                         (observation_time rr)) (rows t)) with
      | Some wr =>
          ∀ f, f ∈ WAVE_FIELDS →
               j !! f = if decide (f ∈ columns t)
                        then JNum <$> cols wr !! f else None
      | None => ∀ f, f ∈ WAVE_OUTPUT_KEYS → j !! f = None
      end.
Proof.
  intros (rr & Hrr & _ & Hcol & ->)%export_buoy_returns.
  exists rr. split; [done|]. split; [done|]. split.
  { rewrite !add_cardinal_lookup_ne by done.
    assert (Hrt : realtime_json py_round t name rr !! "observation_time"
                  = Some (JIso (observation_time rr))).
    { unfold realtime_json. rewrite add_fields_lookup.
      rewrite decide_False; [by rewrite lookup_insert_eq|].
      rewrite list_elem_of_filter. intros [_ Hrt]. revert Hrt.
      by_compute. }
    destruct (order_desc_limit1 (filter (wave_candidate _ _ _) _)) as [wr|];
      [|done].
    rewrite add_fields_lookup.
    rewrite decide_False.
    - case_decide; [by rewrite lookup_insert_ne|done].
    - rewrite list_elem_of_filter. intros [_ Hw]. revert Hw.
      by_compute. }
  destruct (order_desc_limit1 (filter (wave_candidate _ _ _) _)) as [wr|].
  - intros f Hf.
    pose proof (wave_field_not_reserved f Hf) as Hres.
    rewrite !add_cardinal_lookup_ne by (intros ->; apply Hres; by_compute).
    rewrite add_fields_lookup.
    assert (Hbase : (if decide (observation_time wr ≠ observation_time rr)
                     then <["wave_observation_time" :=
                              JIso (observation_time wr)]>
                            (realtime_json py_round t name rr)
                     else realtime_json py_round t name rr) !! f = None).
    { case_decide.
      - rewrite lookup_insert_ne by (intros <-; apply Hres; by_compute).
        apply realtime_json_wave_key. unfold WAVE_OUTPUT_KEYS.
        apply elem_of_app. by left.
      - apply realtime_json_wave_key. unfold WAVE_OUTPUT_KEYS.
        apply elem_of_app. by left. }
    rewrite Hbase.
    destruct (decide (f ∈ columns t)) as [Hin|Hnin].
    + rewrite decide_True by (by apply list_elem_of_filter).
      by destruct (cols wr !! f).
    + rewrite decide_False; [done|].
      rewrite list_elem_of_filter. by intros [? _].
  - intros f Hf.
    rewrite (add_cardinal_lookup_absent "wave_direction_peak").
    + pose proof (wave_output_key_not_base f Hf) as Hbase.
      rewrite add_cardinal_lookup_ne by (intros ->; apply Hbase; by_compute).
      by apply realtime_json_wave_key.
    + rewrite add_cardinal_lookup_ne by done.
      apply realtime_json_wave_key. by_compute.
Qed.

(** *** Freshness of the wave block *)

Lemma wave_candidate_bearing buoy lo hi r :
  wave_candidate buoy lo hi r → wave_bearing buoy r.
Proof. by intros (? & _ & _ & ?). Qed.

(** The wave query finds a row exactly when the newest wave-bearing
    observation is at most an hour older than the newest observation, and
    then a row of that very time. *)
Lemma wave_query_newest t buoy rr :
  order_desc_limit1 (filter (λ r, buoy_id r = buoy) (rows t)) = Some rr →
  match newest_wave_time t buoy with
  | Some w =>
      w ≤ observation_time rr
      ∧ if decide (observation_time rr - w ≤ 3600) then
          ∃ wr, order_desc_limit1
                  (filter (wave_candidate buoy (observation_time rr - 3600)
                             (observation_time rr)) (rows t)) = Some wr
                ∧ wr ∈ rows t ∧ wave_bearing buoy wr
                ∧ observation_time wr = w
        else
          order_desc_limit1
            (filter (wave_candidate buoy (observation_time rr - 3600)
                       (observation_time rr)) (rows t)) = None
  | None =>
      order_desc_limit1
        (filter (wave_candidate buoy (observation_time rr - 3600)
                   (observation_time rr)) (rows t)) = None
  end.
Proof.
  intros [Hrr Hmax]%order_desc_limit1_Some. unfold newest_wave_time.
  set (C := filter (wave_candidate _ _ _) (rows t)).
  assert (HC : ∀ r, r ∈ C ↔ wave_candidate buoy (observation_time rr - 3600)
                              (observation_time rr) r ∧ r ∈ rows t)
    by (intros r; apply list_elem_of_filter).
  destruct (order_desc_limit1 (filter (wave_bearing buoy) (rows t)))
    as [rw|] eqn:Hnewest; cbn.
  - apply order_desc_limit1_Some in Hnewest as [Hrw Hnew].
    apply list_elem_of_filter in Hrw as [[Hid Hsig] Hrw].
    assert (Hle : observation_time rw ≤ observation_time rr).
    { apply Hmax, list_elem_of_filter. by split. }
    split; [done|]. case_decide as Hfresh.
    + destruct (order_desc_limit1 C) as [wr|] eqn:Hwr.
      * apply order_desc_limit1_Some in Hwr as [Hin Hbest].
        pose proof Hin as [Hcand Hrow]%HC.
        exists wr. split; [done|]. split; [done|].
        split; [by eapply wave_candidate_bearing|].
        assert (observation_time rw ≤ observation_time wr).
        { apply Hbest, HC. split; [|done]. repeat split; [done|lia|done..]. }
        assert (observation_time wr ≤ observation_time rw).
        { apply Hnew, list_elem_of_filter. split; [|done].
          by eapply wave_candidate_bearing. }
        lia.
      * apply order_desc_limit1_None in Hwr.
        assert (Hin : rw ∈ C).
        { apply HC. split; [|done]. repeat split; [done|lia|done..]. }
        rewrite Hwr in Hin. by apply elem_of_nil in Hin.
    + destruct (order_desc_limit1 C) as [wr|] eqn:Hwr; [|done].
      apply order_desc_limit1_Some in Hwr as [[Hcand Hrow]%HC _].
      assert (observation_time wr ≤ observation_time rw).
      { apply Hnew, list_elem_of_filter. split; [|done].
        by eapply wave_candidate_bearing. }
      destruct Hcand as (_ & ? & _). lia.
  - apply order_desc_limit1_None in Hnewest.
    destruct (order_desc_limit1 C) as [wr|] eqn:Hwr; [|done].
    apply order_desc_limit1_Some in Hwr as [[Hcand Hrow]%HC _].
    assert (Hin : wr ∈ filter (wave_bearing buoy) (rows t)).
    { apply list_elem_of_filter. split; [|done].
      by eapply wave_candidate_bearing. }
    rewrite Hnewest in Hin. by apply elem_of_nil in Hin.
Qed.

(** C4: in the station object of a successful export, with [obs_time] the
    station's most recent observation time and [w] the time of its most
    recent wave-bearing observation (a row with a significant wave
    height): if [obs_time - w] is at most 3600 seconds, the wave fields
    are those of a wave-bearing row of time [w] (each non-null column of
    the table among the wave fields, the significant wave height in
    particular); if it is more, or the station has no wave-bearing row,
    no wave key is in the object at all.  So a wave sample 61 minutes
    (3660 s) older is omitted, one 59 minutes (3540 s) older included. *)
Theorem snapshot_wave_freshness
    (t : table) (buoy name : string) (j : gmap string jval) :
  export_buoy py_round t buoy name = Returns (Some j) →
  ∃ obs_time,
    latest_time t buoy = Some obs_time
    ∧ j !! "observation_time" = Some (JIso obs_time)
    ∧ match newest_wave_time t buoy with
      | Some w =>
          w ≤ obs_time
          ∧ if decide (obs_time - w ≤ 3600) then
              ∃ wr, wr ∈ rows t ∧ wave_bearing buoy wr
                    ∧ observation_time wr = w
                    ∧ (∀ f, f ∈ WAVE_FIELDS → f ∈ columns t →
                            j !! f = JNum <$> cols wr !! f)
                    ∧ is_Some (j !! "wave_height_sig")
            else ∀ f, f ∈ WAVE_OUTPUT_KEYS → j !! f = None
      | None => ∀ f, f ∈ WAVE_OUTPUT_KEYS → j !! f = None
      end.
Proof.
  intros (rr & Hrr & Hcol & Htime & Hwave)%export_buoy_inv.
  exists (observation_time rr).
  split; [unfold latest_time; by rewrite Hrr|]. split; [done|].
  pose proof (wave_query_newest t buoy rr Hrr) as Hq.
  destruct (newest_wave_time t buoy) as [w|].
  - destruct Hq as [Hle Hq]. split; [done|]. case_decide.
    + destruct Hq as (wr & Hwr & Hin & Hbear & Hw). rewrite Hwr in Hwave.
      exists wr. split_and!; try done.
      * intros f Hf Hc. rewrite (Hwave f Hf). by rewrite decide_True.
      * rewrite (Hwave "wave_height_sig") by by_compute.
        rewrite decide_True by done.
        destruct Hbear as [_ [v ->]]. by eexists.
    + by rewrite Hq in Hwave.
  - by rewrite Hq in Hwave.
Qed.

(** C10: in the station object of a successful export, with [obs_time]
    the station's most recent observation time: a wave key is present
    only if some stored row of the station inside the window
    [obs_time - 3600 .. obs_time] has a non-null [wave_height_sig]; if all
    rows of the station inside the window have a null [wave_height_sig],
    whatever other wave columns they carry, no wave key is present; and
    when wave fields are present they all stem from one such row [wr],
    a wave column of which that is null (or not in the table) is left out
    of the object. *)
Theorem snapshot_wave_fields_need_wave_height
    (t : table) (buoy name : string) (j : gmap string jval) :
  export_buoy py_round t buoy name = Returns (Some j) →
  ∃ obs_time,
    latest_time t buoy = Some obs_time
    ∧ ((∃ f, f ∈ WAVE_OUTPUT_KEYS ∧ is_Some (j !! f)) →
       ∃ r, r ∈ rows t ∧ wave_candidate buoy (obs_time - 3600) obs_time r)
    ∧ ((∀ r, r ∈ rows t → buoy_id r = buoy →
             obs_time - 3600 ≤ observation_time r ≤ obs_time →
             cols r !! "wave_height_sig" = None) →
       ∀ f, f ∈ WAVE_OUTPUT_KEYS → j !! f = None)
    ∧ ((∃ f, f ∈ WAVE_FIELDS ∧ is_Some (j !! f)) →
       ∃ wr, wr ∈ rows t
             ∧ wave_candidate buoy (obs_time - 3600) obs_time wr
             ∧ (∀ f, f ∈ WAVE_FIELDS →
                     j !! f = if decide (f ∈ columns t)
                              then JNum <$> cols wr !! f else None)
             ∧ (∀ f, f ∈ WAVE_FIELDS → cols wr !! f = None →
                     j !! f = None)).
Proof.
  intros (rr & Hrr & Hcol & Htime & Hwave)%export_buoy_inv.
  exists (observation_time rr).
  split; [unfold latest_time; by rewrite Hrr|].
  destruct (order_desc_limit1 (filter (wave_candidate _ _ _) (rows t)))
    as [wr|] eqn:Hwr.
  - apply order_desc_limit1_Some in Hwr as [[Hcand Hin]%list_elem_of_filter _].
    split_and!.
    + intros _. by exists wr.
    + intros Hnull. destruct Hcand as (Hid & Hlo & Hhi & [v Hv]).
      rewrite Hnull in Hv; done.
    + intros _. exists wr. split_and!; try done.
      intros f Hf Hnone. rewrite (Hwave f Hf), Hnone. by case_decide.
  - split_and!.
    + intros (f & Hf & [v Hv]). by rewrite (Hwave f Hf) in Hv.
    + intros _. exact Hwave.
    + intros (f & Hf & [v Hv]). rewrite Hwave in Hv; [done|].
      unfold WAVE_OUTPUT_KEYS. apply elem_of_app. by left.
Qed.

(** *** The rest of the station object *)

Lemma realtime_field_not_reserved f :
  f ∈ REALTIME_FIELDS →
  (f ∉ ["name"; "observation_time"; "wave_observation_time";
        "wind_direction_cardinal"; "wave_direction_peak_cardinal"])
  ∧ f ∉ WAVE_FIELDS.
Proof.
  revert f. apply Forall_forall. by_compute.
Qed.

Lemma realtime_json_lookup t name rr f :
  f ∈ REALTIME_FIELDS →
  realtime_json py_round t name rr !! f
  = if decide (f ∈ columns t)
    then (λ v, JNum (realtime_conv py_round f v)) <$> cols rr !! f
    else None.
Proof.
  intros Hf. destruct (realtime_field_not_reserved f Hf) as [Hres _].
  unfold realtime_json. rewrite add_fields_lookup.
  assert (Hbase : (<["observation_time" := JIso (observation_time rr)]>
                     ({[ "name" := JStr name ]} : gmap string jval)) !! f
                  = None).
  { rewrite lookup_insert_ne, lookup_singleton_ne; [done|..];
      intros <-; apply Hres; by_compute. }
  rewrite Hbase.
  destruct (decide (f ∈ columns t)) as [Hin|Hnin].
  - rewrite decide_True by (by apply list_elem_of_filter).
    by destruct (cols rr !! f).
  - rewrite decide_False; [done|].
    rewrite list_elem_of_filter. by intros [? _].
Qed.

Lemma realtime_json_name t name rr :
  realtime_json py_round t name rr !! "name" = Some (JStr name).
Proof.
  unfold realtime_json. rewrite add_fields_lookup.
  rewrite decide_False.
  - by rewrite lookup_insert_ne, lookup_singleton_eq.
  - rewrite list_elem_of_filter. intros [_ Hrt]. revert Hrt. by_compute.
Qed.

Lemma realtime_json_other t name rr f :
  f ∉ REALTIME_FIELDS → f ≠ "name" → f ≠ "observation_time" →
  realtime_json py_round t name rr !! f = None.
Proof.
  intros Hf Hn Ho. unfold realtime_json. rewrite add_fields_lookup.
  rewrite decide_False.
  - by rewrite lookup_insert_ne, lookup_singleton_ne.
  - rewrite list_elem_of_filter. by intros [_ ?].
Qed.

(** Every label of the rose is a non-empty string, and every finite
    bearing has one. *)
Lemma degrees_to_cardinal_nonempty d :
  ∃ c, degrees_to_cardinal (Some d) = Some c ∧ String.eqb c "" = false.
Proof.
  unfold degrees_to_cardinal. cbv zeta.
  set (i := Z.to_nat _).
  assert (Hi : (i < length DIRS_16)%nat).
  { change (length DIRS_16) with 16%nat. subst i.
    pose proof (Z.mod_pos_bound
                  (Qfloor ((mod360 d + 11.25) / 22.5)%Q) 16).
    lia. }
  apply lookup_lt_is_Some in Hi as [c Hc]. exists c. split; [done|].
  apply list_elem_of_lookup_2 in Hc. revert c Hc.
  apply Forall_forall. by_compute.
Qed.

Lemma add_cardinal_lookup_dst src dst j :
  j !! dst = None →
  add_cardinal src dst j !! dst
  = match j !! src with
    | Some (JNum d) => JStr <$> degrees_to_cardinal (Some d)
    | _ => None
    end.
Proof.
  intros Hdst. unfold add_cardinal.
  destruct (j !! src) as [[s|d|e]|]; try done.
  destruct (degrees_to_cardinal_nonempty d) as (c & -> & ->).
  by rewrite lookup_insert_eq.
Qed.

(** The station object is the realtime object, then the wave block
    [W], then the two cardinal labels. *)
Lemma export_buoy_shape t buoy name j :
  export_buoy py_round t buoy name = Returns (Some j) →
  ∃ rr W,
    order_desc_limit1 (filter (λ r, buoy_id r = buoy) (rows t)) = Some rr
    ∧ j = add_cardinal "wave_direction_peak" "wave_direction_peak_cardinal"
            (add_cardinal "wind_direction" "wind_direction_cardinal" W)
    ∧ (∀ f, f ∉ WAVE_FIELDS → f ≠ "wave_observation_time" →
            W !! f = realtime_json py_round t name rr !! f)
    ∧ (∀ f, f ∈ WAVE_FIELDS → W !! f = None ∨ ∃ q, W !! f = Some (JNum q))
    ∧ W !! "wave_observation_time"
      = match order_desc_limit1
                (filter (wave_candidate buoy (observation_time rr - 3600)
                           (observation_time rr)) (rows t)) with
        | Some wr =>
            if decide (observation_time wr ≠ observation_time rr)
            then Some (JIso (observation_time wr)) else None
        | None => None
        end.
Proof.
  intros (rr & Hrr & _ & Hcol & ->)%export_buoy_returns.
  eexists rr, _. split; [done|]. split; [reflexivity|].
  assert (Hwot : realtime_json py_round t name rr !! "wave_observation_time"
                 = None) by (apply realtime_json_wave_key; by_compute).
  destruct (order_desc_limit1 (filter (wave_candidate _ _ _) _)) as [wr|].
  - split_and!.
    + intros f Hf Hne. rewrite add_fields_lookup.
      rewrite decide_False by (rewrite list_elem_of_filter; by intros [_ ?]).
      case_decide; [by rewrite lookup_insert_ne|done].
    + intros f Hf. rewrite add_fields_lookup.
      destruct (if decide (f ∈ _) then cols wr !! f else None) as [v|];
        [right; by eexists|left].
      pose proof (wave_field_not_reserved f Hf) as Hres.
      assert (Hrj : realtime_json py_round t name rr !! f = None).
      { apply realtime_json_wave_key. unfold WAVE_OUTPUT_KEYS.
        apply elem_of_app. by left. }
      case_decide; [|done].
      rewrite lookup_insert_ne by (intros <-; apply Hres; by_compute).
      done.
    + rewrite add_fields_lookup.
      rewrite decide_False
        by (rewrite list_elem_of_filter; intros [_ Hw]; revert Hw;
            by_compute).
      case_decide; [by rewrite lookup_insert_eq|done].
  - split_and!; [done| |done].
    intros f Hf. left. apply realtime_json_wave_key.
    unfold WAVE_OUTPUT_KEYS. apply elem_of_app. by left.
Qed.

(** X12: the realtime part of a station object.  The object carries the
    station's display name, and for each realtime field the value of the
    station's most recent row: absent when the column is not in the table
    or the value is null, converted to knots for [wind_speed] and
    [wind_gust], and unchanged for the other fields.  Older rows never
    contribute a realtime field. *)
Theorem snapshot_realtime_fields_from_latest_row
    (t : table) (buoy name : string) (j : gmap string jval) :
  export_buoy py_round t buoy name = Returns (Some j) →
  ∃ rr,
    rr ∈ rows t ∧ buoy_id rr = buoy
    ∧ (∀ x, x ∈ rows t → buoy_id x = buoy →
            observation_time x ≤ observation_time rr)
    ∧ j !! "name" = Some (JStr name)
    ∧ (∀ f, f ∈ REALTIME_FIELDS →
            j !! f
            = if decide (f ∈ columns t)
              then (λ v, JNum (if bool_decide
                                    (f ∈ ["wind_speed"; "wind_gust"])
                               then kmh_to_knots py_round v else v))
                     <$> cols rr !! f
              else None).
Proof.
  intros (rr & W & Hrr & -> & Hother & _ & _)%export_buoy_shape.
  exists rr.
  pose proof Hrr as [[Hid Hin]%list_elem_of_filter Hmax]%order_desc_limit1_Some.
  split_and!; [done|done| | |].
  - intros x Hx Hbx. apply Hmax, list_elem_of_filter. by split.
  - rewrite !add_cardinal_lookup_ne by done.
    rewrite Hother by (by_compute || done). apply realtime_json_name.
  - intros f Hf. destruct (realtime_field_not_reserved f Hf) as [Hres Hw].
    rewrite !add_cardinal_lookup_ne by (intros ->; apply Hres; by_compute).
    rewrite Hother by (done || (intros ->; apply Hres; by_compute)).
    by rewrite realtime_json_lookup.
Qed.

(** X13: [wave_observation_time] marks a wave sample that is older than
    the station's newest observation.  With [obs_time] the newest
    observation time and [w] the time of the newest wave-bearing row, the
    key is present, holding [w], exactly when [w] differs from [obs_time]
    and is at most an hour older; otherwise it is absent. *)
Theorem wave_observation_time_marks_older_sample
    (t : table) (buoy name : string) (j : gmap string jval) :
  export_buoy py_round t buoy name = Returns (Some j) →
  ∃ obs_time,
    latest_time t buoy = Some obs_time
    ∧ j !! "wave_observation_time"
      = match newest_wave_time t buoy with
        | Some w =>
            if decide (obs_time - w ≤ 3600 ∧ w ≠ obs_time)
            then Some (JIso w) else None
        | None => None
        end.
Proof.
  intros (rr & W & Hrr & -> & _ & _ & Hwot)%export_buoy_shape.
  exists (observation_time rr).
  split; [unfold latest_time; by rewrite Hrr|].
  rewrite !add_cardinal_lookup_ne by done. rewrite Hwot.
  pose proof (wave_query_newest t buoy rr Hrr) as Hq.
  destruct (newest_wave_time t buoy) as [w|].
  - destruct Hq as [Hle Hq]. case_decide as Hfresh.
    + destruct Hq as (wr & -> & _ & _ & <-).
      destruct (decide (observation_time wr ≠ observation_time rr)).
      * by rewrite decide_True.
      * by rewrite decide_False by (by intros [_ ?]).
    + rewrite Hq. by rewrite decide_False by (by intros [? _]).
  - by rewrite Hq.
Qed.

(** X14: the cardinal labels follow the directions in the object.
    [wind_direction_cardinal] is present exactly when [wind_direction]
    is, and is then the label [degrees_to_cardinal] gives that very
    (exported) value; likewise [wave_direction_peak_cardinal] and
    [wave_direction_peak]. *)
Theorem snapshot_cardinal_follows_direction
    (t : table) (buoy name : string) (j : gmap string jval) :
  export_buoy py_round t buoy name = Returns (Some j) →
  ∀ src dst,
    (src, dst) ∈ [("wind_direction", "wind_direction_cardinal");
                  ("wave_direction_peak", "wave_direction_peak_cardinal")] →
    (is_Some (j !! dst) ↔ is_Some (j !! src))
    ∧ (j !! src = None ∨ ∃ d, j !! src = Some (JNum d))
    ∧ (∀ d, j !! src = Some (JNum d) →
            j !! dst = JStr <$> degrees_to_cardinal (Some d)).
Proof.
  intros (rr & W & Hrr & -> & Hother & Hwave & Hwot)%export_buoy_shape.
  assert (Hwind : W !! "wind_direction" = None
                  ∨ ∃ q, W !! "wind_direction" = Some (JNum q)).
  { rewrite Hother by (by_compute || done).
    rewrite realtime_json_lookup by by_compute.
    case_decide; [|by left].
    destruct (cols rr !! "wind_direction"); [right; by eexists | by left]. }
  assert (Hpeak : W !! "wave_direction_peak" = None
                  ∨ ∃ q, W !! "wave_direction_peak" = Some (JNum q))
    by (apply Hwave; by_compute).
  assert (Hwdc : W !! "wind_direction_cardinal" = None).
  { rewrite Hother by (by_compute || done).
    apply realtime_json_other; (by_compute || done). }
  assert (Hpdc : W !! "wave_direction_peak_cardinal" = None).
  { rewrite Hother by (by_compute || done).
    apply realtime_json_other; (by_compute || done). }
  assert (Hgen : ∀ (o : option jval),
            (o = None ∨ ∃ q, o = Some (JNum q)) →
            (is_Some (match o with
                      | Some (JNum d) => JStr <$> degrees_to_cardinal (Some d)
                      | _ => None
                      end) ↔ is_Some o)
            ∧ (o = None ∨ ∃ d, o = Some (JNum d))
            ∧ (∀ d, o = Some (JNum d) →
                    match o with
                    | Some (JNum d) => JStr <$> degrees_to_cardinal (Some d)
                    | _ => None
                    end = JStr <$> degrees_to_cardinal (Some d))).
  { intros o [->|[q ->]].
    - split_and!; [done|by left|done].
    - split_and!; [|right; by eexists|by intros d [= <-]].
      destruct (degrees_to_cardinal_nonempty q) as (c & -> & _).
      split; by eexists. }
  intros src dst [[= -> ->]|[[= -> ->]|[]%elem_of_nil]%elem_of_cons]%elem_of_cons.
  - rewrite !(add_cardinal_lookup_ne "wave_direction_peak") by done.
    rewrite add_cardinal_lookup_dst by done.
    rewrite add_cardinal_lookup_ne by done. by apply Hgen.
  - rewrite add_cardinal_lookup_dst
      by (by rewrite add_cardinal_lookup_ne by done).
    rewrite !add_cardinal_lookup_ne by done. by apply Hgen.
Qed.

(** *** The loop over the stations *)

Lemma snapshot_BUOYS_NoDup : NoDup BUOYS.*1.
Proof. by_compute. Qed.

Lemma export_buoys_lookup t bs acc j :
  export_buoys py_round t bs acc = Returns j → NoDup bs.*1 →
  (∀ buoy, buoy ∉ bs.*1 → j !! buoy = acc !! buoy)
  ∧ (∀ buoy name loc, (buoy, (name, loc)) ∈ bs →
       ∃ o, export_buoy py_round t buoy name = Returns o
            ∧ j !! buoy = match o with Some bj => Some bj
                                     | None => acc !! buoy end).
Proof.
  revert acc. induction bs as [|[b [n l]] bs IH]; intros acc.
  { intros [= <-] _. split; [done|]. by intros ??? ?%elem_of_nil. }
  cbn [export_buoys]. rewrite fmap_cons, NoDup_cons. cbn [fst].
  destruct (export_buoy py_round t b n) as [|o] eqn:Hb; [done|].
  intros Hrest [Hb_fresh Hnd].
  assert (Hrest' : ∃ acc', export_buoys py_round t bs acc' = Returns j
                           ∧ acc' !! b = match o with Some bj => Some bj
                                                    | None => acc !! b end
                           ∧ ∀ x, x ≠ b → acc' !! x = acc !! x).
  { destruct o as [bj|].
    - exists (<[b := bj]> acc). split; [done|].
      split; [by rewrite lookup_insert_eq|].
      intros x Hx. by rewrite lookup_insert_ne.
    - by exists acc. }
  destruct Hrest' as (acc' & Hrun & Hacc_b & Hacc_other).
  destruct (IH acc' Hrun Hnd) as [IHout IHin]. split.
  - intros buoy Hbuoy. rewrite IHout, Hacc_other; [done|..];
      intros ?; apply Hbuoy; subst; [by left | by right].
  - intros buoy name loc [[= -> -> ->]|Hin]%elem_of_cons.
    + exists o. split; [done|]. by rewrite IHout.
    + destruct (IHin buoy name loc Hin) as (o' & Ho' & Hj).
      exists o'. split; [done|]. rewrite Hj. destruct o'; [done|].
      apply Hacc_other. intros ->. apply Hb_fresh.
      apply list_elem_of_fmap. by exists (b, (name, loc)).
Qed.

Lemma export_buoys_raises t bs acc :
  export_buoys py_round t bs acc = Raises ↔
  ∃ buoy name loc, (buoy, (name, loc)) ∈ bs
                   ∧ export_buoy py_round t buoy name = Raises.
Proof.
  revert acc. induction bs as [|[b [n l]] bs IH]; intros acc.
  { split; [done|]. by intros (? & ? & ? & ?%elem_of_nil & _). }
  cbn [export_buoys].
  destruct (export_buoy py_round t b n) as [|o] eqn:Hb.
  - split; [|done]. intros _. exists b, n, l. split; [by left|done].
  - assert (Hiff : (∃ buoy name loc, (buoy, (name, loc)) ∈ (b, (n, l)) :: bs
                      ∧ export_buoy py_round t buoy name = Raises)
                   ↔ (∃ buoy name loc, (buoy, (name, loc)) ∈ bs
                      ∧ export_buoy py_round t buoy name = Raises)).
    { split.
      - intros (buoy & name & loc & [[= -> -> ->]|Hin]%elem_of_cons & Hr);
          [congruence|]. by exists buoy, name, loc.
      - intros (buoy & name & loc & Hin & Hr).
        exists buoy, name, loc. split; [by right|done]. }
    rewrite Hiff. destruct o; apply IH.
Qed.

Lemma export_buoy_outcome t buoy name :
  match export_buoy py_round t buoy name with
  | Raises =>
      (∃ r, r ∈ rows t ∧ buoy_id r = buoy)
      ∧ (("wave_height_sig" ∉ columns t)
         ∨ ∃ r, r ∈ rows t ∧ buoy_id r = buoy
                ∧ ¬ representable_time (observation_time r))
  | Returns None => ∀ r, r ∈ rows t → buoy_id r ≠ buoy
  | Returns (Some _) =>
      "wave_height_sig" ∈ columns t ∧ ∃ r, r ∈ rows t ∧ buoy_id r = buoy
  end.
Proof.
  unfold export_buoy.
  destruct (order_desc_limit1 (filter _ (rows t))) as [rr|] eqn:Hrr.
  - apply order_desc_limit1_Some in Hrr as [[Hid Hin]%list_elem_of_filter _].
    assert (Hrow : ∃ r, r ∈ rows t ∧ buoy_id r = buoy) by by exists rr.
    case_decide as Hrep; [|split; [done|right; by exists rr]].
    case_decide as Hcol; [|split; [done|by left]].
    destruct (order_desc_limit1 (filter (wave_candidate _ _ _) _))
      as [wr|] eqn:Hwr; [|done].
    apply order_desc_limit1_Some in Hwr
      as [[(Hwid & _) Hwin]%list_elem_of_filter _].
    case_decide; [|done]. case_decide as Hwrep; [done|].
    split; [done|]. right. by exists wr.
  - apply order_desc_limit1_None in Hrr. intros r Hr Hb.
    assert (Hin : r ∈ filter (λ r, buoy_id r = buoy) (rows t))
      by (by apply list_elem_of_filter).
    rewrite Hrr in Hin. by apply elem_of_nil in Hin.
Qed.

(** Without the column [wave_height_sig] the export of a station that
    has a row raises, at the wave query if not before. *)
Lemma export_buoy_raises_without_wave_column t buoy name :
  "wave_height_sig" ∉ columns t →
  (∃ r, r ∈ rows t ∧ buoy_id r = buoy) →
  export_buoy py_round t buoy name = Raises.
Proof.
  intros Hcol (r & Hr & Hb). unfold export_buoy.
  destruct (order_desc_limit1 (filter _ (rows t))) as [rr|] eqn:Hrr.
  - case_decide; [|done]. by rewrite decide_False.
  - apply order_desc_limit1_None in Hrr.
    assert (Hin : r ∈ filter (λ r, buoy_id r = buoy) (rows t))
      by (by apply list_elem_of_filter).
    rewrite Hrr in Hin. by apply elem_of_nil in Hin.
Qed.

(** X15: which stations a written snapshot holds.  When the export
    writes a document, a key is in it exactly when it is one of the
    configured stations and the table has a row of that station; the
    entry is then that station's object, carrying the configured display
    name.  A configured station without data is left out rather than
    written empty. *)
Theorem snapshot_holds_the_stations_with_data
    (t : table) (j : gmap string (gmap string jval)) :
  query_and_export py_round t = Returns (Some j) →
  {["buoy_id"; "observation_time"]} ⊆ columns t
  ∧ ∀ buoy,
      (is_Some (j !! buoy) ↔
       buoy ∈ BUOYS.*1 ∧ ∃ r, r ∈ rows t ∧ buoy_id r = buoy)
      ∧ (∀ bj, j !! buoy = Some bj →
           ∃ name loc, (buoy, (name, loc)) ∈ BUOYS
                       ∧ export_buoy py_round t buoy name = Returns (Some bj)
                       ∧ bj !! "name" = Some (JStr name)).
Proof.
  unfold query_and_export. case_decide as Hkeys; [|done].
  destruct (export_buoys py_round t BUOYS ∅) as [|j'] eqn:Hrun; [done|].
  intros [= ->]. split; [done|].
  destruct (export_buoys_lookup t BUOYS ∅ j Hrun snapshot_BUOYS_NoDup)
    as [Hout Hin].
  intros buoy.
  assert (Hentry : ∀ bj, j !! buoy = Some bj →
            ∃ name loc, (buoy, (name, loc)) ∈ BUOYS
                        ∧ export_buoy py_round t buoy name
                          = Returns (Some bj)).
  { intros bj Hbj.
    destruct (decide (buoy ∈ BUOYS.*1)) as [Hb|Hb].
    - apply list_elem_of_fmap in Hb as ([b [name loc]] & -> & Hb).
      cbn [fst] in *. destruct (Hin b name loc Hb) as (o & Ho & Hj).
      exists name, loc. split; [done|]. rewrite Ho. rewrite Hbj in Hj.
      destruct o; [congruence|done].
    - rewrite Hout in Hbj by done. by rewrite lookup_empty in Hbj. }
  split.
  - split.
    + intros [bj Hbj]. destruct (Hentry bj Hbj) as (name & loc & Hb & Hex).
      split; [apply list_elem_of_fmap; by exists (buoy, (name, loc))|].
      pose proof (export_buoy_outcome t buoy name) as Hcase.
      rewrite Hex in Hcase. by destruct Hcase.
    + intros [Hb (r & Hr & Hid)].
      apply list_elem_of_fmap in Hb as ([b [name loc]] & -> & Hb).
      cbn [fst] in *. destruct (Hin b name loc Hb) as (o & Ho & Hj).
      pose proof (export_buoy_outcome t b name) as Hcase.
      rewrite Ho in Hcase. destruct o as [bj|].
      * rewrite Hj. by eexists.
      * by destruct (Hcase r Hr).
  - intros bj Hbj. destruct (Hentry bj Hbj) as (name & loc & Hb & Hex).
    exists name, loc. split; [done|]. split; [done|].
    apply export_buoy_shape in Hex as (rr & W & _ & -> & Hother & _).
    rewrite !add_cardinal_lookup_ne by done.
    rewrite Hother by (by_compute || done). apply realtime_json_name.
Qed.

(** X16: when the snapshot export writes nothing.  It returns without
    writing exactly when the table lacks one of the key columns
    [buoy_id], [observation_time].  With the key columns, it raises (so
    that the previous artifact stays in place) whenever the column
    [wave_height_sig] is missing and some configured station has a row;
    and it raises only if some configured station has a row and either
    that column is missing or a row of the station has a time that
    [datetime.fromtimestamp] rejects.  So on a table whose times are all
    of the years 1 to 9999 it raises exactly when the key columns are
    there, [wave_height_sig] is not, and some configured station has a
    row. *)
Theorem snapshot_export_failure_modes (t : table) :
  (query_and_export py_round t = Returns None ↔
   ¬ {["buoy_id"; "observation_time"]} ⊆ columns t)
  ∧ ({["buoy_id"; "observation_time"]} ⊆ columns t →
     "wave_height_sig" ∉ columns t →
     (∃ buoy r, buoy ∈ BUOYS.*1 ∧ r ∈ rows t ∧ buoy_id r = buoy) →
     query_and_export py_round t = Raises)
  ∧ (query_and_export py_round t = Raises →
     {["buoy_id"; "observation_time"]} ⊆ columns t
     ∧ ∃ buoy r, buoy ∈ BUOYS.*1 ∧ r ∈ rows t ∧ buoy_id r = buoy
                 ∧ (("wave_height_sig" ∉ columns t)
                    ∨ ¬ representable_time (observation_time r)))
  ∧ (times_representable t →
     (query_and_export py_round t = Raises ↔
      {["buoy_id"; "observation_time"]} ⊆ columns t
      ∧ ("wave_height_sig" ∉ columns t)
      ∧ ∃ buoy r, buoy ∈ BUOYS.*1 ∧ r ∈ rows t ∧ buoy_id r = buoy)).
Proof.
  assert (Hsuff : {["buoy_id"; "observation_time"]} ⊆ columns t →
            "wave_height_sig" ∉ columns t →
            (∃ buoy r, buoy ∈ BUOYS.*1 ∧ r ∈ rows t ∧ buoy_id r = buoy) →
            query_and_export py_round t = Raises).
  { intros Hkeys Hcol (buoy & r & Hb & Hr & Hid).
    unfold query_and_export. rewrite decide_True by done.
    apply list_elem_of_fmap in Hb as ([b [name loc]] & -> & Hb).
    cbn [fst] in Hid.
    assert (Hraise : export_buoys py_round t BUOYS ∅ = Raises).
    { apply export_buoys_raises. exists b, name, loc. split; [done|].
      apply export_buoy_raises_without_wave_column; [done|by exists r]. }
    by rewrite Hraise. }
  assert (Hnec : query_and_export py_round t = Raises →
            {["buoy_id"; "observation_time"]} ⊆ columns t
            ∧ ∃ buoy r, buoy ∈ BUOYS.*1 ∧ r ∈ rows t ∧ buoy_id r = buoy
                        ∧ (("wave_height_sig" ∉ columns t)
                           ∨ ¬ representable_time (observation_time r))).
  { unfold query_and_export. case_decide as Hkeys; [|done].
    destruct (export_buoys py_round t BUOYS ∅) as [|j] eqn:Hrun; [|done].
    intros _. split; [done|].
    apply export_buoys_raises in Hrun as (buoy & name & loc & Hb & Hex).
    pose proof (export_buoy_outcome t buoy name) as Hcase.
    rewrite Hex in Hcase.
    assert (Hconf : buoy ∈ BUOYS.*1)
      by (apply list_elem_of_fmap; by exists (buoy, (name, loc))).
    destruct Hcase as [(r & Hr & Hid) [Hcol|(r' & Hr' & Hid' & Hrep)]].
    - exists buoy, r. split_and!; [done..|by left].
    - exists buoy, r'. split_and!; [done..|by right]. }
  split_and!; [|exact Hsuff|exact Hnec|].
  - unfold query_and_export. case_decide as Hkeys.
    + split; [|done]. by destruct (export_buoys py_round t BUOYS ∅).
    + done.
  - intros Htimes. split.
    + intros (Hkeys & buoy & r & Hb & Hr & Hid & [Hcol|Hrep])%Hnec.
      * split; [done|]. split; [done|]. by exists buoy, r.
      * exfalso. apply Hrep. unfold times_representable in Htimes.
        rewrite Forall_forall in Htimes. by apply Htimes.
    + intros (Hkeys & Hcol & Hrows). by apply Hsuff.
Qed.

End snapshot_facts.

(** ** Timeseries export *)

Section timeseries_facts.
Import Py Store Timeseries.

Variable py_round : Q → Z → Q.

(** *** [ORDER BY observation_time ASC] *)

#[local] Instance time_le_total : Total time_le.
Proof. intros a b. unfold time_le. lia. Qed.

Lemma order_asc_Permutation (rs : list row) : order_asc rs ≡ₚ rs.
Proof. apply merge_sort_Permutation. Qed.

Lemma order_asc_Sorted (rs : list row) : Sorted time_le (order_asc rs).
Proof. apply Sorted_merge_sort, _. Qed.

Lemma filter_iff {A : Type} (P R : A → Prop)
    `{∀ x, Decision (P x)} `{∀ x, Decision (R x)} (l : list A) :
  (∀ x, P x ↔ R x) → filter P l = filter R l.
Proof.
  intros Hiff. induction l as [|x l IH]; [done|].
  rewrite !filter_cons, IH.
  destruct (decide (P x)) as [HP|HP], (decide (R x)) as [HR|HR];
    try done; exfalso; [by apply HR, Hiff | by apply HP, Hiff].
Qed.

(** *** The rows a query fetches *)

Lemma hourly_where_qualifies buoy metric cutoff r :
  buoy ∈ HOURLY_BUOYS →
  hourly_where buoy metric cutoff r ↔ qualifies buoy metric cutoff r.
Proof.
  intros Hb. unfold hourly_where, qualifies, since_cutoff, on_hour_boundary.
  rewrite Z.rem_divide by done. tauto.
Qed.

Lemma all_where_qualifies buoy metric cutoff r :
  buoy ∉ HOURLY_BUOYS →
  all_where buoy metric cutoff r ↔ qualifies buoy metric cutoff r.
Proof.
  intros Hb. unfold all_where, qualifies, since_cutoff. tauto.
Qed.

Lemma fetch_rows_qualifies t buoy metric cutoff :
  fetch_rows t buoy metric cutoff
  = order_asc (filter (qualifies buoy metric cutoff) (rows t)).
Proof.
  unfold fetch_rows. case_bool_decide as Hb; f_equal; apply filter_iff;
    intros r;
    first [by apply hourly_where_qualifies | by apply all_where_qualifies].
Qed.

(** *** The two loops *)

Lemma export_metrics_snoc t buoy cutoff metrics m :
  export_metrics py_round t buoy cutoff (metrics ++ [m])
  = export_metric_step py_round t buoy cutoff
      (export_metrics py_round t buoy cutoff metrics) m.
Proof. unfold export_metrics. by rewrite foldl_app. Qed.

Lemma export_metrics_absent t buoy cutoff metrics m :
  m ∉ metrics.*1 →
  export_metrics py_round t buoy cutoff metrics !! m = None.
Proof.
  induction metrics as [|x metrics IH] using rev_ind; [done|].
  rewrite fmap_app, not_elem_of_app. cbn [fmap list_fmap].
  rewrite list_elem_of_singleton. intros [Hm Hne].
  rewrite export_metrics_snoc. unfold export_metric_step.
  destruct (fetch_rows t buoy x.1 cutoff); [by apply IH|].
  rewrite lookup_insert_ne by done. by apply IH.
Qed.

(** The series stored for a metric is the converted fetch, in order. *)
Lemma export_metrics_data t buoy cutoff metrics m :
  NoDup metrics.*1 → m ∈ metrics.*1 →
  match export_metrics py_round t buoy cutoff metrics !! m with
  | Some md => data md
  | None => []
  end = to_point py_round m <$> fetch_rows t buoy m cutoff.
Proof.
  induction metrics as [|x metrics IH] using rev_ind;
    [by intros _ ?%elem_of_nil|].
  rewrite fmap_app, NoDup_app. cbn [fmap list_fmap].
  intros (Hnd & Hx & _) [Hin| ->%list_elem_of_singleton]%elem_of_app.
  - assert (Hne : x.1 ≠ m).
    { intros <-. apply (Hx _ Hin). by left. }
    rewrite export_metrics_snoc. unfold export_metric_step.
    destruct (fetch_rows t buoy x.1 cutoff); [by apply IH|].
    rewrite lookup_insert_ne by done. by apply IH.
  - rewrite export_metrics_snoc. unfold export_metric_step.
    destruct (fetch_rows t buoy x.1 cutoff) as [|r rs] eqn:Hrows.
    + rewrite export_metrics_absent; [done|].
      intros Hin. apply (Hx _ Hin). by left.
    + by rewrite lookup_insert_eq.
Qed.

Lemma export_buoy_loop_absent t cutoff metrics
    (bs : list (string * (string * string))) b :
  b ∉ bs.*1 →
  foldl (export_buoy_step py_round t cutoff metrics) ∅ bs !! b = None.
Proof.
  induction bs as [|x bs IH] using rev_ind; [done|].
  rewrite fmap_app, not_elem_of_app. cbn [fmap list_fmap].
  rewrite list_elem_of_singleton. intros [Hb Hne].
  rewrite foldl_app. cbn [foldl]. unfold export_buoy_step at 1.
  case_decide; [by apply IH|].
  rewrite lookup_insert_ne by done. by apply IH.
Qed.

(** The loop over the stations, on any list of stations. *)
Lemma export_buoy_loop_emitted t cutoff metrics
    (bs : list (string * (string * string))) b m :
  NoDup bs.*1 → NoDup metrics.*1 → b ∈ bs.*1 → m ∈ metrics.*1 →
  emitted (foldl (export_buoy_step py_round t cutoff metrics) ∅ bs) b m
  = to_point py_round m <$> fetch_rows t b m cutoff.
Proof.
  intros Hbs Hms Hb Hm. revert Hbs Hb.
  induction bs as [|x bs IH] using rev_ind; [by intros _ ?%elem_of_nil|].
  rewrite fmap_app, NoDup_app. cbn [fmap list_fmap].
  intros (Hnd & Hx & _) [Hin| ->%list_elem_of_singleton]%elem_of_app.
  - assert (Hne : x.1 ≠ b).
    { intros <-. apply (Hx _ Hin). by left. }
    rewrite foldl_app. cbn [foldl]. unfold export_buoy_step at 1.
    case_decide; [by apply IH|].
    unfold emitted. rewrite lookup_insert_ne by done. by apply IH.
  - rewrite foldl_app. cbn [foldl]. unfold export_buoy_step at 1.
    pose proof (export_metrics_data t x.1 cutoff metrics m Hms Hm) as Hdata.
    case_decide as Hempty.
    + rewrite Hempty, lookup_empty in Hdata. rewrite <- Hdata.
      unfold emitted. rewrite export_buoy_loop_absent; [done|].
      intros Hin. apply (Hx _ Hin). by left.
    + unfold emitted. rewrite lookup_insert_eq. cbn [timeseries].
      exact Hdata.
Qed.

Lemma BUOYS_NoDup : NoDup BUOYS.*1.
Proof. by_compute. Qed.

Lemma ALL_METRICS_NoDup : NoDup ALL_METRICS.*1.
Proof. by_compute. Qed.

(** A document that is written holds, for every station of [BUOYS] and
    every metric the table has a column for, the converted fetch. *)
Lemma build_timeseries_emitted now t j b m :
  build_timeseries py_round now (Some t) = Some j →
  b ∈ BUOYS.*1 → m ∈ ALL_METRICS.*1 → m ∈ columns t →
  emitted (stations j) b m
  = to_point py_round m
      <$> fetch_rows t b m (py_int (now - 86400)%Q).
Proof.
  unfold build_timeseries.
  set (available := filter (λ m, m.1 ∈ columns t) ALL_METRICS).
  intros Hbuild Hb Hm Hcol.
  assert (Hav : m ∈ available.*1).
  { apply list_elem_of_fmap in Hm as ([m' info] & -> & Hin).
    apply list_elem_of_fmap. exists (m', info). split; [done|].
    by apply list_elem_of_filter. }
  assert (Hnd : NoDup available.*1).
  { apply (sublist_NoDup _ ALL_METRICS.*1);
      [apply ALL_METRICS_NoDup | apply fmap_sublist, sublist_filter]. }
  destruct available as [|a rest] eqn:Havail;
    [by apply elem_of_nil in Hav|].
  case_decide; [|done]. injection Hbuild as <-. cbn [stations].
  unfold export_buoys.
  by apply export_buoy_loop_emitted; [apply BUOYS_NoDup|..].
Qed.

(** *** Downsampling *)

Lemma to_point_time m r : time (to_point py_round m r) = observation_time r.
Proof. reflexivity. Qed.

(** [int(x)] truncates toward zero: it is within one of [x], and not
    above it when [x] is not negative. *)
Lemma py_int_truncates (x : Q) :
  (inject_Z (py_int x) - 1 < x)%Q ∧ (x < inject_Z (py_int x) + 1)%Q
  ∧ ((0 <= x)%Q → (inject_Z (py_int x) <= x)%Q).
Proof.
  destruct x as [n d]. unfold py_int. cbn [Qnum Qden].
  pose proof (Z.quot_rem' n (Z.pos d)) as Hqr.
  set (q := Z.quot n (Z.pos d)) in *. set (r := Z.rem n (Z.pos d)) in *.
  assert (Hr : - Z.pos d < r < Z.pos d).
  { pose proof (Z.rem_bound_abs n (Z.pos d) ltac:(lia)). subst r. lia. }
  unfold Qlt, Qle, Qminus, Qplus, Qopp, inject_Z. cbn.
  split_and!; [nia|nia|].
  intros Hn. assert (0 ≤ n) by lia.
  pose proof (Z.rem_bound_pos n (Z.pos d) ltac:(lia) ltac:(lia)).
  subst r. nia.
Qed.

(** C5 (as amended): in a written 24-hour document, for every station of
    [BUOYS] and every metric with a column in the table, the emitted
    series consists (up to order, with multiplicity) of the converted
    stored samples that qualify: rows of the station with the metric
    non-null and a time not before the cutoff -- and, for the
    high-frequency stations, which are exactly 4600304 and 4600303, only
    those whose epoch time is divisible by 3600; a standard station keeps
    every such row.  The cutoff is the export time minus 24 hours,
    truncated to whole seconds: it is within one second of that time and
    not above it when that time is not negative.  The window has no
    upper end: a qualifying row is emitted however late it is dated.
    The series is in ascending time order. *)
Theorem timeseries_downsampling
    (now : Q) (t : table) (j : timeseries_json) (b m : string) :
  build_timeseries py_round now (Some t) = Some j →
  b ∈ BUOYS.*1 → m ∈ ALL_METRICS.*1 → m ∈ columns t →
  let cutoff := py_int (now - 86400)%Q in
  ((inject_Z cutoff - 1 < now - 86400)%Q
   ∧ (now - 86400 < inject_Z cutoff + 1)%Q
   ∧ ((86400 <= now)%Q → (inject_Z cutoff <= now - 86400)%Q))
  ∧ emitted (stations j) b m
    ≡ₚ to_point py_round m <$> filter (qualifies b m cutoff) (rows t)
  ∧ Sorted Z.le (time <$> emitted (stations j) b m)
  ∧ (∀ p, p ∈ emitted (stations j) b m →
       ∃ r, r ∈ rows t ∧ p = to_point py_round m r
            ∧ buoy_id r = b ∧ is_Some (cols r !! m)
            ∧ cutoff ≤ observation_time r
            ∧ (b ∈ HOURLY_BUOYS → (3600 | observation_time r)))
  ∧ (∀ r, r ∈ rows t → buoy_id r = b → is_Some (cols r !! m) →
          cutoff ≤ observation_time r →
          (b ∈ HOURLY_BUOYS → (3600 | observation_time r)) →
          to_point py_round m r ∈ emitted (stations j) b m)
  ∧ (b ∈ HOURLY_BUOYS ↔ b = "4600304" ∨ b = "4600303").
Proof.
  intros Hbuild Hb Hm Hcol cutoff.
  rewrite (build_timeseries_emitted now t j b m Hbuild Hb Hm Hcol).
  fold cutoff. rewrite fetch_rows_qualifies.
  assert (Hperm : to_point py_round m
                    <$> order_asc (filter (qualifies b m cutoff) (rows t))
                  ≡ₚ to_point py_round m
                       <$> filter (qualifies b m cutoff) (rows t))
    by by rewrite order_asc_Permutation.
  split_and!.
  - apply py_int_truncates.
  - apply py_int_truncates.
  - intros Hnow. apply py_int_truncates. lra.
  - exact Hperm.
  - rewrite <- list_fmap_compose.
    apply (Sorted_fmap _ time_le); [by intros x y|apply order_asc_Sorted].
  - intros p Hp. rewrite Hperm in Hp.
    apply list_elem_of_fmap in Hp as (r & -> & Hr).
    apply list_elem_of_filter in Hr as [(Hid & Hnn & Hwin & Hhour) Hr].
    exists r. by split_and!.
  - intros r Hr Hid Hnn Hwin Hhour. rewrite Hperm.
    apply list_elem_of_fmap_2, list_elem_of_filter. by split.
  - unfold HOURLY_BUOYS. rewrite !elem_of_cons, elem_of_nil. tauto.
Qed.

(** *** The lock *)

(** C9: on an invocation that finds the lock file, with [mtime] its
    modification time and [clock] the reading of the clock: if the age
    [clock - mtime] is at most 300 seconds, the run exits with status 1,
    issues no file-system mutation and leaves lock, artifact and database
    as they were; if the age exceeds 300 seconds, the stale lock is
    unlinked and taken anew, the export runs (writing the artifact through
    the temporary file whenever there is a document to write), and the
    lock is released at the end. *)
Theorem lock_fresh_exits_stale_is_cleared
    (clock now : Q) (fs : files) (mtime : Q) :
  lockfile fs = Some mtime →
  ((clock - mtime <= 300)%Q →
   main py_round clock now fs = (fs, [], Exit1))
  ∧ ((300 < clock - mtime)%Q →
     ∃ fs' ev,
       main py_round clock now fs
       = (fs', [UnlinkLock; TouchLock] ++ ev ++ [UnlinkLock], Completed)
       ∧ lockfile fs' = None
       ∧ database fs' = database fs
       ∧ match build_timeseries py_round now (database fs) with
         | Some j => ev = [WriteTmp j; ReplaceOut] ∧ out_path fs' = Some j
         | None => ev = [] ∧ out_path fs' = out_path fs
         end).
Proof.
  intros Hlock. unfold main, acquire_lock. rewrite Hlock. split.
  - intros Hage. destruct (Qlt_le_dec 300 (clock - mtime)) as [Hlt|_]; [|done].
    exfalso. by apply (Qlt_not_le _ _ Hlt).
  - intros Hage.
    destruct (Qlt_le_dec 300 (clock - mtime)) as [_|Hle];
      [|exfalso; by apply (Qlt_not_le _ _ Hage)].
    unfold query_and_export_timeseries. cbn [database].
    destruct (build_timeseries py_round now (database fs)) as [j|].
    + exists {| lockfile := None; out_path := Some j;
                database := database fs |}, [WriteTmp j; ReplaceOut].
      by split_and!.
    + exists {| lockfile := None; out_path := out_path fs;
                database := database fs |}, [].
      by split_and!.
Qed.

(** *** What a written document holds *)

Lemma fetch_rows_nonempty t b m cutoff :
  fetch_rows t b m cutoff ≠ [] ↔ ∃ r, r ∈ rows t ∧ qualifies b m cutoff r.
Proof.
  rewrite fetch_rows_qualifies. split.
  - intros Hne.
    destruct (order_asc (filter (qualifies b m cutoff) (rows t)))
      as [|r rs] eqn:Hrows; [done|].
    assert (Hr : r ∈ order_asc (filter (qualifies b m cutoff) (rows t)))
      by (rewrite Hrows; by left).
    rewrite order_asc_Permutation in Hr.
    apply list_elem_of_filter in Hr as [? ?]. by exists r.
  - intros (r & Hr & Hq) Hnil.
    assert (Hin : r ∈ order_asc (filter (qualifies b m cutoff) (rows t))).
    { rewrite order_asc_Permutation. by apply list_elem_of_filter. }
    rewrite Hnil in Hin. by apply elem_of_nil in Hin.
Qed.

(** The series object of a metric: there is one exactly for a listed
    metric with fetched rows, and it is the converted fetch under the
    metric's display name and unit. *)
Lemma export_metrics_lookup t buoy cutoff metrics m md :
  NoDup metrics.*1 →
  export_metrics py_round t buoy cutoff metrics !! m = Some md ↔
  ∃ n u, (m, (n, u)) ∈ metrics ∧ fetch_rows t buoy m cutoff ≠ []
         ∧ md = {| m_name := n; m_unit := u;
                   data := to_point py_round m
                             <$> fetch_rows t buoy m cutoff |}.
Proof.
  induction metrics as [|[xm [xn xu]] metrics IH] using rev_ind.
  { intros _. split; [done|]. by intros (? & ? & ?%elem_of_nil & _). }
  rewrite fmap_app, NoDup_app. cbn [fmap list_fmap fst].
  intros (Hnd & Hx & _). specialize (IH Hnd).
  assert (Hfresh : xm ∉ metrics.*1).
  { intros Hin. apply (Hx _ Hin). by left. }
  assert (Hentry : ∀ n u, (m, (n, u)) ∈ metrics ++ [(xm, (xn, xu))] ↔
                          (m, (n, u)) ∈ metrics
                          ∨ (m = xm ∧ n = xn ∧ u = xu)).
  { intros n u. rewrite elem_of_app, list_elem_of_singleton.
    split; (intros [?|?]; [by left|right]); [by simplify_eq|].
    by destruct_and!; subst. }
  assert (Hold : ∀ n u, (m, (n, u)) ∈ metrics → m ≠ xm).
  { intros n u Hin ->. apply Hfresh, list_elem_of_fmap.
    by exists (xm, (n, u)). }
  rewrite export_metrics_snoc. unfold export_metric_step. cbn [fst snd].
  destruct (fetch_rows t buoy xm cutoff) as [|r rs] eqn:Hrows.
  - rewrite IH. split.
    + intros (n & u & Hin & Hne & ->). exists n, u.
      split; [apply Hentry; by left|done].
    + intros (n & u & [Hin|(-> & -> & ->)]%Hentry & Hne & ->).
      * by exists n, u.
      * by rewrite Hrows in Hne.
  - destruct (decide (m = xm)) as [->|Hne].
    + rewrite lookup_insert_eq, Hrows. split.
      * intros [= <-]. exists xn, xu.
        split; [apply Hentry; by right|done].
      * intros (n & u & [Hin|(_ & -> & ->)]%Hentry & _ & ->); [|done].
        by destruct (Hold n u Hin).
    + rewrite lookup_insert_ne by done. rewrite IH. split.
      * intros (n & u & Hin & Hnz & ->). exists n, u.
        split; [apply Hentry; by left|done].
      * intros (n & u & [Hin|(-> & _)]%Hentry & Hnz & ->); [|done].
        by exists n, u.
Qed.

(** The station object: there is one exactly for a listed station with
    at least one series. *)
Lemma export_buoy_loop_lookup t cutoff metrics
    (bs : list (string * (string * string))) b bd :
  NoDup bs.*1 →
  foldl (export_buoy_step py_round t cutoff metrics) ∅ bs !! b = Some bd ↔
  ∃ n l, (b, (n, l)) ∈ bs
         ∧ export_metrics py_round t b cutoff metrics ≠ ∅
         ∧ bd = {| b_name := n; b_location := l;
                   timeseries := export_metrics py_round t b cutoff
                                   metrics |}.
Proof.
  induction bs as [|[xb [xn xl]] bs IH] using rev_ind.
  { intros _. split; [done|]. by intros (? & ? & ?%elem_of_nil & _). }
  rewrite fmap_app, NoDup_app. cbn [fmap list_fmap fst].
  intros (Hnd & Hx & _). specialize (IH Hnd).
  assert (Hfresh : xb ∉ bs.*1).
  { intros Hin. apply (Hx _ Hin). by left. }
  assert (Hentry : ∀ n l, (b, (n, l)) ∈ bs ++ [(xb, (xn, xl))] ↔
                          (b, (n, l)) ∈ bs ∨ (b = xb ∧ n = xn ∧ l = xl)).
  { intros n l. rewrite elem_of_app, list_elem_of_singleton.
    split; (intros [?|?]; [by left|right]); [by simplify_eq|].
    by destruct_and!; subst. }
  assert (Hold : ∀ n l, (b, (n, l)) ∈ bs → b ≠ xb).
  { intros n l Hin ->. apply Hfresh, list_elem_of_fmap.
    by exists (xb, (n, l)). }
  rewrite foldl_app. cbn [foldl]. unfold export_buoy_step at 1.
  cbn [fst snd]. case_decide as Hempty.
  - rewrite IH. split.
    + intros (n & l & Hin & Hne & ->). exists n, l.
      split; [apply Hentry; by left|done].
    + intros (n & l & [Hin|(-> & -> & ->)]%Hentry & Hne & ->).
      * by exists n, l.
      * done.
  - destruct (decide (b = xb)) as [->|Hne].
    + rewrite lookup_insert_eq. split.
      * intros [= <-]. exists xn, xl.
        split; [apply Hentry; by right|done].
      * intros (n & l & [Hin|(_ & -> & ->)]%Hentry & _ & ->); [|done].
        by destruct (Hold n l Hin).
    + rewrite lookup_insert_ne by done. rewrite IH. split.
      * intros (n & l & Hin & Hnz & ->). exists n, l.
        split; [apply Hentry; by left|done].
      * intros (n & l & [Hin|(-> & _)]%Hentry & Hnz & ->); [|done].
        by exists n, l.
Qed.

(** What [build_timeseries] puts into a document it returns. *)
Lemma build_timeseries_inv now t j :
  build_timeseries py_round now (Some t) = Some j →
  let available := filter (λ m, m.1 ∈ columns t) ALL_METRICS in
  available ≠ []
  ∧ {["buoy_id"; "observation_time"]} ⊆ columns t
  ∧ stations j = export_buoys py_round t (py_int (now - 86400)%Q) available
  ∧ data_start (_meta j) = (data_range (stations j)).1
  ∧ data_end (_meta j) = (data_range (stations j)).2
  ∧ buoy_count (_meta j) = size (stations j)
  ∧ available_metrics (_meta j) = available.*1.
Proof.
  unfold build_timeseries. cbv zeta.
  destruct (filter (λ m, m.1 ∈ columns t) ALL_METRICS) as [|a rest];
    [done|].
  case_decide; [|done]. by intros [= <-].
Qed.

Lemma available_NoDup (t : table) :
  NoDup (filter (λ m, m.1 ∈ columns t) ALL_METRICS).*1.
Proof.
  apply (sublist_NoDup _ ALL_METRICS.*1);
    [apply ALL_METRICS_NoDup | apply fmap_sublist, sublist_filter].
Qed.

(** X19: which stations and series a written 24-hour document holds.  A
    key is a station of the document exactly when it is a configured
    station with at least one qualifying sample of some metric the table
    has a column for; the station object carries the configured name and
    location; it never has an empty [timeseries], no series in it is
    empty, and each series is filed under a metric of [ALL_METRICS] with
    that metric's display name and unit. *)
Theorem timeseries_holds_only_stations_and_series_with_data
    (now : Q) (t : table) (j : timeseries_json) (b : string) :
  build_timeseries py_round now (Some t) = Some j →
  let cutoff := py_int (now - 86400)%Q in
  (is_Some (stations j !! b) ↔
   b ∈ BUOYS.*1
   ∧ ∃ m r, m ∈ ALL_METRICS.*1 ∧ m ∈ columns t ∧ r ∈ rows t
            ∧ qualifies b m cutoff r)
  ∧ (∀ bd, stations j !! b = Some bd →
       (b, (b_name bd, b_location bd)) ∈ BUOYS
       ∧ timeseries bd ≠ ∅
       ∧ ∀ m md, timeseries bd !! m = Some md →
           (m, (m_name md, m_unit md)) ∈ ALL_METRICS
           ∧ m ∈ columns t
           ∧ data md ≠ []
           ∧ data md = emitted (stations j) b m).
Proof.
  intros (_ & _ & Hst & _)%build_timeseries_inv cutoff.
  rewrite Hst. unfold export_buoys. fold cutoff.
  set (available := filter (λ m, m.1 ∈ columns t) ALL_METRICS).
  pose proof (available_NoDup t) as Hnd. fold available in Hnd.
  assert (Hnonempty :
            export_metrics py_round t b cutoff available ≠ ∅ ↔
            ∃ m r, m ∈ ALL_METRICS.*1 ∧ m ∈ columns t ∧ r ∈ rows t
                   ∧ qualifies b m cutoff r).
  { split.
    - intros (m & md & Hmd)%map_choose.
      apply export_metrics_lookup in Hmd as (n & u & Hin & Hne & _);
        [|done].
      apply list_elem_of_filter in Hin as [Hcol Hin]. cbn in Hcol.
      apply fetch_rows_nonempty in Hne as (r & Hr & Hq).
      exists m, r. split_and!; try done.
      apply list_elem_of_fmap. by exists (m, (n, u)).
    - intros (m & r & Hm & Hcol & Hr & Hq) Hempty.
      apply list_elem_of_fmap in Hm as ([m' [n u]] & -> & Hin).
      cbn [fst] in *.
      assert (Hmd : export_metrics py_round t b cutoff available !! m'
                    = Some {| m_name := n; m_unit := u;
                              data := to_point py_round m'
                                        <$> fetch_rows t b m' cutoff |}).
      { apply export_metrics_lookup; [done|]. exists n, u.
        split; [by apply list_elem_of_filter|].
        split; [|done]. apply fetch_rows_nonempty. by exists r. }
      by rewrite Hempty, lookup_empty in Hmd. }
  split.
  - split.
    + intros [bd Hbd].
      apply export_buoy_loop_lookup in Hbd as (n & l & Hin & Hne & _);
        [|apply BUOYS_NoDup].
      split; [apply list_elem_of_fmap; by exists (b, (n, l))|].
      by apply Hnonempty.
    + intros [Hb Hdata].
      apply list_elem_of_fmap in Hb as ([b' [n l]] & -> & Hin).
      cbn [fst] in *. eexists.
      apply export_buoy_loop_lookup; [apply BUOYS_NoDup|].
      exists n, l. split; [done|]. split; [|done]. by apply Hnonempty.
  - intros bd Hbd. pose proof Hbd as Hbd'.
    apply export_buoy_loop_lookup in Hbd as (n & l & Hin & Hne & ->);
      [|apply BUOYS_NoDup].
    cbn [b_name b_location timeseries]. split; [done|]. split; [done|].
    intros m md Hmd. unfold emitted. rewrite Hbd'. cbn [timeseries].
    rewrite Hmd.
    apply export_metrics_lookup in Hmd as (nm & u & Hm & Hrows & ->);
      [|done].
    cbn [m_name m_unit data].
    apply list_elem_of_filter in Hm as [Hcol Hm]. split_and!; try done.
    intros Hnil. by apply fmap_nil_inv in Hnil.
Qed.

(** X20: when the 24-hour export writes, for a database whose observation
    times [datetime.fromtimestamp] accepts (years 1 to 9999; on a later
    time the code raises and writes nothing).  The exporter leaves the
    file system untouched, issuing no mutation, exactly when the database
    file is missing, the table has a column for none of the metrics, or
    it lacks one of the key columns; in every other case it writes one
    document through the temporary file and changes nothing but the
    artifact. *)
Theorem timeseries_export_writes_or_touches_nothing
    (now : Q) (fs : files) :
  (∀ t, database fs = Some t → times_representable t) →
  (query_and_export_timeseries py_round now fs = (fs, []) ↔
   database fs = None
   ∨ ∃ t, database fs = Some t
          ∧ ((∀ m, m ∈ ALL_METRICS.*1 → m ∉ columns t)
             ∨ ¬ {["buoy_id"; "observation_time"]} ⊆ columns t))
  ∧ (query_and_export_timeseries py_round now fs ≠ (fs, []) →
     ∃ j fs',
       build_timeseries py_round now (database fs) = Some j
       ∧ query_and_export_timeseries py_round now fs
         = (fs', [WriteTmp j; ReplaceOut])
       ∧ out_path fs' = Some j ∧ lockfile fs' = lockfile fs
       ∧ database fs' = database fs).
Proof.
  intros _.
  assert (Hnone : build_timeseries py_round now (database fs) = None ↔
            database fs = None
            ∨ ∃ t, database fs = Some t
                   ∧ ((∀ m, m ∈ ALL_METRICS.*1 → m ∉ columns t)
                      ∨ ¬ {["buoy_id"; "observation_time"]} ⊆ columns t)).
  { destruct (database fs) as [t|]; [|split; [by left|done]].
    unfold build_timeseries. cbv zeta.
    destruct (filter (λ m, m.1 ∈ columns t) ALL_METRICS)
      as [|a rest] eqn:Hav.
    - split; [|done]. intros _. right. exists t. split; [done|]. left.
      intros m Hm Hcol.
      apply list_elem_of_fmap in Hm as ([m' info] & -> & Hin).
      assert (Hf : (m', info) ∈ filter (λ m, m.1 ∈ columns t) ALL_METRICS)
        by (by apply list_elem_of_filter).
      rewrite Hav in Hf. by apply elem_of_nil in Hf.
    - assert (Ha : a ∈ filter (λ m, m.1 ∈ columns t) ALL_METRICS)
        by (rewrite Hav; by left).
      apply list_elem_of_filter in Ha as [Hcol Ha].
      case_decide as Hkeys.
      + split; [done|]. intros [?|(t' & [= <-] & [Hno|Hk])]; [done|..].
        * destruct (Hno a.1); [|done]. by apply list_elem_of_fmap_2.
        * done.
      + split; [|done]. intros _. right. exists t. split; [done|].
        by right. }
  unfold query_and_export_timeseries.
  destruct (build_timeseries py_round now (database fs)) as [j|] eqn:Hb.
  - split.
    + split; [done|]. intros H. apply Hnone in H. done.
    + intros _. eexists j, _. by split_and!.
  - split; [|done]. split; [|done]. intros _. by apply Hnone.
Qed.


(** *** The data range in [_meta] *)

Lemma sorted_series_bounds (d : list point) (p : point) :
  Sorted Z.le (time <$> d) → p ∈ d →
  ∃ p0 q0, head d = Some p0 ∧ last d = Some q0
           ∧ time p0 ≤ time p ∧ time p ≤ time q0.
Proof.
  intros Hs%Sorted_StronglySorted; [|intros x y z; lia].
  revert p. induction d as [|a d IH]; intros p; [by intros ?%elem_of_nil|].
  rewrite fmap_cons in Hs. apply StronglySorted_inv in Hs as [Hs Hall].
  rewrite Forall_fmap, Forall_forall in Hall. cbn in Hall.
  specialize (IH Hs).
  destruct d as [|b d].
  - intros ->%list_elem_of_singleton. exists a, a. by split_and!; try lia.
  - assert (Hb : b ∈ b :: d) by by left.
    destruct (IH b Hb) as (b0 & q0 & Hhd & Hlast & _ & Hbq).
    injection Hhd as <-.
    intros [->|Hp]%elem_of_cons.
    + exists a, q0. split_and!; [done|done|lia|].
      specialize (Hall b Hb). lia.
    + destruct (IH p Hp) as (b0 & q1 & _ & Hlast' & _ & Hpq).
      exists a, q1. split_and!; [done|done| |done].
      by apply Hall.
Qed.

Lemma data_range_fold (ds : list (list point)) (acc : option Z * option Z) :
  let r :=
    foldl (λ acc d,
             match head d, last d with
             | Some p, Some q =>
                 (Some (match acc.1 with
                        | Some s => Z.min s (time p) | None => time p end),
                  Some (match acc.2 with
                        | Some e => Z.max e (time q) | None => time q end))
             | _, _ => acc
             end) acc ds in
  (∀ a, acc.1 = Some a → ∃ s, r.1 = Some s ∧ s ≤ a)
  ∧ (∀ a, acc.2 = Some a → ∃ e, r.2 = Some e ∧ a ≤ e)
  ∧ (∀ d p q, d ∈ ds → head d = Some p → last d = Some q →
       ∃ s e, r.1 = Some s ∧ r.2 = Some e ∧ s ≤ time p ∧ time q ≤ e)
  ∧ (∀ s, r.1 = Some s →
       acc.1 = Some s ∨ ∃ d p, d ∈ ds ∧ head d = Some p ∧ time p = s)
  ∧ (∀ e, r.2 = Some e →
       acc.2 = Some e ∨ ∃ d q, d ∈ ds ∧ last d = Some q ∧ time q = e).
Proof.
  revert acc. induction ds as [|d ds IH]; intros acc; cbn [foldl].
  { split_and!.
    - intros a Ha. exists a. split; [done|lia].
    - intros a Ha. exists a. split; [done|lia].
    - by intros d p q ?%elem_of_nil.
    - intros s Hs. by left.
    - intros e He. by left. }
  set (acc' := match head d, last d with
               | Some p, Some q =>
                   (Some (match acc.1 with
                          | Some s => Z.min s (time p) | None => time p end),
                    Some (match acc.2 with
                          | Some e => Z.max e (time q) | None => time q end))
               | _, _ => acc
               end).
  destruct (IH acc') as (IH1 & IH2 & IH3 & IH4 & IH5). clear IH.
  assert (Hstep1 : ∀ a, acc.1 = Some a → ∃ a', acc'.1 = Some a' ∧ a' ≤ a).
  { intros a Ha. subst acc'. destruct (head d), (last d); cbn;
      rewrite ?Ha; eexists; (split; [done|lia]). }
  assert (Hstep2 : ∀ a, acc.2 = Some a → ∃ a', acc'.2 = Some a' ∧ a ≤ a').
  { intros a Ha. subst acc'. destruct (head d), (last d); cbn;
      rewrite ?Ha; eexists; (split; [done|lia]). }
  assert (Hhere : ∀ p q, head d = Some p → last d = Some q →
            ∃ s e, acc'.1 = Some s ∧ acc'.2 = Some e
                   ∧ s ≤ time p ∧ time q ≤ e).
  { intros p q Hp Hq. subst acc'. rewrite Hp, Hq. cbn.
    destruct acc as [[s|] [e|]]; cbn; eexists _, _;
      (split; [done|]); (split; [done|]); lia. }
  assert (Hback1 : ∀ s, acc'.1 = Some s →
            acc.1 = Some s ∨ ∃ p, head d = Some p ∧ time p = s).
  { intros s. subst acc'. destruct (head d) as [p|]; [|by left].
    destruct (last d) as [q|]; [|by left]. cbn.
    destruct acc as [[s0|] e0]; cbn; intros [= <-].
    - destruct (Z.min_spec s0 (time p)) as [[_ ->]|[_ ->]];
        [by left | right; by exists p].
    - right. by exists p. }
  assert (Hback2 : ∀ e, acc'.2 = Some e →
            acc.2 = Some e ∨ ∃ q, last d = Some q ∧ time q = e).
  { intros e. subst acc'. destruct (head d) as [p|]; [|by left].
    destruct (last d) as [q|]; [|by left]. cbn.
    destruct acc as [s0 [e0|]]; cbn; intros [= <-].
    - destruct (Z.max_spec e0 (time q)) as [[_ ->]|[_ ->]];
        [right; by exists q | by left].
    - right. by exists q. }
  split_and!.
  - intros a (a' & Ha' & Hle)%Hstep1.
    destruct (IH1 a' Ha') as (s & Hs & Hsa). exists s. split; [done|lia].
  - intros a (a' & Ha' & Hle)%Hstep2.
    destruct (IH2 a' Ha') as (e & He & Hea). exists e. split; [done|lia].
  - intros d' p q [->|Hin]%elem_of_cons Hp Hq.
    + destruct (Hhere p q Hp Hq) as (s' & e' & Hs' & He' & Hsp & Hqe).
      destruct (IH1 s' Hs') as (s & Hs & Hss).
      destruct (IH2 e' He') as (e & He & Hee).
      exists s, e. split_and!; [done|done|lia|lia].
    + by apply (IH3 d' p q).
  - intros s [Hacc|(d' & p & Hin & Hp & Ht)]%IH4.
    + apply Hback1 in Hacc as [?|(p & Hp & Ht)]; [by left|right].
      exists d, p. split_and!; [by left|done..].
    + right. exists d', p. split_and!; [by right|done..].
  - intros e [Hacc|(d' & q & Hin & Hq & Ht)]%IH5.
    + apply Hback2 in Hacc as [?|(q & Hq & Ht)]; [by left|right].
      exists d, q. split_and!; [by left|done..].
    + right. exists d', q. split_and!; [by right|done..].
Qed.

(** The series [data_range] runs over are the series of the document. *)
Lemma data_range_series (out : gmap string buoy_data) (d : list point) :
  d ∈ (map_to_list out
         ≫= λ b, (λ m, data m.2) <$> map_to_list (timeseries b.2)) ↔
  ∃ b bd m md, out !! b = Some bd ∧ timeseries bd !! m = Some md
               ∧ d = data md.
Proof.
  rewrite list_elem_of_bind. split.
  - intros ([b bd] & Hd & Hb). cbn in Hd.
    apply list_elem_of_fmap in Hd as ([m md] & -> & Hm).
    apply elem_of_map_to_list in Hb, Hm. by exists b, bd, m, md.
  - intros (b & bd & m & md & Hb & Hm & ->). exists (b, bd).
    split; [|by apply elem_of_map_to_list]. cbn.
    apply list_elem_of_fmap. exists (m, md).
    split; [done|by apply elem_of_map_to_list].
Qed.

(** X22: the data range of [_meta] brackets the document.  Every emitted
    sample lies between [data_start] and [data_end], both of which are
    then present; each of the two bounds is the time of an emitted sample
    and so not before the cutoff; and a document without stations has
    neither bound.  [buoy_count] is the number of stations and at most
    the number configured. *)
Theorem timeseries_meta_brackets_the_data
    (now : Q) (t : table) (j : timeseries_json) :
  build_timeseries py_round now (Some t) = Some j →
  (∀ b m p, p ∈ emitted (stations j) b m →
     ∃ s e, data_start (_meta j) = Some s ∧ data_end (_meta j) = Some e
            ∧ s ≤ time p ∧ time p ≤ e)
  ∧ (∀ s, data_start (_meta j) = Some s →
       py_int (now - 86400)%Q ≤ s
       ∧ ∃ b m p, p ∈ emitted (stations j) b m ∧ time p = s)
  ∧ (∀ e, data_end (_meta j) = Some e →
       py_int (now - 86400)%Q ≤ e
       ∧ ∃ b m p, p ∈ emitted (stations j) b m ∧ time p = e)
  ∧ (stations j = ∅ →
     data_start (_meta j) = None ∧ data_end (_meta j) = None)
  ∧ buoy_count (_meta j) = size (stations j)
  ∧ (buoy_count (_meta j) ≤ length BUOYS)%nat.
Proof.
  intros Hbuild.
  pose proof Hbuild as (_ & _ & Hst & Hstart & Hend & Hcount & _)
                         %build_timeseries_inv.
  set (cutoff := py_int (now - 86400)%Q) in *.
  set (available := filter (λ m, m.1 ∈ columns t) ALL_METRICS) in *.
  pose proof (available_NoDup t) as Hnd. fold available in Hnd.
  (* every series of the document is a converted fetch *)
  assert (Hseries : ∀ b bd m md,
            stations j !! b = Some bd → timeseries bd !! m = Some md →
            data md = emitted (stations j) b m
            ∧ data md = to_point py_round m <$> fetch_rows t b m cutoff).
  { intros b bd m md Hb Hm. unfold emitted. rewrite Hb, Hm.
    split; [done|]. rewrite Hst in Hb. unfold export_buoys in Hb.
    apply export_buoy_loop_lookup in Hb as (n & l & _ & _ & ->);
      [|apply BUOYS_NoDup].
    cbn [timeseries] in Hm.
    by apply export_metrics_lookup in Hm as (nm & u & _ & _ & ->). }
  assert (Hsorted : ∀ b m,
            Sorted Z.le
              (time <$> (to_point py_round m <$> fetch_rows t b m cutoff))).
  { intros b m. rewrite fetch_rows_qualifies, <- list_fmap_compose.
    apply (Sorted_fmap _ time_le); [by intros x y|apply order_asc_Sorted]. }
  assert (Hcut : ∀ b m p,
            p ∈ to_point py_round m <$> fetch_rows t b m cutoff →
            cutoff ≤ time p).
  { intros b m p Hp. rewrite fetch_rows_qualifies in Hp.
    apply list_elem_of_fmap in Hp as (r & -> & Hr).
    rewrite order_asc_Permutation in Hr.
    by apply list_elem_of_filter in Hr as [(_ & _ & Hwin & _) _]. }
  pose proof (data_range_fold
                (map_to_list (stations j)
                   ≫= λ b, (λ m, data m.2) <$> map_to_list (timeseries b.2))
                (None, None)) as Hfold.
  cbv zeta in Hfold. fold (data_range (stations j)) in Hfold.
  rewrite <- Hstart, <- Hend in Hfold.
  destruct Hfold as (_ & _ & Hin & Hs & He).
  split_and!.
  - intros b m p Hp. unfold emitted in Hp.
    destruct (stations j !! b) as [bd|] eqn:Hb;
      [|by apply elem_of_nil in Hp].
    destruct (timeseries bd !! m) as [md|] eqn:Hm;
      [|by apply elem_of_nil in Hp].
    destruct (Hseries b bd m md Hb Hm) as [_ Hdata].
    destruct (sorted_series_bounds (data md) p) as (p0 & q0 & H0 & H1 & ? & ?);
      [rewrite Hdata; apply Hsorted | done |].
    destruct (Hin (data md) p0 q0) as (s & e & ? & ? & ? & ?);
      [apply data_range_series; by exists b, bd, m, md | done | done |].
    exists s, e. split_and!; [done|done|lia|lia].
  - intros s [[=]|(d & p & Hd & Hp & <-)]%Hs.
    apply data_range_series in Hd as (b & bd & m & md & Hb & Hm & ->).
    destruct (Hseries b bd m md Hb Hm) as [Hem Hdata].
    apply head_Some_elem_of in Hp. split.
    + apply (Hcut b m). by rewrite <- Hdata.
    + exists b, m, p. by rewrite <- Hem.
  - intros e [[=]|(d & q & Hd & Hq & <-)]%He.
    apply data_range_series in Hd as (b & bd & m & md & Hb & Hm & ->).
    destruct (Hseries b bd m md Hb Hm) as [Hem Hdata].
    apply last_Some_elem_of in Hq. split.
    + apply (Hcut b m). by rewrite <- Hdata.
    + exists b, m, q. by rewrite <- Hem.
  - intros Hempty. rewrite Hstart, Hend, Hempty. done.
  - done.
  - rewrite Hcount, Hst. unfold export_buoys.
    generalize BUOYS. intros bs.
    induction bs as [|x bs IH] using rev_ind; [done|].
    rewrite foldl_app, length_app. cbn [foldl length].
    unfold export_buoy_step at 1. case_decide; [lia|].
    rewrite map_size_insert.
    destruct (foldl _ ∅ bs !! x.1); unfold id; lia.
Qed.

End timeseries_facts.

(** ** The mapping table *)

Section field_map_facts.
Import Py Store Ingest.

Lemma dict_of_snoc entries kv :
  dict_of (entries ++ [kv]) = <[kv.1 := kv.2]> (dict_of entries).
Proof. unfold dict_of. by rewrite foldl_app. Qed.

Lemma dict_of_list_to_map entries :
  dict_of entries = list_to_map (reverse entries).
Proof.
  induction entries as [|kv entries IH] using rev_ind; [done|].
  rewrite dict_of_snoc, reverse_snoc, IH. by destruct kv.
Qed.

(** A table without repeated raw names denotes the same dict in whatever
    order its entries are written. *)
Lemma dict_of_Permutation entries entries' :
  NoDup entries.*1 → entries ≡ₚ entries' → dict_of entries = dict_of entries'.
Proof.
  intros Hnd Hperm. rewrite !dict_of_list_to_map.
  apply list_to_map_proper.
  - by rewrite fmap_reverse, reverse_Permutation.
  - by rewrite !reverse_Permutation.
Qed.

Lemma FIELD_MAP_NoDup : NoDup FIELD_MAP.*1.
Proof. apply (bool_decide_unpack _). by vm_compute. Qed.

(** C8 (as amended): for every document and canonical key, the value
    extracted under the key is the parsed value of the last element, in
    document order, whose raw name maps to the key and whose value
    attribute is present and parses as a number (the key is not extracted
    when there is no such element).  The elements are visited once, front
    to back, and the table is only looked up by name: writing the entries
    of [FIELD_MAP] in any other order [entries] changes nothing in what
    the extractor returns. *)
Theorem last_usable_element_wins
    (py_float : string → option Q) (epoch_of_isoformat : string → option Z)
    (entries : list (string * string)) (root : document) (k : string) :
  entries ≡ₚ FIELD_MAP →
  collect_fields py_float (dict_of entries) (elements root) !! k
  = last (omap (contribution py_float (dict_of FIELD_MAP) k) (elements root))
  ∧ parse_and_collect_fields py_float epoch_of_isoformat (dict_of entries) root
    = parse_and_collect_fields py_float epoch_of_isoformat (dict_of FIELD_MAP)
        root
  ∧ (∀ id ts fields,
       parse_and_collect_fields py_float epoch_of_isoformat (dict_of entries)
         root = Returns (Some (id, ts, fields)) →
       fields !! k
       = last (omap (contribution py_float (dict_of FIELD_MAP) k)
                 (elements root))).
Proof.
  intros Hperm.
  rewrite <- (dict_of_Permutation FIELD_MAP entries FIELD_MAP_NoDup)
    by done.
  split; [apply collect_fields_lookup|]. split; [done|].
  intros id ts fields. unfold parse_and_collect_fields.
  destruct (timePosition root) as [[s|]|]; [|done..].
  destruct (String.eqb s ""); [done|].
  destruct (epoch_of_isoformat s); [|done].
  destruct (resolve_buoy_id (elements root)); [|done].
  case_decide; [done|]. intros [= _ _ <-]. apply collect_fields_lookup.
Qed.

End field_map_facts.

(** ** What reaches the table, and the second extractor *)

Section stored_fields_facts.
Import Py Store Ingest.

Variable py_float : string → option Q.
Variable epoch_of_isoformat : string → option Z.

Lemma new_row_cols_list (fv : gmap string Q) (l : list string) (c : string) :
  (list_to_map
     (omap (λ c, (c,.) <$> fv !! c) (filter (λ c, is_Some (fv !! c)) l))
   : gmap string Q) !! c
  = if decide (c ∈ l) then fv !! c else None.
Proof.
  induction l as [|x l IH]; [done|].
  rewrite filter_cons.
  destruct (fv !! x) as [v|] eqn:Hv.
  - rewrite decide_True by by eexists.
    cbn [omap list_omap]. rewrite Hv.
    cbn [fmap option_fmap option_map list_to_map foldr].
    destruct (decide (c = x)) as [->|Hne].
    + rewrite lookup_insert_eq, decide_True by by left. done.
    + rewrite lookup_insert_ne by done. rewrite IH.
      destruct (decide (c ∈ l)) as [Hin|Hnin].
      * by rewrite decide_True by by right.
      * by rewrite decide_False by (by intros [?|?]%elem_of_cons).
  - rewrite decide_False by (by intros [? ?]).
    rewrite IH. destruct (decide (c ∈ l)) as [Hin|Hnin].
    + by rewrite decide_True by by right.
    + destruct (decide (c = x)) as [->|Hne].
      * by rewrite decide_True by by left.
      * by rewrite decide_False by (by intros [?|?]%elem_of_cons).
Qed.

Lemma FIELD_MAP_targets :
  map_Forall (λ _ k, k ∈ EXPECTED_FIELDS) (dict_of FIELD_MAP).
Proof. by_compute. Qed.

(** Every key the extractor can produce is a column [insert_sqlite]
    knows. *)
Lemma collect_fields_keys (es : list element) (k : string) :
  is_Some (collect_fields py_float (dict_of FIELD_MAP) es !! k) →
  k ∈ EXPECTED_FIELDS.
Proof.
  rewrite collect_fields_lookup. intros [v Hlast].
  apply last_Some_elem_of, list_elem_of_omap in Hlast as (e & _ & Hc).
  unfold contribution in Hc. case_decide as Hm; [|done].
  unfold maps_to in Hm. destruct (e_name e) as [n|]; [|done].
  cbn in Hm. by apply (FIELD_MAP_targets n k).
Qed.

(** X4: nothing the extractor finds is lost on the way into the table.
    The row built from an extracted observation has the extracted station
    id and time as its key and holds exactly the extracted metrics: every
    extracted key is one of the expected columns.  In general the row
    holds an offered field iff its key is an expected column. *)
Theorem stored_row_holds_the_extracted_fields
    (root : document) (id : string) (ts : Z) (fields : gmap string Q)
    (src : string) :
  parse_and_collect_fields py_float epoch_of_isoformat (dict_of FIELD_MAP)
    root = Returns (Some (id, ts, fields)) →
  key (new_row id ts fields src) = (id, ts)
  ∧ cols (new_row id ts fields src) = fields
  ∧ fields ≠ ∅
  ∧ source_file (new_row id ts fields src) = src
  ∧ (∀ fv c, cols (new_row id ts fv src) !! c
             = if decide (c ∈ EXPECTED_FIELDS) then fv !! c else None).
Proof.
  intros Hparse.
  assert (Hgen : ∀ fv c, cols (new_row id ts fv src) !! c
                         = if decide (c ∈ EXPECTED_FIELDS) then fv !! c
                           else None).
  { intros fv c. apply new_row_cols_list. }
  assert (Hfields : fields
                    = collect_fields py_float (dict_of FIELD_MAP)
                        (elements root) ∧ fields ≠ ∅).
  { revert Hparse. unfold parse_and_collect_fields.
    destruct (timePosition root) as [[s|]|]; [|done..].
    destruct (String.eqb s ""); [done|].
    destruct (epoch_of_isoformat s); [|done].
    destruct (resolve_buoy_id (elements root)); [|done].
    case_decide; [done|]. by intros [= _ _ <-]. }
  destruct Hfields as [Hfields Hne].
  split_and!; [done| |done|done|done].
  apply map_eq. intros c. rewrite Hgen.
  destruct (decide (c ∈ EXPECTED_FIELDS)) as [Hin|Hnin]; [done|].
  destruct (fields !! c) eqn:Hc; [|done].
  exfalso. apply Hnin, (collect_fields_keys (elements root)).
  rewrite <- Hfields. by eexists.
Qed.

(** *** The Influx-only extractor against the SQLite one *)

(** Writing an entry a second time, later in the display, changes
    nothing. *)
Lemma dict_of_repeated_entry (l1 l2 : list (string * string)) k v :
  NoDup l1.*1 → (k, v) ∈ l1 →
  dict_of (l1 ++ (k, v) :: l2) = dict_of (l1 ++ l2).
Proof.
  intros Hnd Hin. unfold dict_of. rewrite !foldl_app. cbn [foldl fst snd].
  fold (dict_of l1). rewrite insert_id; [done|].
  rewrite dict_of_list_to_map. apply elem_of_list_to_map_1.
  - by rewrite fmap_reverse, reverse_Permutation.
  - by rewrite reverse_Permutation.
Qed.

Lemma influx_field_map_same_dict :
  dict_of InfluxOnly.field_map = dict_of FIELD_MAP.
Proof.
  transitivity
    (dict_of (take 15 FIELD_MAP
              ++ ("max_avg_wnd_spd_pst10mts", "wind_gust")
                 :: drop 15 FIELD_MAP)); [done|].
  rewrite dict_of_repeated_entry; [by rewrite take_drop|by_compute..].
Qed.

Lemma influx_collect_step_agrees fields e :
  py_float "" = None →
  InfluxOnly.collect_step py_float fields e
  = collect_step py_float (dict_of FIELD_MAP) fields e.
Proof.
  intros Hempty. unfold InfluxOnly.collect_step, collect_step.
  rewrite influx_field_map_same_dict.
  destruct (e_name e) as [n|], (e_value e) as [v|]; try done.
  destruct (dict_of FIELD_MAP !! n); [|done]. cbn [truthy].
  destruct (String.eqb_spec v "") as [->|Hv]; cbn [negb]; [|done].
  by rewrite Hempty.
Qed.

Lemma both_extractors_fields_aux (es : list element) :
  py_float "" = None →
  InfluxOnly.collect_fields py_float es
  = collect_fields py_float (dict_of FIELD_MAP) es.
Proof.
  intros Hempty. unfold InfluxOnly.collect_fields, collect_fields.
  generalize (∅ : gmap string Q).
  induction es as [|e es IH]; intros fields; [done|].
  cbn [foldl]. by rewrite influx_collect_step_agrees, IH.
Qed.

(** X10: both ingestion scripts extract the same metrics.  Although the
    Influx-only script writes its mapping table with one entry twice and
    tests a value for truth rather than for [None], on every document its
    field loop yields the same dictionary as the SQLite script's, given
    that [float] rejects the empty string. *)
Theorem both_extractors_collect_the_same_fields (es : list element) :
  py_float "" = None →
  InfluxOnly.collect_fields py_float es
  = collect_fields py_float (dict_of FIELD_MAP) es
  ∧ (∀ k v, InfluxOnly.collect_fields py_float es !! k = Some v →
            k ∈ EXPECTED_FIELDS).
Proof.
  intros Hempty. split; [by apply both_extractors_fields_aux|].
  intros k v Hk. apply (collect_fields_keys es).
  rewrite <- both_extractors_fields_aux by done. by eexists.
Qed.

Lemma influx_find_buoy_id_agrees es syn :
  InfluxOnly.ids_well_formed es →
  InfluxOnly.find_buoy_id es syn = find_buoy_id es syn.
Proof.
  intros Hwf. revert syn.
  induction Hwf as [|e es He _ IH]; intros syn; [done|].
  cbn [InfluxOnly.find_buoy_id find_buoy_id].
  case_bool_decide as Hext.
  { by rewrite He by by left. }
  cbn [andb]. case_bool_decide as Hsyn; [|apply IH].
  rewrite He by by right. apply IH.
Qed.

Lemma resolve_buoy_id_truthy es id :
  resolve_buoy_id es = Some id → truthy (Some id) = true.
Proof.
  unfold resolve_buoy_id.
  pose proof (find_buoy_id_fst es None) as Hfst.
  pose proof (find_buoy_id_snd es None) as Hsnd.
  destruct (find_buoy_id es None) as [b s]. cbn [fst snd] in *.
  destruct (truthy b) eqn:Hb; [by intros ->|].
  intros ->.
  destruct (head (filter IngestMore.usable_extnd es)) as [e|] eqn:Hhead.
  - cbn in Hfst. subst b.
    apply head_Some_elem_of, list_elem_of_filter in Hhead as [He _].
    unfold IngestMore.usable_extnd in He.
    apply Is_true_true, andb_true_iff in He as [_ He]. congruence.
  - specialize (Hsnd eq_refl).
    destruct (last (filter IngestMore.usable_synop es)) as [e|] eqn:Hlast;
      [|done].
    apply last_Some_elem_of, list_elem_of_filter in Hlast as [He _].
    unfold IngestMore.usable_synop in He.
    apply Is_true_true, andb_true_iff in He as [_ He]. congruence.
Qed.

(** X11: on well-formed documents both ingestion scripts extract the same
    observation.  If the timestamp element, when present, has a non-empty
    text, every station-identifier element has a non-empty value, and
    [float] rejects the empty string, the Influx-only extractor raises,
    returns nothing or builds its point exactly as the SQLite extractor
    does. *)
Theorem both_extractors_agree_on_well_formed_documents (root : document) :
  py_float "" = None →
  InfluxOnly.ids_well_formed (elements root) →
  timePosition root ≠ Some None → timePosition root ≠ Some (Some "") →
  InfluxOnly.parse_and_write_xml py_float epoch_of_isoformat root
  = parse_and_collect_fields py_float epoch_of_isoformat (dict_of FIELD_MAP)
      root.
Proof.
  intros Hempty Hwf Htext Hnonempty.
  unfold InfluxOnly.parse_and_write_xml, parse_and_collect_fields.
  destruct (timePosition root) as [[s|]|]; [|done..].
  destruct (String.eqb_spec s "") as [->|Hs]; [done|].
  destruct (epoch_of_isoformat s) as [ts|]; [|done].
  rewrite both_extractors_fields_aux by done.
  assert (Hid : InfluxOnly.resolve_buoy_id (elements root)
                = resolve_buoy_id (elements root)).
  { unfold InfluxOnly.resolve_buoy_id, resolve_buoy_id.
    by rewrite influx_find_buoy_id_agrees. }
  rewrite Hid.
  destruct (resolve_buoy_id (elements root)) as [id|] eqn:Hres; [|done].
  rewrite (resolve_buoy_id_truthy _ _ Hres). by case_decide.
Qed.

End stored_fields_facts.

(** ** Compass labels *)

Section cardinal_facts.
Import Snapshot.
Local Open Scope Q_scope.

(** Floor of a quotient by a positive constant, as a pair of bounds. *)
Lemma Qfloor_div_bounds (x c : Q) :
  0 < c →
  inject_Z (Qfloor (x / c)) * c <= x
  ∧ x < (inject_Z (Qfloor (x / c)) + 1) * c.
Proof.
  intros Hc.
  assert (Hx : x == (x / c) * c) by (field; lra).
  pose proof (Qfloor_le (x / c)) as Hlo.
  pose proof (Qlt_floor (x / c)) as Hhi.
  rewrite inject_Z_plus in Hhi. change (inject_Z 1) with 1 in Hhi.
  split.
  - rewrite Hx at 2. apply Qmult_le_compat_r; lra.
  - rewrite Hx at 1. apply Qmult_lt_compat_r; lra.
Qed.

Lemma mod360_range (d : Q) : 0 <= mod360 d ∧ mod360 d < 360.
Proof.
  unfold mod360.
  destruct (Qfloor_div_bounds d 360) as [H1 H2]; [lra|]. lra.
Qed.

(** The bucket index before wrapping lies in 0..16; 16 is reached from
    348.75 degrees on, which is why the index is wrapped. *)
Lemma bucket_index_range (d : Q) :
  (0 ≤ Qfloor ((mod360 d + 11.25) / 22.5) ≤ 16)%Z.
Proof.
  destruct (mod360_range d) as [Hlo Hhi].
  destruct (Qfloor_div_bounds (mod360 d + 11.25) 22.5) as [H1 H2]; [lra|].
  set (k := Qfloor ((mod360 d + 11.25) / 22.5)) in *.
  split.
  - assert (Hk : inject_Z (-1) < inject_Z k)
      by (change (inject_Z (-1)) with (-1); lra).
    rewrite <- Zlt_Qlt in Hk. lia.
  - assert (Hk : inject_Z k < inject_Z 17)
      by (change (inject_Z 17) with 17; lra).
    rewrite <- Zlt_Qlt in Hk. lia.
Qed.

(** The floor is the only integer within one below its argument. *)
Lemma Qfloor_unique (x : Q) (n : Z) :
  inject_Z n <= x → x < inject_Z n + 1 → Qfloor x = n.
Proof.
  intros Hlo Hhi.
  pose proof (Qfloor_le x) as Hfl. pose proof (Qlt_floor x) as Hfu.
  rewrite inject_Z_plus in Hfu. change (inject_Z 1) with 1 in Hfu.
  assert (H1 : inject_Z (Qfloor x) < inject_Z (n + 1)).
  { rewrite inject_Z_plus. change (inject_Z 1) with 1. lra. }
  assert (H2 : inject_Z n < inject_Z (Qfloor x + 1)).
  { rewrite inject_Z_plus. change (inject_Z 1) with 1. lra. }
  rewrite <- Zlt_Qlt in H1, H2. lia.
Qed.

Lemma Qfloor_div_unique (x c : Q) (n : Z) :
  0 < c → inject_Z n * c <= x → x < (inject_Z n + 1) * c →
  Qfloor (x / c) = n.
Proof.
  intros Hc Hlo Hhi. apply Qfloor_unique.
  - apply Qle_shift_div_l; [done|]. lra.
  - apply Qlt_shift_div_r; [done|]. lra.
Qed.

(** Whole and quarter degrees: the remainder is that of the integer
    number of quarter degrees. *)
Lemma mod360_quarter (q : Z) :
  4 * mod360 (inject_Z q / 4) == inject_Z (q mod 1440).
Proof.
  unfold mod360.
  assert (Hdiv : (1440 * (q / 1440) ≤ q < 1440 * (q / 1440) + 1440)%Z)
    by (Z.div_mod_to_equations; lia).
  assert (Hlo : inject_Z (1440 * (q / 1440)) <= inject_Z q)
    by (rewrite <- Zle_Qle; lia).
  assert (Hhi : inject_Z q < inject_Z (1440 * (q / 1440) + 1440))
    by (rewrite <- Zlt_Qlt; lia).
  rewrite inject_Z_plus, inject_Z_mult in Hhi. rewrite inject_Z_mult in Hlo.
  change (inject_Z 1440) with 1440 in Hlo, Hhi.
  assert (Hfloor : Qfloor (inject_Z q / 4 / 360) = (q / 1440)%Z).
  { apply Qfloor_div_unique; [lra| |].
    - apply Qle_shift_div_l; lra.
    - apply Qlt_shift_div_r; lra. }
  rewrite Hfloor.
  replace (q mod 1440)%Z with (q + - (1440 * (q / 1440)))%Z
    by (Z.div_mod_to_equations; lia).
  rewrite inject_Z_plus, inject_Z_opp, inject_Z_mult.
  change (inject_Z 1440) with 1440. field.
Qed.

(** C3 (as amended): for every degree value given in whole or quarter
    degrees, [q] quarters say (such a value is a double, and on it the
    remainder, the sum and the floor division of the code are exact), the
    label is the entry of [DIRS_16] at index [k mod 16], where [k] is the
    floor of (d mod 360 + 11.25) / 22.5, i.e. the 22.5-degree bucket that
    holds the value shifted by the half-bucket offset 11.25; in quarter
    degrees, [k] = (q mod 1440 + 45) div 90.  [k] ranges over 0..16 and
    the label always exists.  In particular 0 maps to N, 90 to E, 359 to
    N and 100 to E. *)
Theorem degrees_to_cardinal_buckets :
  (∀ q : Z, (Z.abs q ≤ 2 ^ 53)%Z →
     let d := inject_Z q / 4 in
     let k := ((q mod 1440 + 45) / 90)%Z in
     (0 ≤ k ≤ 16)%Z
     ∧ 4 * mod360 d == inject_Z (q mod 1440)
     ∧ 22.5 * inject_Z k <= mod360 d + 11.25
     ∧ mod360 d + 11.25 < 22.5 * (inject_Z k + 1)
     ∧ degrees_to_cardinal (Some d) = DIRS_16 !! Z.to_nat (k mod 16)
     ∧ is_Some (degrees_to_cardinal (Some d)))
  ∧ degrees_to_cardinal (Some 0) = Some "N"%string
  ∧ degrees_to_cardinal (Some 90) = Some "E"%string
  ∧ degrees_to_cardinal (Some 359) = Some "N"%string
  ∧ degrees_to_cardinal (Some 100) = Some "E"%string.
Proof.
  split; [|by vm_compute].
  intros q _ d k.
  pose proof (mod360_quarter q) as Hmod. fold d in Hmod.
  assert (Hk : (90 * k ≤ q mod 1440 + 45 < 90 * k + 90)%Z)
    by (subst k; Z.div_mod_to_equations; lia).
  assert (Hrange : (0 ≤ k ≤ 16)%Z)
    by (subst k; Z.div_mod_to_equations; lia).
  assert (Hlo : inject_Z (90 * k) <= inject_Z (q mod 1440 + 45))
    by (rewrite <- Zle_Qle; lia).
  assert (Hhi : inject_Z (q mod 1440 + 45) < inject_Z (90 * k + 90))
    by (rewrite <- Zlt_Qlt; lia).
  rewrite (inject_Z_plus (q mod 1440) 45) in Hlo, Hhi.
  rewrite (inject_Z_plus (90 * k) 90) in Hhi.
  rewrite (inject_Z_mult 90 k) in Hlo, Hhi.
  change (inject_Z 90) with 90 in Hlo, Hhi.
  change (inject_Z 45) with 45 in Hlo, Hhi.
  assert (Hbucket : Qfloor ((mod360 d + 11.25) / 22.5) = k)
    by (apply Qfloor_div_unique; lra).
  split; [exact Hrange|]. split; [exact Hmod|].
  split; [lra|]. split; [lra|].
  unfold degrees_to_cardinal. cbv zeta. fold d. rewrite Hbucket.
  split; [reflexivity|].
  apply lookup_lt_is_Some. change (length DIRS_16) with 16%nat.
  pose proof (Z.mod_pos_bound k 16). lia.
Qed.

(** C3, as stated, fails at 100 degrees: 100 + 11.25 = 111.25 lies in
    bucket 4 (90 .. 112.5), whose label is E, not ESE. *)
Lemma degrees_to_cardinal_100_is_not_ESE :
  degrees_to_cardinal (Some 100) = Some "E"%string
  ∧ degrees_to_cardinal (Some 100) ≠ Some "ESE"%string.
Proof. split; [by vm_compute | by vm_compute]. Qed.

End cardinal_facts.
(** ** The compass rose as a whole *)

Section rose_facts.
Import Snapshot.
Local Open Scope Q_scope.

(** The bucket a bearing falls into, named by any integer [k] whose
    sector, moved by whole turns, holds the bearing. *)
Lemma sector_label (d : Q) (k : Z) :
  22.5 * inject_Z k - 11.25 <= d → d < 22.5 * inject_Z k + 11.25 →
  degrees_to_cardinal (Some d) = DIRS_16 !! Z.to_nat (k mod 16).
Proof.
  intros Hlo Hhi. unfold degrees_to_cardinal. cbv zeta.
  set (m := Qfloor (d / 360)).
  assert (Hidx : Qfloor ((mod360 d + 11.25) / 22.5) = (k + - (16 * m))%Z).
  { apply Qfloor_div_unique; [lra|..]; unfold mod360; fold m;
      rewrite inject_Z_plus, inject_Z_opp, inject_Z_mult;
      change (inject_Z 16) with 16; lra. }
  rewrite Hidx. do 2 f_equal.
  replace (k + - (16 * m))%Z with (k + (- m) * 16)%Z by lia.
  by rewrite Z.mod_add.
Qed.

(** X17: on whole and quarter degrees, each label covers the 22.5-degree
    sector centred on its compass point, lower edge included and upper
    edge excluded, on every turn of the circle.  For every integer [k], a
    bearing of [q] quarter degrees with 22.5 k - 11.25 <= q / 4 <
    22.5 k + 11.25, that is 90 k - 45 <= q < 90 k + 45, gets the label at
    index [k mod 16]; so do in particular negative bearings and bearings
    of 360 and more.  (Between two quarter degrees next to a sector edge
    the double sum of the code can round onto the edge.) *)
Theorem degrees_to_cardinal_sectors (q k : Z) :
  (Z.abs q ≤ 2 ^ 53)%Z →
  (90 * k - 45 ≤ q < 90 * k + 45)%Z →
  22.5 * inject_Z k - 11.25 <= inject_Z q / 4
  ∧ inject_Z q / 4 < 22.5 * inject_Z k + 11.25
  ∧ degrees_to_cardinal (Some (inject_Z q / 4))
    = DIRS_16 !! Z.to_nat (k mod 16)
  ∧ is_Some (DIRS_16 !! Z.to_nat (k mod 16)).
Proof.
  intros _ [Hlo Hhi].
  assert (Hlo' : inject_Z (90 * k + - 45) <= inject_Z q)
    by (rewrite <- Zle_Qle; lia).
  assert (Hhi' : inject_Z q < inject_Z (90 * k + 45))
    by (rewrite <- Zlt_Qlt; lia).
  rewrite (inject_Z_plus (90 * k) (- 45)) in Hlo'.
  rewrite (inject_Z_plus (90 * k) 45) in Hhi'.
  rewrite (inject_Z_mult 90 k) in Hlo', Hhi'.
  change (inject_Z 90) with 90 in Hlo', Hhi'.
  change (inject_Z 45) with 45 in Hhi'.
  change (inject_Z (-45)) with (-45) in Hlo'.
  assert (H1 : 22.5 * inject_Z k - 11.25 <= inject_Z q / 4)
    by (apply Qle_shift_div_l; lra).
  assert (H2 : inject_Z q / 4 < 22.5 * inject_Z k + 11.25)
    by (apply Qlt_shift_div_r; lra).
  split; [exact H1|]. split; [exact H2|].
  split; [by apply sector_label|].
  apply lookup_lt_is_Some. change (length DIRS_16) with 16%nat.
  pose proof (Z.mod_pos_bound k 16). lia.
Qed.

(** X18: the label only depends on the bearing modulo a full turn, and
    every sector is reached: adding any whole number of turns to a
    bearing leaves its label unchanged, and each of the sixteen labels is
    the label of its own compass point 22.5 i. *)
Theorem degrees_to_cardinal_periodic :
  (∀ (d : Q) (n : Z),
     degrees_to_cardinal (Some (d + 360 * inject_Z n))
     = degrees_to_cardinal (Some d))
  ∧ (∀ (i : nat) (c : string),
       DIRS_16 !! i = Some c →
       degrees_to_cardinal (Some (22.5 * inject_Z (Z.of_nat i))) = Some c).
Proof.
  split.
  - intros d n.
    destruct (Qfloor_div_bounds (d + 11.25) 22.5) as [Hlo Hhi]; [lra|].
    set (k := Qfloor ((d + 11.25) / 22.5)) in *.
    rewrite (sector_label d k) by lra.
    rewrite (sector_label (d + 360 * inject_Z n)
               (k + 16 * n)).
    + do 2 f_equal. replace (k + 16 * n)%Z with (k + n * 16)%Z by lia.
      by rewrite Z.mod_add.
    + rewrite inject_Z_plus, inject_Z_mult. change (inject_Z 16) with 16.
      lra.
    + rewrite inject_Z_plus, inject_Z_mult. change (inject_Z 16) with 16.
      lra.
  - intros i c Hc.
    rewrite (sector_label _ (Z.of_nat i)) by lra.
    apply lookup_lt_Some in Hc as Hlt.
    change (length DIRS_16) with 16%nat in Hlt.
    rewrite Z.mod_small by lia. by rewrite Nat2Z.id.
Qed.

End rose_facts.

(** ** The storm-surge fetcher *)

Section surge_facts.
Import StormSurge.

Variable py_round : Q → Z → Q.

(** *** The time list *)

Lemma grow_time_list_progression (n : nat) :
  ∀ (fuel : nat) (last end_time step : Z),
    end_time ≤ last + step * Z.of_nat n →
    (∀ i : nat, (i < n)%nat → last + step * Z.of_nat i < end_time) →
    (n ≤ fuel)%nat →
    grow_time_list fuel last end_time step
    = Some ((λ i : nat, last + step * Z.of_nat i) <$> seq 1 n).
Proof.
  induction n as [|n IH]; intros fuel last end_time step Hend Hbefore Hfuel.
  - assert (¬ last < end_time) by lia.
    destruct fuel; cbn; by rewrite decide_False.
  - destruct fuel as [|fuel]; [lia|].
    assert (Hlt : last < end_time).
    { specialize (Hbefore 0%nat). lia. }
    cbn [grow_time_list]. rewrite decide_True by done.
    rewrite (IH fuel (last + step) end_time step); [|lia| |lia].
    + cbn [fmap option_fmap option_map seq list_fmap].
      do 2 f_equal; [lia|].
      rewrite <- (fmap_S_seq 1), <- list_fmap_compose.
      apply list_fmap_ext. intros _ i _. cbn. lia.
    + intros i Hi. specialize (Hbefore (S i)). lia.
Qed.

Lemma grow_time_list_diverges (fuel : nat) :
  ∀ last end_time step,
    step ≤ 0 → last < end_time →
    grow_time_list fuel last end_time step = None.
Proof.
  induction fuel as [|fuel IH]; intros last end_time step Hstep Hlt; cbn.
  - by rewrite decide_True.
  - rewrite decide_True by done. rewrite IH; [done|done|lia].
Qed.

(** The number of steps the loop takes for a positive step. *)
Lemma steps_to_cover (start_time end_time step : Z) :
  0 < step →
  ∃ n : nat,
    end_time ≤ start_time + step * Z.of_nat n
    ∧ ∀ i : nat, (i < n)%nat → start_time + step * Z.of_nat i < end_time.
Proof.
  intros Hstep.
  set (c := (end_time - start_time + step - 1) / step).
  pose proof (Z.mul_div_le (end_time - start_time + step - 1) step Hstep)
    as Hlo.
  pose proof (Z.mul_succ_div_gt (end_time - start_time + step - 1) step
                Hstep) as Hhi.
  fold c in Hlo, Hhi.
  exists (Z.to_nat c). split.
  - destruct (decide (0 ≤ c)); [rewrite Z2Nat.id by done; nia|].
    replace (Z.to_nat c) with 0%nat by lia. nia.
  - intros i Hi. nia.
Qed.

(** X23: with a positive interval the loop building [time_list] ends,
    and the list is the arithmetic progression from the start of the
    forecast period in steps of the interval, up to and including the
    first time that is not before the end of the period: all times but
    the last are before the end, and no time is repeated. *)
Theorem time_list_is_the_progression_covering_the_period
    (start_time end_time interval : Z) :
  0 < interval →
  ∃ n : nat,
    end_time ≤ start_time + 3600 * interval * Z.of_nat n
    ∧ (∀ i : nat, (i < n)%nat →
                  start_time + 3600 * interval * Z.of_nat i < end_time)
    ∧ ∀ fuel, (n ≤ fuel)%nat →
        ∃ l, build_time_list fuel start_time end_time interval = Some l
             ∧ l = (λ i : nat, start_time + 3600 * interval * Z.of_nat i)
                     <$> seq 0 (S n)
             ∧ NoDup l.
Proof.
  intros Hint.
  destruct (steps_to_cover start_time end_time (3600 * interval))
    as (n & Hend & Hbefore); [lia|].
  exists n. split; [done|]. split; [done|].
  intros fuel Hfuel. eexists. split; [|split; [reflexivity|]].
  - unfold build_time_list.
    rewrite (grow_time_list_progression n) by done.
    cbn [fmap option_fmap option_map seq list_fmap].
    do 2 f_equal. lia.
  - apply NoDup_fmap_2; [|apply NoDup_seq].
    intros i i' Heq. nia.
Qed.

(** X24: for a forecast period that is not empty the loop building
    [time_list] ends if and only if the interval is positive; with an
    interval of zero hours it appends the start time for ever. *)
Theorem time_list_loop_ends_iff_interval_positive
    (start_time end_time interval : Z) :
  start_time < end_time →
  ((∃ fuel l, build_time_list fuel start_time end_time interval = Some l)
   ↔ 0 < interval)
  ∧ (interval ≤ 0 →
     ∀ fuel, build_time_list fuel start_time end_time interval = None).
Proof.
  intros Hperiod.
  assert (Hdiv : interval ≤ 0 →
            ∀ fuel, build_time_list fuel start_time end_time interval
                    = None).
  { intros Hint fuel. unfold build_time_list.
    rewrite grow_time_list_diverges; [done|lia|done]. }
  split; [|done]. split.
  - intros (fuel & l & Hl).
    destruct (decide (0 < interval)) as [|Hnon]; [done|].
    rewrite Hdiv in Hl by lia. done.
  - intros Hint.
    destruct (steps_to_cover start_time end_time (3600 * interval))
      as (n & Hend & Hbefore); [lia|].
    exists n. eexists. unfold build_time_list.
    by rewrite (grow_time_list_progression n).
Qed.

(** *** One station's forecast *)

Lemma fetch_station_forecast_snoc responses tv :
  fetch_station_forecast py_round (responses ++ [tv])
  = fetch_step py_round (fetch_station_forecast py_round responses) tv.
Proof. unfold fetch_station_forecast. by rewrite foldl_app. Qed.

Lemma fetch_keys responses t :
  is_Some (forecast_data (fetch_station_forecast py_round responses) !! t)
  ↔ ∃ v, (t, Some v) ∈ responses.
Proof.
  induction responses as [|[t' o] responses IH] using rev_ind.
  { split; [by intros [? ?]|by intros [? ?%elem_of_nil]]. }
  rewrite fetch_station_forecast_snoc. unfold fetch_step. cbn [fst snd].
  destruct o as [value|]; cbn [forecast_data].
  - destruct (decide (t = t')) as [->|Hne].
    + rewrite lookup_insert_eq. split; [|by eexists].
      intros _. exists value. apply elem_of_app. right. by left.
    + rewrite lookup_insert_ne by done. rewrite IH.
      split; intros [v Hv]; exists v.
      * apply elem_of_app. by left.
      * apply elem_of_app in Hv as [?|[=]%list_elem_of_singleton]; [done|].
        congruence.
  - rewrite IH. split; intros [v Hv]; exists v.
    + apply elem_of_app. by left.
    + by apply elem_of_app in Hv as [?|[=]%list_elem_of_singleton].
Qed.

(** X25: the bookkeeping of [fetch_station_forecast].  Every timestamp
    is counted exactly once, as a success when a value came back and as
    a failure otherwise; the forecast has a key exactly for the
    timestamps with a value; it never has more entries than successes;
    and the station's file is written exactly when some fetch
    succeeded. *)
Theorem fetch_counts_every_timestamp_once
    (responses : list (Z * option Q)) :
  let st := fetch_station_forecast py_round responses in
  (successful st + failed st = length responses)%nat
  ∧ successful st = length (filter (λ tv, is_Some tv.2) responses)
  ∧ (∀ t, is_Some (forecast_data st !! t) ↔ ∃ v, (t, Some v) ∈ responses)
  ∧ (size (forecast_data st) ≤ successful st)%nat
  ∧ (station_saved py_round responses = true ↔ (0 < successful st)%nat).
Proof.
  cbv zeta.
  assert (Hcount : ∀ rs,
            let st := fetch_station_forecast py_round rs in
            (successful st + failed st = length rs)%nat
            ∧ successful st = length (filter (λ tv, is_Some tv.2) rs)
            ∧ (size (forecast_data st) ≤ successful st)%nat).
  { intros rs. cbv zeta.
    induction rs as [|[t o] rs (IH1 & IH2 & IH3)] using rev_ind; [done|].
    rewrite fetch_station_forecast_snoc, length_app, filter_app, length_app.
    unfold fetch_step. cbn [fst snd length].
    rewrite filter_cons, filter_nil. cbn [snd].
    destruct o as [value|]; cbn [forecast_data successful failed].
    - rewrite decide_True by by eexists. cbn [length].
      split_and!; [lia|lia|].
      rewrite map_size_insert.
      destruct (forecast_data _ !! t); unfold id; lia.
    - rewrite decide_False by (by intros [? ?]). cbn [length].
      split_and!; lia. }
  destruct (Hcount responses) as (H1 & H2 & H3).
  split_and!; [done|done|apply fetch_keys|done|].
  unfold station_saved. rewrite bool_decide_eq_true. split.
  - intros (t & v & Hv)%map_choose.
    assert (Hsome : ∃ v, (t, Some v) ∈ responses)
      by (apply fetch_keys; by eexists).
    destruct Hsome as [v' Hin]. rewrite H2.
    assert (Hf : (t, Some v') ∈ filter (λ tv : Z * option Q, is_Some tv.2)
                                  responses)
      by (apply list_elem_of_filter; split; [by eexists|done]).
    destruct (filter _ responses); [by apply elem_of_nil in Hf|].
    cbn. lia.
  - rewrite H2. intros Hpos Hempty.
    destruct (filter (λ tv : Z * option Q, is_Some tv.2) responses)
      as [|[t o] rest] eqn:Hf; [cbn in Hpos; lia|].
    assert (Hin : (t, o) ∈ filter (λ tv : Z * option Q, is_Some tv.2)
                             responses) by (rewrite Hf; by left).
    apply list_elem_of_filter in Hin as [[v Hv] Hin]. cbn in Hv. subst o.
    assert (Hsome : is_Some (forecast_data
                               (fetch_station_forecast py_round responses)
                             !! t)) by (apply fetch_keys; by eexists).
    rewrite Hempty, lookup_empty in Hsome. by destruct Hsome.
Qed.

(** X26: over a time list without repeated timestamps, as the loop in
    [main] builds it, the forecast holds one entry per successful fetch:
    the value fetched for the timestamp, rounded to three decimals. *)
Theorem forecast_holds_each_fetched_value_rounded
    (responses : list (Z * option Q)) :
  NoDup responses.*1 →
  let st := fetch_station_forecast py_round responses in
  size (forecast_data st) = successful st
  ∧ (∀ t v, (t, Some v) ∈ responses →
            forecast_data st !! t = Some (py_round v 3))
  ∧ (∀ t, (t, None) ∈ responses → forecast_data st !! t = None).
Proof.
  cbv zeta.
  induction responses as [|[t o] responses IH] using rev_ind.
  { intros _. split_and!; [done|by intros ?? ?%elem_of_nil
                          |by intros ? ?%elem_of_nil]. }
  rewrite fmap_app, NoDup_app. cbn [fmap list_fmap fst].
  intros (Hnd & Hfresh & _). destruct (IH Hnd) as (IH1 & IH2 & IH3).
  assert (Hnew : ∀ o', (t, o') ∉ responses).
  { intros o' Hin. apply (Hfresh t); [|by left].
    apply list_elem_of_fmap. by exists (t, o'). }
  assert (Hnone : forecast_data (fetch_station_forecast py_round responses)
                  !! t = None).
  { apply eq_None_not_Some. intros [v Hv]%fetch_keys. by apply Hnew in Hv. }
  rewrite fetch_station_forecast_snoc. unfold fetch_step. cbn [fst snd].
  destruct o as [value|]; cbn [forecast_data successful].
  - split_and!.
    + rewrite map_size_insert, Hnone. by rewrite IH1.
    + intros t' v [Hin|[= -> ->]%list_elem_of_singleton]%elem_of_app.
      * rewrite lookup_insert_ne; [by apply IH2|].
        intros <-. by apply Hnew in Hin.
      * by rewrite lookup_insert_eq.
    + intros t' [Hin|[=]%list_elem_of_singleton]%elem_of_app.
      rewrite lookup_insert_ne; [by apply IH3|].
      intros <-. by apply Hnew in Hin.
  - split_and!; [done| |].
    + intros t' v [Hin|[=]%list_elem_of_singleton]%elem_of_app.
      by apply IH2.
    + intros t' [Hin|[= ->]%list_elem_of_singleton]%elem_of_app;
        [by apply IH3|done].
Qed.

End surge_facts.

(** ** Closed instances *)

Section ingest_instances.
Import Py Store Ingest Sample.

(** Instance of C1: [a.xml] and [b.xml] report station 4600146 at
    1704067200 with different wave heights; only the row of [a.xml]
    is kept. *)
Lemma ingest_first_of_conflicting_pair_wins_witness :
  let st2 := foldl sample_step (sample_step empty_state (file "a.xml" doc_a))
               [file "c.xml" doc_c] in
  let st3 := sample_step st2 (file "b.xml" doc_b) in
  db_rows st3 = db_rows st2
  ∧ occurrences ("4600146", 1704067200) (key <$> db_rows st3) = 1%nat
  ∧ ∀ r, r ∈ db_rows st3 → key r = ("4600146", 1704067200) →
         cols r !! "wave_height_sig" = Some 1.5%Q ∧ source_file r = "a.xml".
Proof.
  pose proof (ingest_first_of_conflicting_pair_wins
                sample_float sample_epoch (dict_of FIELD_MAP)
                empty_state (file "a.xml" doc_a) (file "b.xml" doc_b)
                [file "c.xml" doc_c] doc_a doc_b "4600146" 1704067200
                {[ "wave_height_sig" := 1.5%Q ]}
                {[ "wave_height_sig" := 2.5%Q; "wind_speed" := 12%Q ]})
    as H.
  cbv zeta in H.
  destruct H as (_ & Hrows & _ & _ & Hocc & Hfirst & _).
  - apply NoDup_nil_2.
  - apply not_elem_of_empty.
  - reflexivity.
  - by vm_compute.
  - reflexivity.
  - by vm_compute.
  - split; [exact Hrows|]. split; [exact Hocc|].
    intros r Hr Hk. rewrite (Hfirst (not_elem_of_nil _) r Hr Hk).
    split; by vm_compute.
Defined.

(** Instance of C2: [a.xml] listed twice in a first run on an empty
    database and ledger, and once more in a second run. *)
Lemma ingest_twice_one_row_one_ledger_line_witness :
  ∃ res1 res2,
    sample_main [file "a.xml" doc_a; file "a.xml" doc_a] None None
    = Returns res1
    ∧ sample_main [file "a.xml" doc_a] (Some (final_table res1))
        (Some (ledger_text res1)) = Returns res2
    ∧ occurrences ("4600146", 1704067200) (key <$> rows (final_table res2))
      = 1%nat
    ∧ occurrences (path_str "a.xml") (splitlines (ledger_text res2)) = 1%nat
    ∧ path_str "a.xml" ∉ extracted (final_state res2).
Proof.
  destruct (sample_main [file "a.xml" doc_a; file "a.xml" doc_a] None None)
    as [|res1] eqn:Hrun1; [by vm_compute in Hrun1|].
  destruct (ingest_twice_one_row_one_ledger_line
              sample_float sample_epoch (dict_of FIELD_MAP)
              [file "a.xml" doc_a; file "a.xml" doc_a] [file "a.xml" doc_a]
              None None res1 (file "a.xml" doc_a) doc_a "4600146" 1704067200
              {[ "wave_height_sig" := 1.5%Q ]})
    as (_ & _ & res2 & Hrun2 & Hex & Hrow & Hline).
  - exact Hrun1.
  - by left.
  - intros g Hg Hname.
    apply elem_of_cons in Hg as [->|Hg]; [done|].
    by apply list_elem_of_singleton in Hg as ->.
  - reflexivity.
  - by vm_compute.
  - apply not_elem_of_empty.
  - repeat constructor.
  - exists res1, res2. by split_and!.
Defined.

(** Instance of C6 (as amended): [empty.xml] carries no recognised
    metric; after the run its reference is on the ledger and two later
    runs over the same directory leave it alone. *)
Lemma rejected_document_is_marked_processed_witness :
  ∃ res,
    sample_main [file "empty.xml" doc_no_metrics] None None = Returns res
    ∧ path_str "empty.xml" ∈ read_ledger (Some (ledger_text res))
    ∧ ∀ res',
        res' ∈ later_runs sample_float sample_epoch (dict_of FIELD_MAP)
                 [[file "empty.xml" doc_no_metrics];
                  [file "empty.xml" doc_no_metrics]]
                 (Some (final_table res)) (Some (ledger_text res)) →
        path_str "empty.xml" ∉ extracted (final_state res').
Proof.
  destruct (sample_main [file "empty.xml" doc_no_metrics] None None)
    as [|res] eqn:Hrun; [by vm_compute in Hrun|].
  destruct (rejected_document_is_marked_processed
              sample_float sample_epoch (dict_of FIELD_MAP)
              [file "empty.xml" doc_no_metrics] None None res
              (file "empty.xml" doc_no_metrics) doc_no_metrics
              [[file "empty.xml" doc_no_metrics];
               [file "empty.xml" doc_no_metrics]])
    as (Hmarked & _ & Hlater & _).
  - exact Hrun.
  - by left.
  - reflexivity.
  - right. split.
    + exists "2024-01-01T00:00:00Z". split; [done|]. split; [done|].
      by exists 1704067200.
    + right. by vm_compute.
  - repeat constructor.
  - repeat constructor.
  - exists res. split; [done|]. split; [done|].
    intros res' Hres'. by destruct (Hlater res' Hres').
Defined.

(** C6, as stated, fails for an unparsable timestamp: [bad.xml] has the
    timestamp text "yesterday"; the run leaves its reference off the
    ledger, and the next run hands it to the extractor again. *)
Lemma unparsable_timestamp_is_retried :
  timestamp_unparsable sample_epoch doc_bad_time
  ∧ ∃ res1 res2,
      sample_main [file "bad.xml" doc_bad_time] None None = Returns res1
      ∧ (path_str "bad.xml" ∉ read_ledger (Some (ledger_text res1)))
      ∧ sample_main [file "bad.xml" doc_bad_time]
          (Some (final_table res1)) (Some (ledger_text res1)) = Returns res2
      ∧ path_str "bad.xml" ∈ extracted (final_state res2).
Proof.
  split.
  { exists "yesterday". split; [done|]. split; [done | by vm_compute]. }
  destruct (sample_main [file "bad.xml" doc_bad_time] None None)
    as [|res1] eqn:Hrun1; [by vm_compute in Hrun1|].
  destruct (sample_main [file "bad.xml" doc_bad_time]
              (Some (final_table res1)) (Some (ledger_text res1)))
    as [|res2] eqn:Hrun2.
  { vm_compute in Hrun1. injection Hrun1 as <-. by vm_compute in Hrun2. }
  exists res1, res2. split; [done|].
  vm_compute in Hrun1. injection Hrun1 as <-.
  vm_compute in Hrun2. injection Hrun2 as <-.
  split; [|split; [done|]].
  - apply (bool_decide_unpack _). by vm_compute.
  - apply (bool_decide_unpack _). by vm_compute.
Qed.

(** Instance of C8 (as amended): with the table written back to front,
    of the two wave heights 1.5 and 2.5 the later one is extracted. *)
Lemma last_usable_element_wins_witness :
  collect_fields sample_float (dict_of (reverse FIELD_MAP))
    (elements doc_two_values) !! "wave_height_sig" = Some 2.5%Q
  ∧ parse_and_collect_fields sample_float sample_epoch
      (dict_of (reverse FIELD_MAP)) doc_two_values
    = sample_parse doc_two_values.
Proof.
  destruct (last_usable_element_wins sample_float sample_epoch
              (reverse FIELD_MAP) doc_two_values "wave_height_sig")
    as (Hlast & Hsame & _).
  - apply reverse_Permutation.
  - split; [|exact Hsame]. rewrite Hlast. by vm_compute.
Defined.

(** C8, as stated, fails when the last element mapping to the key has no
    usable value: in [doc_two_names] the last element for
    [wave_height_sig] has the value "n/a", which [float] rejects, and the
    value extracted is the 1.5 of the element before it. *)
Lemma last_element_without_number_loses :
  let es := elements doc_two_names in
  let last_such :=
    last (filter (maps_to (dict_of FIELD_MAP) "wave_height_sig") es) in
  last_such = Some (elem "avg_sig_wave_hgt_pst20mts" "n/a")
  ∧ collect_fields sample_float (dict_of FIELD_MAP) es !! "wave_height_sig"
    = Some 1.5%Q
  ∧ collect_fields sample_float (dict_of FIELD_MAP) es !! "wave_height_sig"
    ≠ (last_such ≫= λ e, e_value e ≫= sample_float).
Proof. by vm_compute. Qed.

(** C7 fails on the code: the ledger holds [a.xml]; a run ingests
    [c.xml] and rewrites the ledger with [write_text].  The file is empty
    right after it is opened for writing; a process killed there leaves a
    ledger from which the reference of [a.xml], present before the run,
    is gone. *)
Lemma crash_during_ledger_flush_loses_entries :
  ∃ res,
    sample_main [file "a.xml" doc_a; file "c.xml" doc_c] None
      (Some (path_str "a.xml")) = Returns res
    ∧ flush_states (processed (final_state res))
      !! 0%nat = Some ""
    ∧ last (flush_states (processed (final_state res)))
      = Some (ledger_text res)
    ∧ path_str "a.xml" ∈ read_ledger (Some (path_str "a.xml"))
    ∧ path_str "a.xml" ∈ read_ledger (Some (ledger_text res))
    ∧ (path_str "a.xml" ∉ read_ledger (Some ""))
    ∧ read_ledger (Some "") = ∅.
Proof.
  destruct (sample_main [file "a.xml" doc_a; file "c.xml" doc_c] None
              (Some (path_str "a.xml"))) as [|res] eqn:Hrun;
    [by vm_compute in Hrun|].
  exists res. split; [done|].
  vm_compute in Hrun. injection Hrun as <-.
  split_and!; by vm_compute.
Qed.

End ingest_instances.

Section snapshot_instances.
Import Py Store Snapshot Sample.

(** Instance of C4: the wave sample is included at 59 minutes of
    staleness and omitted at 61 minutes. *)
Lemma snapshot_wave_freshness_witness :
  (∃ j, export_buoy round_half_even table_59 "4600146" "Halibut Bank"
        = Returns (Some j)
        ∧ j !! "wave_height_sig" = Some (JNum 1.5%Q))
  ∧ (∃ j, export_buoy round_half_even table_61 "4600146" "Halibut Bank"
          = Returns (Some j)
          ∧ j !! "wave_height_sig" = None).
Proof.
  split.
  - assert (Hok : match export_buoy round_half_even table_59 "4600146"
                          "Halibut Bank" with
                  | Returns (Some _) => true | _ => false end = true)
      by compute_true.
    destruct (export_buoy round_half_even table_59 "4600146" "Halibut Bank")
      as [|[j|]] eqn:Hexp; [discriminate Hok| |discriminate Hok]. clear Hok.
    exists j. split; [done|].
    destruct (snapshot_wave_freshness round_half_even table_59 "4600146"
                "Halibut Bank" j Hexp) as (obs_time & Hlatest & _ & Hwave).
    assert (Hl : latest_time table_59 "4600146" = Some 1704070740)
      by compute_true.
    assert (Hnw : newest_wave_time table_59 "4600146" = Some 1704067200)
      by compute_true.
    rewrite Hl in Hlatest. injection Hlatest as <-. rewrite Hnw in Hwave.
    destruct Hwave as [_ Hwave]. rewrite decide_True in Hwave by lia.
    destruct Hwave as (wr & Hin & _ & Hw & Hfields & _).
    rewrite (Hfields "wave_height_sig") by by_compute.
    apply elem_of_cons in Hin as [->|Hin]; [done|].
    apply list_elem_of_singleton in Hin as ->. by vm_compute in Hw.
  - assert (Hok : match export_buoy round_half_even table_61 "4600146"
                          "Halibut Bank" with
                  | Returns (Some _) => true | _ => false end = true)
      by compute_true.
    destruct (export_buoy round_half_even table_61 "4600146" "Halibut Bank")
      as [|[j|]] eqn:Hexp; [discriminate Hok| |discriminate Hok]. clear Hok.
    exists j. split; [done|].
    destruct (snapshot_wave_freshness round_half_even table_61 "4600146"
                "Halibut Bank" j Hexp) as (obs_time & Hlatest & _ & Hwave).
    assert (Hl : latest_time table_61 "4600146" = Some 1704070860)
      by compute_true.
    assert (Hnw : newest_wave_time table_61 "4600146" = Some 1704067200)
      by compute_true.
    rewrite Hl in Hlatest. injection Hlatest as <-. rewrite Hnw in Hwave.
    destruct Hwave as [_ Hwave]. rewrite decide_False in Hwave by lia.
    apply Hwave. by_compute.
Defined.

(** Instance of C10: the only wave row in the window has a peak period
    but a null significant wave height; no wave key is exported. *)
Lemma snapshot_wave_fields_need_wave_height_witness :
  ∃ j, export_buoy round_half_even table_null_sig "4600146" "Halibut Bank"
       = Returns (Some j)
       ∧ j !! "wave_period_peak" = None
       ∧ j !! "wave_observation_time" = None.
Proof.
  assert (Hok : match export_buoy round_half_even table_null_sig "4600146"
                        "Halibut Bank" with
                | Returns (Some _) => true | _ => false end = true)
    by compute_true.
  destruct (export_buoy round_half_even table_null_sig "4600146"
              "Halibut Bank")
    as [|[j|]] eqn:Hexp; [discriminate Hok| |discriminate Hok]. clear Hok.
  exists j. split; [done|].
  destruct (snapshot_wave_fields_need_wave_height round_half_even
              table_null_sig "4600146" "Halibut Bank" j Hexp)
    as (obs_time & _ & _ & Hnull & _).
  assert (Hnone : ∀ f, f ∈ WAVE_OUTPUT_KEYS → j !! f = None).
  { apply Hnull. intros r Hin _ _.
    apply elem_of_cons in Hin as [->|Hin]; [done|].
    by apply list_elem_of_singleton in Hin as ->. }
  split; apply Hnone; by_compute.
Defined.

End snapshot_instances.

Section timeseries_instances.
Import Py Store Timeseries Sample.

(** Instance of C5: exported 24 hours after 00:10.  English Bay keeps
    only samples on the hour; Halibut Bank keeps the sample of 00:10,
    which is exactly at the cutoff, and not the one of 00:00, which is
    ten minutes older. *)
Lemma timeseries_downsampling_witness :
  ∃ j,
    build_timeseries round_half_even 1704154200 (Some table_minutes) = Some j
    ∧ (∀ p, p ∈ emitted (stations j) "4600304" "wind_speed" →
            (3600 | time p))
    ∧ {| time := 1704067800; value := round_half_even (12 * 0.539957) 1 |}
      ∈ emitted (stations j) "4600146" "wind_speed"
    ∧ (∀ p, p ∈ emitted (stations j) "4600146" "wind_speed" →
            time p ≠ 1704067200).
Proof.
  assert (Hok : match build_timeseries round_half_even 1704154200
                        (Some table_minutes) with
                | Some _ => true | None => false end = true)
    by compute_true.
  destruct (build_timeseries round_half_even 1704154200 (Some table_minutes))
    as [j|] eqn:Hbuild; [|discriminate Hok]. clear Hok.
  assert (Hcut : py_int (1704154200 - 86400)%Q = 1704067800)
    by compute_true.
  exists j. split; [done|]. split; [|split].
  - destruct (timeseries_downsampling round_half_even 1704154200
                table_minutes j "4600304" "wind_speed" Hbuild)
      as (_ & _ & _ & Honly & _); [by_compute..|].
    intros p Hp. destruct (Honly p Hp) as (r & _ & -> & _ & _ & _ & Hhour).
    apply Hhour. by_compute.
  - destruct (timeseries_downsampling round_half_even 1704154200
                table_minutes j "4600146" "wind_speed" Hbuild)
      as (_ & _ & _ & _ & Hevery & _); [by_compute..|].
    assert (Hpoint : to_point round_half_even "wind_speed"
                       (mk_row "4600146" 1704067800
                          {[ "wind_speed" := 12%Q ]} "e.xml")
                     = {| time := 1704067800;
                          value := round_half_even (12 * 0.539957) 1 |})
      by by vm_compute.
    rewrite <- Hpoint. apply Hevery.
    + do 4 apply list_elem_of_further. apply list_elem_of_here.
    + reflexivity.
    + by eexists.
    + rewrite Hcut. reflexivity.
    + intros Hhf. exfalso. revert Hhf. by_compute.
  - destruct (timeseries_downsampling round_half_even 1704154200
                table_minutes j "4600146" "wind_speed" Hbuild)
      as (_ & _ & _ & Honly & _); [by_compute..|].
    intros p Hp Htime.
    destruct (Honly p Hp) as (r & _ & -> & _ & _ & Hsince & _).
    rewrite Hcut in Hsince. cbn [time to_point] in Htime. lia.
Defined.

(** C5, as stated, fails for a sample dated after the export: exported
    an hour before 00:00, English Bay's sample of 00:00 is emitted
    although it lies outside the 24 hours that end at the export time,
    the query having no upper bound. *)
Lemma timeseries_emits_sample_dated_after_export :
  ∃ j p,
    build_timeseries round_half_even 1704063600 (Some table_minutes) = Some j
    ∧ p ∈ emitted (stations j) "4600304" "wind_speed"
    ∧ (3600 | time p)
    ∧ time p = 1704067200
    ∧ (1704063600 < inject_Z (time p))%Q.
Proof.
  assert (Hok : match build_timeseries round_half_even 1704063600
                        (Some table_minutes) with
                | Some _ => true | None => false end = true)
    by compute_true.
  destruct (build_timeseries round_half_even 1704063600 (Some table_minutes))
    as [j|] eqn:Hbuild; [|discriminate Hok]. clear Hok.
  exists j, (to_point round_half_even "wind_speed"
               (mk_row "4600304" 1704067200 {[ "wind_speed" := 10%Q ]}
                  "a.xml")).
  split; [done|]. split; [|split; [|split; [reflexivity|]]].
  - rewrite (build_timeseries_emitted round_half_even 1704063600
               table_minutes j "4600304" "wind_speed" Hbuild)
      by by_compute.
    rewrite fetch_rows_qualifies. apply list_elem_of_fmap_2.
    rewrite order_asc_Permutation. apply list_elem_of_filter.
    split; [by_compute|apply list_elem_of_here].
  - by_compute.
  - change (1704063600 < inject_Z 1704067200)%Q. reflexivity.
Defined.

(** Instance of C9: a lock 200 seconds old makes the run exit at once; a
    lock 1200 seconds old is cleared and the export is written. *)
Lemma lock_fresh_exits_stale_is_cleared_witness :
  main round_half_even 1704074400 1704074400 (locked_at 1704074200)
  = (locked_at 1704074200, [], Exit1)
  ∧ ∃ fs' ev,
      main round_half_even 1704074400 1704074400 (locked_at 1704073200)
      = (fs', [UnlinkLock; TouchLock] ++ ev ++ [UnlinkLock], Completed)
      ∧ lockfile fs' = None ∧ is_Some (out_path fs').
Proof.
  split.
  - destruct (lock_fresh_exits_stale_is_cleared round_half_even
                1704074400 1704074400 (locked_at 1704074200) 1704074200
                eq_refl) as [Hfresh _].
    apply Hfresh. by vm_compute.
  - destruct (lock_fresh_exits_stale_is_cleared round_half_even
                1704074400 1704074400 (locked_at 1704073200) 1704073200
                eq_refl) as [_ Hstale].
    destruct Hstale as (fs' & ev & Hmain & Hlock & _ & Hout);
      [by vm_compute|].
    exists fs', ev. split; [done|]. split; [done|].
    destruct (build_timeseries round_half_even 1704074400
                (database (locked_at 1704073200))) as [j|] eqn:Hbuild;
      [|by vm_compute in Hbuild].
    destruct Hout as [_ ->]. by eexists.
Defined.

End timeseries_instances.


(** ** Closed instances of the further properties *)

Section more_ingest_instances.
Import Py Store Ingest Sample.

(** Instance of X1: a new database gets exactly the declared columns. *)
Lemma ensure_schema_additive_idempotent_witness :
  ∃ t, ensure_schema None = Returns t
       ∧ rows t = [] ∧ columns t = TABLE_COLUMNS
       ∧ ensure_schema (Some t) = Returns t.
Proof.
  assert (Hok : match ensure_schema None with
                | Returns _ => true | Raises => false end = true)
    by compute_true.
  destruct (ensure_schema None) as [|t] eqn:Hschema; [discriminate Hok|].
  exists t. split; [done|].
  destruct (ensure_schema_additive_idempotent None t Hschema)
    as (Hrows & _ & _ & Hcols & Hagain).
  split; [exact Hrows|]. split; [by apply Hcols|exact Hagain].
Defined.

(** Instance of X3: a [data_avail] element added to the first report
    changes nothing. *)
Lemma unrecognised_elements_are_ignored_witness :
  sample_parse {| timePosition := timePosition doc_a;
                  elements := elements doc_a ++ [elem "data_avail" "100"] |}
  = sample_parse doc_a.
Proof.
  apply (unrecognised_elements_are_ignored sample_float sample_epoch
           (dict_of FIELD_MAP) doc_a
           (elements doc_a ++ [elem "data_avail" "100"])).
  by vm_compute.
Defined.

(** Instance of X4: the row stored for the second report holds its wave
    height and its wind speed. *)
Lemma stored_row_holds_the_extracted_fields_witness :
  ∃ id ts fields,
    sample_parse doc_b = Returns (Some (id, ts, fields))
    ∧ cols (new_row id ts fields "b.xml") = fields
    ∧ fields ≠ ∅.
Proof.
  assert (Hok : match sample_parse doc_b with
                | Returns (Some _) => true | _ => false end = true)
    by compute_true.
  destruct (sample_parse doc_b) as [|[[[id ts] fields]|]] eqn:Hparse;
    [discriminate Hok| |discriminate Hok].
  exists id, ts, fields. split; [done|].
  destruct (stored_row_holds_the_extracted_fields sample_float sample_epoch
              doc_b id ts fields "b.xml" Hparse) as (_ & Hcols & Hne & _).
  by split.
Defined.

(** Instance of X5: a report with an unparsable timestamp between two
    good ones. *)
Lemma failing_file_changes_nothing_witness :
  ∃ res res',
    sample_main [file "a.xml" doc_a; file "bad.xml" doc_bad_time;
                 file "c.xml" doc_c] None None = Returns res
    ∧ sample_main [file "a.xml" doc_a; file "c.xml" doc_c] None None
      = Returns res'
    ∧ final_table res' = final_table res
    ∧ ledger_text res' = ledger_text res.
Proof.
  assert (Hok : match sample_main [file "a.xml" doc_a;
                                   file "bad.xml" doc_bad_time;
                                   file "c.xml" doc_c] None None with
                | Returns _ => true | Raises => false end = true)
    by compute_true.
  destruct (sample_main [file "a.xml" doc_a; file "bad.xml" doc_bad_time;
                         file "c.xml" doc_c] None None)
    as [|res] eqn:Hrun; [discriminate Hok|].
  destruct (failing_file_changes_nothing sample_float sample_epoch
              (dict_of FIELD_MAP) [file "a.xml" doc_a] [file "c.xml" doc_c]
              (file "bad.xml" doc_bad_time) None None res)
    as (res' & Hrun' & Htable & Hledger & _).
  - by vm_compute.
  - exact Hrun.
  - exists res, res'. by split_and!.
Defined.

(** Instance of X6: one report stored and one rejected, on an empty
    ledger. *)
Lemma run_counters_account_for_ledger_witness :
  ∃ res,
    sample_main [file "a.xml" doc_a; file "n.xml" doc_no_metrics] None None
    = Returns res
    ∧ size (processed (final_state res))
      = (size (read_ledger None) + new_count (final_state res)
         + skipped_count (final_state res))%nat.
Proof.
  assert (Hok : match sample_main [file "a.xml" doc_a;
                                   file "n.xml" doc_no_metrics]
                        None None with
                | Returns _ => true | Raises => false end = true)
    by compute_true.
  destruct (sample_main [file "a.xml" doc_a; file "n.xml" doc_no_metrics]
              None None) as [|res] eqn:Hrun; [discriminate Hok|].
  exists res. split; [done|].
  by destruct (run_counters_account_for_ledger sample_float sample_epoch
                 (dict_of FIELD_MAP) _ None None res Hrun) as [Hsize _].
Defined.

(** Instance of X7: the same two reports, run twice. *)
Lemma rerun_changes_nothing_witness :
  ∃ res1 res2,
    sample_main [file "a.xml" doc_a; file "c.xml" doc_c] None None
    = Returns res1
    ∧ sample_main [file "a.xml" doc_a; file "c.xml" doc_c]
        (Some (final_table res1)) (Some (ledger_text res1)) = Returns res2
    ∧ rows (final_table res2) = rows (final_table res1)
    ∧ new_count (final_state res2) = 0%nat.
Proof.
  assert (Hok : match sample_main [file "a.xml" doc_a; file "c.xml" doc_c]
                        None None with
                | Returns _ => true | Raises => false end = true)
    by compute_true.
  destruct (sample_main [file "a.xml" doc_a; file "c.xml" doc_c] None None)
    as [|res1] eqn:Hrun; [discriminate Hok|].
  destruct (rerun_changes_nothing sample_float sample_epoch
              (dict_of FIELD_MAP) _ None None res1 Hrun)
    as (res2 & Hrun2 & Hrows & Hnew & _).
  - repeat constructor.
  - exists res1, res2. by split_and!.
Defined.

(** Instance of X8: a ledger that lists an older file, and one new
    report. *)
Lemma ledger_is_append_only_witness :
  ∃ res,
    sample_main [file "a.xml" doc_a] None (Some (path_str "z.xml"))
    = Returns res
    ∧ occurrences (path_str "z.xml") (splitlines (ledger_text res)) = 1%nat.
Proof.
  assert (Hok : match sample_main [file "a.xml" doc_a] None
                        (Some (path_str "z.xml")) with
                | Returns _ => true | Raises => false end = true)
    by compute_true.
  destruct (sample_main [file "a.xml" doc_a] None (Some (path_str "z.xml")))
    as [|res] eqn:Hrun; [discriminate Hok|].
  exists res. split; [done|].
  destruct (ledger_is_append_only sample_float sample_epoch
              (dict_of FIELD_MAP) _ None (path_str "z.xml") res Hrun)
    as (Hkept & _ & _).
  - repeat constructor.
  - apply Hkept; [by vm_compute | by_compute].
Defined.

(** Instance of X9: a run on a table that already holds two rows. *)
Lemma run_only_appends_rows_witness :
  ∃ res added,
    sample_main [file "c.xml" doc_c] (Some table_59) None = Returns res
    ∧ rows (final_table res) = rows table_59 ++ added.
Proof.
  assert (Hok : match sample_main [file "c.xml" doc_c] (Some table_59)
                        None with
                | Returns _ => true | Raises => false end = true)
    by compute_true.
  destruct (sample_main [file "c.xml" doc_c] (Some table_59) None)
    as [|res] eqn:Hrun; [discriminate Hok|].
  destruct (run_only_appends_rows sample_float sample_epoch
              (dict_of FIELD_MAP) _ table_59 None res Hrun)
    as (added & Hrows & _).
  by exists res, added.
Defined.

(** Instance of X10: the elements of the second report. *)
Lemma both_extractors_collect_the_same_fields_witness :
  InfluxOnly.collect_fields sample_float (elements doc_b)
  = collect_fields sample_float (dict_of FIELD_MAP) (elements doc_b).
Proof.
  by destruct (both_extractors_collect_the_same_fields sample_float
                 (elements doc_b) eq_refl) as [Heq _].
Defined.

(** Instance of X11: the first report. *)
Lemma both_extractors_agree_on_well_formed_documents_witness :
  InfluxOnly.parse_and_write_xml sample_float sample_epoch doc_a
  = sample_parse doc_a.
Proof.
  apply (both_extractors_agree_on_well_formed_documents sample_float
           sample_epoch doc_a eq_refl).
  - repeat (constructor; [by intros _|]). constructor.
  - done.
  - done.
Defined.

End more_ingest_instances.

Section more_snapshot_instances.
Import Py Store Snapshot Sample.

(** Instance of X12: Halibut Bank's wind speed of 12 km/h, from the
    newer of its two rows, is exported in knots. *)
Lemma snapshot_realtime_fields_from_latest_row_witness :
  ∃ j, export_buoy round_half_even table_59 "4600146" "Halibut Bank"
       = Returns (Some j)
       ∧ j !! "name" = Some (JStr "Halibut Bank")
       ∧ j !! "wind_speed"
         = Some (JNum (kmh_to_knots round_half_even 12))
       ∧ j !! "air_temp" = None.
Proof.
  assert (Hok : match export_buoy round_half_even table_59 "4600146"
                        "Halibut Bank" with
                | Returns (Some _) => true | _ => false end = true)
    by compute_true.
  destruct (export_buoy round_half_even table_59 "4600146" "Halibut Bank")
    as [|[j|]] eqn:Hexp; [discriminate Hok| |discriminate Hok].
  exists j. split; [done|].
  destruct (snapshot_realtime_fields_from_latest_row round_half_even
              table_59 "4600146" "Halibut Bank" j Hexp)
    as (rr & Hin & _ & Hmax & Hname & Hfields).
  split; [exact Hname|].
  assert (Hrr : rr = mk_row "4600146" (1704067200 + 3540)
                       {[ "wind_speed" := 12%Q; "wind_direction" := 100%Q ]}
                       "x.xml").
  { apply elem_of_cons in Hin as [->|Hin].
    - exfalso.
      assert (Hle : 1704067200 + 3540 ≤ 1704067200); [|lia].
      apply (Hmax (mk_row "4600146" (1704067200 + 3540)
                     {[ "wind_speed" := 12%Q; "wind_direction" := 100%Q ]}
                     "x.xml")); [|done].
      apply list_elem_of_further, list_elem_of_here.
    - by apply list_elem_of_singleton in Hin. }
  subst rr. split.
  - rewrite (Hfields "wind_speed") by by_compute.
    rewrite decide_True by by_compute. reflexivity.
  - rewrite (Hfields "air_temp") by by_compute.
    rewrite decide_True by by_compute. reflexivity.
Defined.

(** Instance of X13: the wave sample 59 minutes older than the newest
    observation is marked with its own time. *)
Lemma wave_observation_time_marks_older_sample_witness :
  ∃ j, export_buoy round_half_even table_59 "4600146" "Halibut Bank"
       = Returns (Some j)
       ∧ j !! "wave_observation_time" = Some (JIso 1704067200).
Proof.
  assert (Hok : match export_buoy round_half_even table_59 "4600146"
                        "Halibut Bank" with
                | Returns (Some _) => true | _ => false end = true)
    by compute_true.
  destruct (export_buoy round_half_even table_59 "4600146" "Halibut Bank")
    as [|[j|]] eqn:Hexp; [discriminate Hok| |discriminate Hok].
  exists j. split; [done|].
  destruct (wave_observation_time_marks_older_sample round_half_even
              table_59 "4600146" "Halibut Bank" j Hexp)
    as (obs_time & Hlatest & Hwot).
  assert (Hl : latest_time table_59 "4600146" = Some 1704070740)
    by compute_true.
  assert (Hw : newest_wave_time table_59 "4600146" = Some 1704067200)
    by compute_true.
  rewrite Hl in Hlatest. injection Hlatest as <-.
  rewrite Hw in Hwot. rewrite Hwot. by rewrite decide_True by lia.
Defined.

(** Instance of X14: Halibut Bank's wind direction comes with its
    label. *)
Lemma snapshot_cardinal_follows_direction_witness :
  ∃ j, export_buoy round_half_even table_59 "4600146" "Halibut Bank"
       = Returns (Some j)
       ∧ (is_Some (j !! "wind_direction_cardinal")
          ↔ is_Some (j !! "wind_direction")).
Proof.
  assert (Hok : match export_buoy round_half_even table_59 "4600146"
                        "Halibut Bank" with
                | Returns (Some _) => true | _ => false end = true)
    by compute_true.
  destruct (export_buoy round_half_even table_59 "4600146" "Halibut Bank")
    as [|[j|]] eqn:Hexp; [discriminate Hok| |discriminate Hok].
  exists j. split; [done|].
  destruct (snapshot_cardinal_follows_direction round_half_even
              table_59 "4600146" "Halibut Bank" j Hexp
              "wind_direction" "wind_direction_cardinal")
    as (Hiff & _); [apply list_elem_of_here|exact Hiff].
Defined.

(** Instance of X15: the snapshot of a table with rows of Halibut Bank
    only. *)
Lemma snapshot_holds_the_stations_with_data_witness :
  ∃ j, query_and_export round_half_even table_59 = Returns (Some j)
       ∧ is_Some (j !! "4600146").
Proof.
  assert (Hok : match query_and_export round_half_even table_59 with
                | Returns (Some _) => true | _ => false end = true)
    by compute_true.
  destruct (query_and_export round_half_even table_59)
    as [|[j|]] eqn:Hexp; [discriminate Hok| |discriminate Hok].
  exists j. split; [done|].
  destruct (snapshot_holds_the_stations_with_data round_half_even
              table_59 j Hexp) as [_ Hstations].
  apply (Hstations "4600146"). split; [by_compute|].
  eexists. split; [apply list_elem_of_here|reflexivity].
Defined.

End more_snapshot_instances.

Section more_cardinal_instances.
Import Snapshot.

(** Instance of C3: the sector edges 11.25 and -11.25 degrees, 45 and -45
    quarter degrees, belong to the sectors that begin there. *)
Lemma degrees_to_cardinal_buckets_witness :
  degrees_to_cardinal (Some (inject_Z 45 / 4)%Q) = Some "NNE"
  ∧ degrees_to_cardinal (Some (inject_Z (-45) / 4)%Q) = Some "N".
Proof.
  destruct degrees_to_cardinal_buckets as [Hquarter _]. split.
  - destruct (Hquarter 45) as (_ & _ & _ & _ & Hlabel & _);
      [by vm_compute|].
    rewrite Hlabel. reflexivity.
  - destruct (Hquarter (-45)) as (_ & _ & _ & _ & Hlabel & _);
      [by vm_compute|].
    rewrite Hlabel. reflexivity.
Defined.

(** Instance of X17: a bearing of minus 90 degrees lies in the sector of
    index -4, whose label is W; the edge at 11.25 degrees belongs to
    NNE. *)
Lemma degrees_to_cardinal_sectors_witness :
  degrees_to_cardinal (Some (inject_Z (-360) / 4)%Q) = Some "W"
  ∧ degrees_to_cardinal (Some (inject_Z 45 / 4)%Q) = Some "NNE".
Proof.
  split.
  - by destruct (degrees_to_cardinal_sectors (-360) (-4))
      as (_ & _ & -> & _); [by vm_compute|lia|].
  - by destruct (degrees_to_cardinal_sectors 45 1)
      as (_ & _ & -> & _); [by vm_compute|lia|].
Defined.

End more_cardinal_instances.

Section more_timeseries_instances.
Import Py Store Timeseries Sample.

(** Instance of X19: exported at 02:00, English Bay has a station
    object. *)
Lemma timeseries_holds_only_stations_and_series_with_data_witness :
  ∃ j,
    build_timeseries round_half_even 1704074400 (Some table_minutes) = Some j
    ∧ is_Some (stations j !! "4600304").
Proof.
  assert (Hok : match build_timeseries round_half_even 1704074400
                        (Some table_minutes) with
                | Some _ => true | None => false end = true)
    by compute_true.
  destruct (build_timeseries round_half_even 1704074400 (Some table_minutes))
    as [j|] eqn:Hbuild; [|discriminate Hok].
  exists j. split; [done|].
  destruct (timeseries_holds_only_stations_and_series_with_data
              round_half_even 1704074400 table_minutes j "4600304" Hbuild)
    as [Hiff _].
  apply Hiff. split; [by_compute|].
  exists "wind_speed", (mk_row "4600304" 1704067200
                          {[ "wind_speed" := 10%Q ]} "a.xml").
  split_and!; [by_compute|by_compute|apply list_elem_of_here|by_compute].
Defined.

(** Instance of X22: the same export; its data range starts inside the
    window. *)
Lemma timeseries_meta_brackets_the_data_witness :
  ∃ j,
    build_timeseries round_half_even 1704074400 (Some table_minutes) = Some j
    ∧ (∀ s, data_start (_meta j) = Some s → 1704074400 - 86400 ≤ s)
    ∧ (buoy_count (_meta j) ≤ 4)%nat.
Proof.
  assert (Hok : match build_timeseries round_half_even 1704074400
                        (Some table_minutes) with
                | Some _ => true | None => false end = true)
    by compute_true.
  destruct (build_timeseries round_half_even 1704074400 (Some table_minutes))
    as [j|] eqn:Hbuild; [|discriminate Hok].
  exists j. split; [done|].
  destruct (timeseries_meta_brackets_the_data round_half_even 1704074400
              table_minutes j Hbuild) as (_ & Hstart & _ & _ & _ & Hcount).
  split; [|exact Hcount].
  intros s Hs. by destruct (Hstart s Hs) as [Hcut _].
Defined.

(** Instance of X20: a database with wind samples; the export writes. *)
Lemma timeseries_export_writes_or_touches_nothing_witness :
  ∃ j fs',
    query_and_export_timeseries round_half_even 1704074400
      (locked_at 1704074200)
    = (fs', [WriteTmp j; ReplaceOut])
    ∧ out_path fs' = Some j.
Proof.
  destruct (timeseries_export_writes_or_touches_nothing round_half_even
              1704074400 (locked_at 1704074200)) as [Hiff Hwrites].
  - intros t [= <-]. unfold times_representable. by_compute.
  - destruct Hwrites as (j & fs' & _ & Hrun & Hout & _).
    + intros Hnothing. apply Hiff in Hnothing
        as [[=]|(t & [= <-] & [Hnone|Hkeys])].
      * apply (Hnone "wind_speed"); by_compute.
      * apply Hkeys. by_compute.
    + exists j, fs'. split; [exact Hrun|exact Hout].
Defined.


End more_timeseries_instances.

Section more_surge_instances.
Import StormSurge Sample.

(** Instance of X23: a two-hour period at an interval of one hour. *)
Lemma time_list_is_the_progression_covering_the_period_witness :
  ∃ n : nat,
    7200 ≤ 0 + 3600 * 1 * Z.of_nat n
    ∧ ∀ fuel, (n ≤ fuel)%nat →
        ∃ l, build_time_list fuel 0 7200 1 = Some l ∧ NoDup l.
Proof.
  destruct (time_list_is_the_progression_covering_the_period 0 7200 1)
    as (n & Hend & _ & Hlist); [lia|].
  exists n. split; [done|]. intros fuel Hfuel.
  destruct (Hlist fuel Hfuel) as (l & Hl & _ & Hnd). by exists l.
Defined.

(** Instance of X24: the same period at an interval of zero hours; the
    loop is still running after one and after a thousand iterations. *)
Lemma time_list_loop_ends_iff_interval_positive_witness :
  build_time_list 1 0 7200 0 = None
  ∧ build_time_list 1000 0 7200 0 = None.
Proof.
  destruct (time_list_loop_ends_iff_interval_positive 0 7200 0)
    as [_ Hnever]; [lia|].
  split; by apply Hnever.
Defined.

(** Instance of X26: one value fetched and one fetch failed. *)
Lemma forecast_holds_each_fetched_value_rounded_witness :
  forecast_data
    (fetch_station_forecast round_half_even
       [(0, Some 1.2345%Q); (3600, None)]) !! 0
  = Some (round_half_even 1.2345 3).
Proof.
  destruct (forecast_holds_each_fetched_value_rounded round_half_even
              [(0, Some 1.2345%Q); (3600, None)]) as (_ & Hvalue & _).
  - by_compute.
  - apply Hvalue, list_elem_of_here.
Defined.

End more_surge_instances.
